(** * Turkey Audio Tours backend: identity, validation and store contracts

    A shallow embedding of the Express handlers of the backend
    (middleware/auth.js, routes/auth.js, routes/locations.js,
    routes/users.js) over an explicit model of the PostgreSQL tables created
    by database/db.js.

    Conventions.
    - A handler is a function of the process environment, the clock, the
      store and the request; it returns the response and the new store.
    - The external libraries are modelled at their interface: HMAC, bcrypt
      and the e-mail validator are uninterpreted functions (section
      variables); jsonwebtoken, express routing and the SQL statements are
      modelled by the functions below.
    - INTEGER and SERIAL columns are unbounded [Z], except that the
      location update checks [listeners], the one INTEGER it writes without
      an upper bound in its validation, against the range of the column;
      timestamps are [Z]; the length of a string is its number of
      characters. *)

From Stdlib Require Import ZArith List String Ascii Bool Lia QArith Qround Qabs.
From Stdlib Require Import Sorted Permutation DecimalString.
Import ListNotations.

Local Open Scope string_scope.
Local Open Scope list_scope.
Local Open Scope Z_scope.

(** ** Responses and requests *)

(** One entry of [errors.array()] of express-validator. *)
Record validation_error := { ve_path : string; ve_msg : string }.

(** The JSON envelope [{success, error, message, details, data}] together
    with the HTTP status.  [res.json] without [res.status] answers 200. *)
Record response (D : Type) := {
  status : Z;
  success : bool;
  error : option string;
  message : option string;
  details : list validation_error;
  data : option D
}.
Arguments status {D} _.
Arguments success {D} _.
Arguments error {D} _.
Arguments message {D} _.
Arguments details {D} _.
Arguments data {D} _.

Definition fail_with {D} (code : Z) (err : string) (msg : option string)
  : response D :=
  {| status := code; success := false; error := Some err; message := msg;
     details := []; data := None |}.

Definition validation_failed {D} (errs : list validation_error) : response D :=
  {| status := 400; success := false; error := Some "Validation failed";
     message := None; details := errs; data := None |}.

Definition ok_with {D} (code : Z) (msg : option string) (d : option D)
  : response D :=
  {| status := code; success := true; error := None; message := msg;
     details := []; data := d |}.

(** ** Token claims *)

(** The object signed by [generateToken]. *)
Record claims := {
  c_id : Z;
  c_email : string;
  c_is_premium : bool;
  c_subscription_type : string
}.

(** The decoded payload: the claims plus the registered claims that
    [jwt.sign] adds for [{ expiresIn: '7d' }]. *)
Record payload := {
  p_claims : claims;
  iat : Z;
  exp : Z
}.

(** A compact JWT in decoded form: payload and signature (the header is the
    constant HS256 one). *)
Record jwt := {
  jwt_payload : payload;
  jwt_signature : string
}.

(** A piece of the Authorization header after [split(' ')]: either the
    compact serialisation of a token, kept decoded, or any other text. *)
Inductive piece :=
| Raw (s : string)
| Compact (t : jwt).

(** JavaScript truthiness of a header piece: only the empty string is falsy. *)
Definition piece_truthy (p : piece) : bool :=
  match p with
  | Raw s => negb (s =? EmptyString)%string
  | Compact _ => true
  end.

(** An [Error] object as the callback of [jwt.verify] sees it. *)
Record js_error := { err_name : string; err_message : string }.

Record process_env := { JWT_SECRET : option string }.

(** [process.env.JWT_SECRET || 'your-secret-key']: an unset or empty
    variable falls back to the default. *)
Definition secret_of (env : process_env) : string :=
  match JWT_SECRET env with
  | Some s => if (s =? EmptyString)%string then "your-secret-key" else s
  | None => "your-secret-key"
  end.

Record request (B : Type) := {
  headers_authorization : option (list piece);
  params : list (string * string);
  query : list (string * string);
  body : B;
  user : option payload
}.
Arguments headers_authorization {B} _.
Arguments params {B} _.
Arguments query {B} _.
Arguments body {B} _.
Arguments user {B} _.

(** [req.user = u] *)
Definition set_user {B} (req : request B) (u : option payload) : request B :=
  {| headers_authorization := headers_authorization req;
     params := params req; query := query req; body := body req;
     user := u |}.

(** What a middleware does with a request: answer it, or call [next()]. *)
Inductive mw (B D : Type) :=
| Respond (r : response D)
| Next (req : request B).
Arguments Respond {B D} _.
Arguments Next {B D} _.

(** Seconds in ['7d']. *)
Definition expiresIn_7d : Z := 7 * 24 * 60 * 60.

(** [Math.floor(Date.now() / 1000)] *)
Definition clock_seconds (now_ms : Z) : Z := now_ms / 1000.

(** ** Strings as the validators and the SQL layer read them *)

Definition is_digit (c : ascii) : bool :=
  let n := N_of_ascii c in ((48 <=? n) && (n <=? 57))%N.

Definition digit_value (c : ascii) : Z := Z.of_N (N_of_ascii c) - 48.

Fixpoint all_digits (s : string) : bool :=
  match s with
  | EmptyString => true
  | String c r => is_digit c && all_digits r
  end.

Fixpoint digits_to_Z (acc : Z) (s : string) : Z :=
  match s with
  | EmptyString => acc
  | String c r => digits_to_Z (10 * acc + digit_value c) r
  end.

(** The sign of a numeral and what follows it. *)
Definition strip_sign (s : string) : bool * string :=
  match s with
  | String "-" r => (true, r)
  | String "+" r => (false, r)
  | _ => (false, s)
  end.

Definition signed (neg : bool) (z : Z) : Z := if neg then - z else z.

(** validator.js [isInt] without options: an optional sign, then either
    the single digit 0 or digits that do not start with 0. *)
Definition isInt_syntax (s : string) : bool :=
  match snd (strip_sign s) with
  | EmptyString => false
  | String "0" EmptyString => true
  | String c r => is_digit c && negb (Ascii.eqb c "0") && all_digits r
  end.

(** The integer a numeral denotes, as PostgreSQL and JavaScript read it. *)
Definition int_of_string (s : string) : Z :=
  let '(neg, ds) := strip_sign s in signed neg (digits_to_Z 0 ds).

Definition above (min : option Z) (z : Z) : bool :=
  match min with Some m => m <=? z | None => true end.

Definition below (max : option Z) (z : Z) : bool :=
  match max with Some m => z <=? m | None => true end.

(** [isInt({ min, max })] *)
Definition isInt (s : string) (min max : option Z) : bool :=
  isInt_syntax s && above min (int_of_string s) && below max (int_of_string s).

(** The white space of a regular expression, within ASCII. *)
Definition is_space (c : ascii) : bool :=
  let n := N_of_ascii c in ((n =? 32) || ((9 <=? n) && (n <=? 13)))%N.

Fixpoint ltrim (s : string) : string :=
  match s with
  | EmptyString => EmptyString
  | String c r => if is_space c then ltrim r else s
  end.

Definition string_rev (s : string) : string :=
  string_of_list_ascii (rev (list_ascii_of_string s)).

(** validator.js [trim] *)
Definition trim (s : string) : string :=
  string_rev (ltrim (string_rev (ltrim s))).

Definition str_length (s : string) : Z := Z.of_nat (String.length s).

(** [isLength({ min, max })] *)
Definition isLength (s : string) (min max : option Z) : bool :=
  above min (str_length s) && below max (str_length s).

(** express-validator turns an absent field into the empty string before it
    runs a validator. *)
Definition toStr (v : option string) : string :=
  match v with Some s => s | None => EmptyString end.

Fixpoint take_digits (s : string) : string :=
  match s with
  | EmptyString => EmptyString
  | String c r => if is_digit c then String c (take_digits r) else EmptyString
  end.

Definition hex_value (c : ascii) : option Z :=
  let n := N_of_ascii c in
  if ((48 <=? n) && (n <=? 57))%N then Some (Z.of_N n - 48)
  else if ((97 <=? n) && (n <=? 102))%N then Some (Z.of_N n - 87)
  else if ((65 <=? n) && (n <=? 70))%N then Some (Z.of_N n - 55)
  else None.

(** The value of the longest hexadecimal prefix, if it is not empty. *)
Fixpoint hex_prefix (acc : option Z) (s : string) : option Z :=
  match s with
  | EmptyString => acc
  | String c r =>
      match hex_value c with
      | Some d =>
          hex_prefix (Some (16 * match acc with Some a => a | None => 0 end + d)) r
      | None => acc
      end
  end.

(** JavaScript [parseInt(s)] without a radix; [None] is [NaN]. *)
Definition parseInt (s : string) : option Z :=
  let '(neg, r) := strip_sign (ltrim s) in
  match r with
  | String "0" (String "x" h) | String "0" (String "X" h) =>
      option_map (signed neg) (hex_prefix None h)
  | _ =>
      match take_digits r with
      | EmptyString => None
      | ds => Some (signed neg (digits_to_Z 0 ds))
      end
  end.

(** Decimal numeral of an integer. *)
Definition dec (z : Z) : string := NilZero.string_of_int (Z.to_int z).

(** [x.toFixed(1)], on the exact value of [x]: the tenth nearest to [x],
    the larger one on a tie.  (The handlers apply it to the double nearest
    to the decimal numeral PostgreSQL returns.) *)
Definition toFixed1 (x : Q) : string :=
  let neg := negb (Qle_bool 0 x) in
  let n := Qfloor (Qabs x * 10 + (1 # 2)) in
  ((if neg then "-" else EmptyString) ++ dec (n / 10) ++ "." ++ dec (n mod 10))%string.

(** ** The tables of database/db.js *)

Module User.
Record row := {
  id : Z;
  email : string;
  password_hash : string;
  first_name : string;
  last_name : string;
  is_premium : bool;
  subscription_type : string;
  created_at : Z;
  updated_at : Z
}.
End User.

Module Location.
Record row := {
  id : Z;
  name : string;
  description : option string;
  category : option string;
  duration : option string;
  rating : option Q;
  listeners : option Z;
  is_premium : option bool;
  image_url : option string;
  audio_url : option string;
  latitude : option Q;
  longitude : option Q;
  created_at : Z;
  updated_at : Z;
  created_by : option Z
}.
End Location.

Module Favorite.
Record row := {
  id : Z;
  user_id : Z;
  location_id : Z;
  created_at : Z
}.
End Favorite.

Module Progress.
Record row := {
  id : Z;
  user_id : Z;
  location_id : Z;
  progress_percentage : Z;
  completed : bool;
  last_position : Z;
  created_at : Z;
  updated_at : Z
}.
End Progress.

(** The store: the four tables in insertion order and the next value of
    each SERIAL sequence.  A sequence advances when a row is stored; the
    values PostgreSQL skips for rejected or conflicting rows are not
    modelled (no handler reads them). *)
Record db := {
  users : list User.row;
  users_id_seq : Z;
  locations : list Location.row;
  locations_id_seq : Z;
  user_favorites : list Favorite.row;
  user_favorites_id_seq : Z;
  user_progress : list Progress.row;
  user_progress_id_seq : Z
}.

Definition empty_db : db :=
  {| users := []; users_id_seq := 1;
     locations := []; locations_id_seq := 1;
     user_favorites := []; user_favorites_id_seq := 1;
     user_progress := []; user_progress_id_seq := 1 |}.

(** A failed statement: the message of the error that [query] rethrows. *)
Definition pg_result (A : Type) : Type := (string + A)%type.

(** *** Statements on [users] *)

(** [SELECT ... FROM users WHERE email = $1] *)
Definition select_users_by_email (d : db) (e : string) : list User.row :=
  filter (fun u => (User.email u =? e)%string) (users d).

(** [INSERT INTO users (email, password_hash, first_name, last_name)
    VALUES ($1, $2, $3, $4) RETURNING ...]: the sequence advances, the
    UNIQUE constraint on [email] is checked, the other columns take their
    defaults. *)
Definition insert_user (d : db) (e h fn ln : string) (now : Z)
  : pg_result (User.row * db) :=
  let next := users_id_seq d + 1 in
  match select_users_by_email d e with
  | _ :: _ =>
      inl "duplicate key value violates unique constraint users_email_key"
  | [] =>
      let u := {| User.id := users_id_seq d; User.email := e;
                  User.password_hash := h;
                  User.first_name := fn; User.last_name := ln;
                  User.is_premium := false;
                  User.subscription_type := "free";
                  User.created_at := now; User.updated_at := now |} in
      inr (u, {| users := users d ++ [u]; users_id_seq := next;
                 locations := locations d;
                 locations_id_seq := locations_id_seq d;
                 user_favorites := user_favorites d;
                 user_favorites_id_seq := user_favorites_id_seq d;
                 user_progress := user_progress d;
                 user_progress_id_seq := user_progress_id_seq d |})
  end.

Definition user_exists (d : db) (uid : Z) : bool :=
  existsb (fun u => User.id u =? uid) (users d).

(** *** Statements on [locations] *)

(** [SELECT id FROM locations WHERE id = $1] *)
Definition select_location_by_id (d : db) (lid : Z) : list Location.row :=
  filter (fun l => Location.id l =? lid) (locations d).

(** [col = $n] for a nullable column: NULL never compares equal. *)
Definition sql_eq_string (col : option string) (v : string) : bool :=
  match col with Some s => (s =? v)%string | None => false end.

Definition sql_eq_bool (col : option bool) (v : bool) : bool :=
  match col with Some b => Bool.eqb b v | None => false end.

(** [col > 0] for a nullable numeric column *)
Definition sql_positive (col : option Q) : bool :=
  match col with Some r => negb (Qle_bool r 0) | None => false end.

(** Insertion into a list kept in descending order of [key]; a new element
    goes behind the elements that have the same key. *)
Fixpoint insert_desc {A} (key : A -> Z) (x : A) (l : list A) : list A :=
  match l with
  | [] => [x]
  | y :: r => if key y <? key x then x :: l else y :: insert_desc key x r
  end.

(** [ORDER BY key DESC]; rows with equal keys stay in table order (SQL
    leaves their order open). *)
Definition order_by_desc {A} (key : A -> Z) (l : list A) : list A :=
  fold_left (fun acc x => insert_desc key x acc) l [].

(** [LIMIT n OFFSET m] *)
Definition limit_offset {A} (n m : Z) (l : list A) : list A :=
  firstn (Z.to_nat n) (skipn (Z.to_nat m) l).

Definition with_locations (d : db) (ls : list Location.row) : db :=
  {| users := users d; users_id_seq := users_id_seq d;
     locations := ls; locations_id_seq := locations_id_seq d;
     user_favorites := user_favorites d;
     user_favorites_id_seq := user_favorites_id_seq d;
     user_progress := user_progress d;
     user_progress_id_seq := user_progress_id_seq d |}.

(** Descending order of [key]. *)
Definition desc {A} (key : A -> Z) (a b : A) : Prop := key b <= key a.

(** *** Statements on [user_favorites] *)

Definition favorite_matches (uid lid : Z) (f : Favorite.row) : bool :=
  (Favorite.user_id f =? uid) && (Favorite.location_id f =? lid).

(** [SELECT id FROM user_favorites WHERE user_id = $1 AND location_id = $2] *)
Definition select_favorite (d : db) (uid lid : Z) : list Favorite.row :=
  filter (favorite_matches uid lid) (user_favorites d).

Definition with_favorites (d : db) (fs : list Favorite.row) (next : Z) : db :=
  {| users := users d; users_id_seq := users_id_seq d;
     locations := locations d; locations_id_seq := locations_id_seq d;
     user_favorites := fs; user_favorites_id_seq := next;
     user_progress := user_progress d;
     user_progress_id_seq := user_progress_id_seq d |}.

(** [INSERT INTO user_favorites (user_id, location_id) VALUES ($1, $2)]:
    both foreign keys and the UNIQUE(user_id, location_id) constraint are
    checked. *)
Definition insert_favorite (d : db) (uid lid now : Z) : pg_result db :=
  if negb (user_exists d uid) then
    inl "insert or update on table user_favorites violates foreign key constraint user_favorites_user_id_fkey"
  else match select_location_by_id d lid with
  | [] =>
    inl "insert or update on table user_favorites violates foreign key constraint user_favorites_location_id_fkey"
  | _ :: _ =>
    match select_favorite d uid lid with
    | _ :: _ =>
      inl "duplicate key value violates unique constraint user_favorites_user_id_location_id_key"
    | [] =>
      let f := {| Favorite.id := user_favorites_id_seq d;
                  Favorite.user_id := uid; Favorite.location_id := lid;
                  Favorite.created_at := now |} in
      inr (with_favorites d (user_favorites d ++ [f])
                          (user_favorites_id_seq d + 1))
    end
  end.

(** [DELETE FROM user_favorites WHERE user_id = $1 AND location_id = $2]:
    the new store and [rowCount]. *)
Definition delete_favorite (d : db) (uid lid : Z) : db * Z :=
  (with_favorites d
     (filter (fun f => negb (favorite_matches uid lid f)) (user_favorites d))
     (user_favorites_id_seq d),
   Z.of_nat (List.length (select_favorite d uid lid))).

(** *** Statements on [user_progress] *)

Definition progress_matches (uid lid : Z) (p : Progress.row) : bool :=
  (Progress.user_id p =? uid) && (Progress.location_id p =? lid).

Definition select_progress (d : db) (uid lid : Z) : list Progress.row :=
  filter (progress_matches uid lid) (user_progress d).

Definition with_progress (d : db) (ps : list Progress.row) (next : Z) : db :=
  {| users := users d; users_id_seq := users_id_seq d;
     locations := locations d; locations_id_seq := locations_id_seq d;
     user_favorites := user_favorites d;
     user_favorites_id_seq := user_favorites_id_seq d;
     user_progress := ps; user_progress_id_seq := next |}.

(** The [DO UPDATE SET] clause applied to the conflicting row. *)
Definition excluded_update (pct : Z) (done : bool) (pos now : Z)
  (p : Progress.row) : Progress.row :=
  {| Progress.id := Progress.id p;
     Progress.user_id := Progress.user_id p;
     Progress.location_id := Progress.location_id p;
     Progress.progress_percentage := pct;
     Progress.completed := done;
     Progress.last_position := pos;
     Progress.created_at := Progress.created_at p;
     Progress.updated_at := now |}.

(** [INSERT INTO user_progress (...) VALUES ($1, $2, $3, $4, $5)
    ON CONFLICT (user_id, location_id) DO UPDATE SET ... RETURNING ...]:
    one statement.  On conflict the existing row is updated in place,
    otherwise the foreign keys are checked and the proposed row is
    appended. *)
Definition upsert_progress (d : db) (uid lid pct : Z) (done : bool)
  (pos now : Z) : pg_result (Progress.row * db) :=
  match select_progress d uid lid with
  | old :: _ =>
      let upd p :=
        if progress_matches uid lid p
        then excluded_update pct done pos now p else p in
      inr (excluded_update pct done pos now old,
           with_progress d (map upd (user_progress d))
                         (user_progress_id_seq d))
  | [] =>
      if negb (user_exists d uid) then
        inl "insert or update on table user_progress violates foreign key constraint user_progress_user_id_fkey"
      else match select_location_by_id d lid with
      | [] =>
        inl "insert or update on table user_progress violates foreign key constraint user_progress_location_id_fkey"
      | _ :: _ =>
        let p := {| Progress.id := user_progress_id_seq d;
                    Progress.user_id := uid; Progress.location_id := lid;
                    Progress.progress_percentage := pct;
                    Progress.completed := done;
                    Progress.last_position := pos;
                    Progress.created_at := now;
                    Progress.updated_at := now |} in
        inr (p, with_progress d (user_progress d ++ [p])
                              (user_progress_id_seq d + 1))
      end
  end.

(** ** Request bodies and response payloads *)

Module RegisterBody.
Record t := {
  email : option string;
  password : option string;
  first_name : option string;
  last_name : option string
}.
End RegisterBody.

Module LoginBody.
Record t := {
  email : option string;
  password : option string
}.
End LoginBody.

(** The body of a progress write, after JSON parsing: an integer, a
    boolean and an integer, each possibly absent. *)
Module ProgressBody.
Record t := {
  progress_percentage : option Z;
  completed : option bool;
  last_position : option Z
}.
End ProgressBody.

(** [data.user] of the register and login answers. *)
Module UserView.
Record t := {
  id : Z;
  email : string;
  first_name : string;
  last_name : string;
  is_premium : bool;
  subscription_type : string;
  created_at : Z
}.
End UserView.

Record auth_data := { ad_user : UserView.t; ad_token : jwt }.

(** [RETURNING progress_percentage, completed, last_position, updated_at] *)
Module ProgressView.
Record t := {
  progress_percentage : Z;
  completed : bool;
  last_position : Z;
  updated_at : Z
}.
End ProgressView.

(** The answer of the location list: [data] with the [total], [limit] and
    [offset] that the envelope carries next to it. *)
Record list_data := {
  ld_rows : list Location.row;
  ld_total : Z;
  ld_limit : Z;
  ld_offset : Z
}.

(** [data] of the statistics overview; [categories] are the rows of the
    GROUP BY query. *)
Record stats_data := {
  total_locations : Z;
  premium_locations : Z;
  free_locations : Z;
  average_rating : string;
  categories : list (option string * Z)
}.

Definition user_view (u : User.row) : UserView.t :=
  {| UserView.id := User.id u; UserView.email := User.email u;
     UserView.first_name := User.first_name u;
     UserView.last_name := User.last_name u;
     UserView.is_premium := User.is_premium u;
     UserView.subscription_type := User.subscription_type u;
     UserView.created_at := User.created_at u |}.

(** The fields of a user row that [generateToken] reads. *)
Definition claims_of_user (u : User.row) : claims :=
  {| c_id := User.id u; c_email := User.email u;
     c_is_premium := User.is_premium u;
     c_subscription_type := User.subscription_type u |}.

Definition progress_view (p : Progress.row) : ProgressView.t :=
  {| ProgressView.progress_percentage := Progress.progress_percentage p;
     ProgressView.completed := Progress.completed p;
     ProgressView.last_position := Progress.last_position p;
     ProgressView.updated_at := Progress.updated_at p |}.

Fixpoint lookup (k : string) (l : list (string * string)) : option string :=
  match l with
  | [] => None
  | (k', v) :: r => if (k' =? k)%string then Some v else lookup k r
  end.

(** A failed validator contributes one error. *)
Definition check (ok : bool) (path msg : string) : list validation_error :=
  if ok then [] else [{| ve_path := path; ve_msg := msg |}].

(** [isInt] on a JSON integer: its numeral always has the integer syntax,
    what is left is the range. *)
Definition isInt_num (z : Z) (min max : option Z) : bool :=
  above min z && below max z.

(** [isBoolean] on a JSON boolean: its text is 'true' or 'false', which
    the validator accepts. *)
Definition isBoolean_bool (b : bool) : bool :=
  let text := if b then "true" else "false" in
  existsb (String.eqb text) ["true"; "false"; "1"; "0"].

(** [.optional()]: an absent field is not validated. *)
Definition optional {A} (v : option A) (validate : A -> list validation_error)
  : list validation_error :=
  match v with Some a => validate a | None => [] end.

(** [req.user.id]; reading it without an identity throws a TypeError. *)
Definition req_user_id {B} (req : request B) : pg_result Z :=
  match user req with
  | Some p => inr (c_id (p_claims p))
  | None => inl "Cannot read properties of undefined (reading 'id')"
  end.

(** [param('locationId').isInt({ min: 1 })] and its [id] twin *)
Definition validate_id_param {B} (name msg : string) (req : request B)
  : list validation_error :=
  check (isInt (toStr (lookup name (params req))) (Some 1) None) name msg.

(** The integer PostgreSQL reads from a validated path parameter. *)
Definition id_param {B} (name : string) (req : request B) : Z :=
  int_of_string (toStr (lookup name (params req))).

(** ** routes/users.js: favorites *)

(** POST /favorites/:locationId, behind [authenticateToken] *)
Definition add_favorite {B} (now : Z) (d : db) (req : request B)
  : response unit * db :=
  match validate_id_param "locationId" "Invalid location ID" req with
  | _ :: _ as errs => (validation_failed errs, d)
  | [] =>
    let locationId := id_param "locationId" req in
    match select_location_by_id d locationId with
    | [] => (fail_with 404 "Location not found" None, d)
    | _ :: _ =>
      match req_user_id req with
      | inl e => (fail_with 500 "Failed to add to favorites" (Some e), d)
      | inr uid =>
        match select_favorite d uid locationId with
        | _ :: _ => (fail_with 409 "Location already in favorites" None, d)
        | [] =>
          match insert_favorite d uid locationId now with
          | inl e => (fail_with 500 "Failed to add to favorites" (Some e), d)
          | inr d' =>
              (ok_with 201 (Some "Location added to favorites") None, d')
          end
        end
      end
    end
  end.

(** DELETE /favorites/:locationId, behind [authenticateToken] *)
Definition remove_favorite {B} (d : db) (req : request B)
  : response unit * db :=
  match validate_id_param "locationId" "Invalid location ID" req with
  | _ :: _ as errs => (validation_failed errs, d)
  | [] =>
    let locationId := id_param "locationId" req in
    match req_user_id req with
    | inl e => (fail_with 500 "Failed to remove from favorites" (Some e), d)
    | inr uid =>
      let '(d', rowCount) := delete_favorite d uid locationId in
      if rowCount =? 0
      then (fail_with 404 "Favorite not found" None, d')
      else (ok_with 200 (Some "Location removed from favorites") None, d')
    end
  end.

(** ** routes/users.js: progress *)

Definition validate_progress (req : request ProgressBody.t)
  : list validation_error :=
  validate_id_param "locationId" "Invalid location ID" req
  ++ check (match ProgressBody.progress_percentage (body req) with
            | Some z => isInt_num z (Some 0) (Some 100)
            | None => false
            end)
           "progress_percentage"
           "Progress percentage must be between 0 and 100"
  ++ optional (ProgressBody.completed (body req))
       (fun b => check (isBoolean_bool b) "completed"
                       "Completed must be a boolean")
  ++ optional (ProgressBody.last_position (body req))
       (fun z => check (isInt_num z (Some 0) None) "last_position"
                       "Last position must be a positive integer").

(** A destructuring default: [x = v] takes [v] when the field is absent. *)
Definition default {A} (v : A) (x : option A) : A :=
  match x with Some a => a | None => v end.

(** PUT /progress/:locationId, behind [authenticateToken].  Once the
    validation has passed [progress_percentage] is present, so only
    [completed] and [last_position] ever take their default. *)
Definition put_progress (now : Z) (d : db) (req : request ProgressBody.t)
  : response ProgressView.t * db :=
  match validate_progress req with
  | _ :: _ as errs => (validation_failed errs, d)
  | [] =>
    let locationId := id_param "locationId" req in
    let progress_percentage :=
      default 0 (ProgressBody.progress_percentage (body req)) in
    let completed := default false (ProgressBody.completed (body req)) in
    let last_position := default 0 (ProgressBody.last_position (body req)) in
    match select_location_by_id d locationId with
    | [] => (fail_with 404 "Location not found" None, d)
    | _ :: _ =>
      match req_user_id req with
      | inl e => (fail_with 500 "Failed to update progress" (Some e), d)
      | inr uid =>
        match upsert_progress d uid locationId progress_percentage
                              completed last_position now with
        | inl e => (fail_with 500 "Failed to update progress" (Some e), d)
        | inr (row, d') =>
            (ok_with 200 (Some "Progress updated successfully")
                     (Some (progress_view row)), d')
        end
      end
    end
  end.


(** The columns of the UNIQUE(user_id, location_id) constraint. *)
Definition progress_key (p : Progress.row) : Z * Z :=
  (Progress.user_id p, Progress.location_id p).




(** ** routes/locations.js *)

(** JavaScript truthiness of a query parameter *)
Definition truthy (v : option string) : bool :=
  match v with
  | Some s => negb (s =? EmptyString)%string
  | None => false
  end.

(** The WHERE clause that GET / builds from the query. *)
Definition list_where (category is_premium : option string)
  (l : Location.row) : bool :=
  (if truthy category
   then sql_eq_string (Location.category l) (toStr category) else true)
  && match is_premium with
     | Some v => sql_eq_bool (Location.is_premium l) (v =? "true")%string
     | None => true
     end.

(** GET / *)
Definition list_locations {B} (d : db) (req : request B)
  : response list_data * db :=
  let category := lookup "category" (query req) in
  let is_premium := lookup "is_premium" (query req) in
  let limit :=
    match lookup "limit" (query req) with
    | Some s => parseInt s
    | None => Some 50
    end in
  let offset :=
    match lookup "offset" (query req) with
    | Some s => parseInt s
    | None => Some 0
    end in
  let failed msg := (fail_with 500 "Failed to fetch locations" (Some msg), d) in
  match limit, offset with
  | Some n, Some m =>
      if m <? 0 then failed "OFFSET must not be negative"
      else if n <? 0 then failed "LIMIT must not be negative"
      else
        let rows :=
          limit_offset n m
            (order_by_desc Location.created_at
               (filter (list_where category is_premium) (locations d))) in
        (ok_with 200 None
           (Some {| ld_rows := rows; ld_total := Z.of_nat (List.length rows);
                    ld_limit := n; ld_offset := m |}), d)
  | _, _ => failed "invalid input syntax for type bigint: NaN"
  end.

(** GET /:id *)
Definition get_location {B} (d : db) (req : request B)
  : response Location.row * db :=
  match validate_id_param "id" "Invalid location ID" req with
  | _ :: _ as errs => (validation_failed errs, d)
  | [] =>
    match select_location_by_id d (id_param "id" req) with
    | [] => (fail_with 404 "Location not found" None, d)
    | l :: _ => (ok_with 200 None (Some l), d)
    end
  end.

(** [SELECT COUNT( * ) FROM locations] *)
Definition count_locations (d : db) : Z :=
  Z.of_nat (List.length (locations d)).

(** [SELECT COUNT( * ) FROM locations WHERE is_premium = true] *)
Definition count_premium (d : db) : Z :=
  Z.of_nat (List.length
    (filter (fun l => sql_eq_bool (Location.is_premium l) true) (locations d))).

Definition same_category (a b : option string) : bool :=
  match a, b with
  | Some x, Some y => (x =? y)%string
  | None, None => true
  | _, _ => false
  end.

(** The groups of [GROUP BY category], in order of first appearance. *)
Fixpoint groups (cs : list (option string)) : list (option string) :=
  match cs with
  | [] => []
  | c :: r => c :: filter (fun c' => negb (same_category c c')) (groups r)
  end.

Definition count_category (cs : list (option string)) (c : option string) : Z :=
  Z.of_nat (List.length (filter (same_category c) cs)).

(** [SELECT category, COUNT( * ) as count FROM locations
    GROUP BY category ORDER BY count DESC] *)
Definition category_stats (d : db) : list (option string * Z) :=
  let cs := map Location.category (locations d) in
  order_by_desc snd (map (fun c => (c, count_category cs c)) (groups cs)).

(** What [WHERE rating > 0] keeps of one value of the column. *)
Definition keep_positive (o : option Q) : list Q :=
  match o with
  | Some r => if sql_positive (Some r) then [r] else []
  | None => []
  end.

(** The ratings that [WHERE rating > 0] keeps. *)
Definition positive_ratings (d : db) : list Q :=
  flat_map (fun l => keep_positive (Location.rating l)) (locations d).

Definition Qsum (l : list Q) : Q := fold_right Qplus 0%Q l.

(** [AVG] of a column: NULL over no row. *)
Definition sql_avg (l : list Q) : option Q :=
  match l with
  | [] => None
  | _ => Some (Qred (Qsum l / inject_Z (Z.of_nat (List.length l))))
  end.

(** [SELECT AVG(rating) as avg_rating FROM locations WHERE rating > 0] *)
Definition avg_rating (d : db) : option Q := sql_avg (positive_ratings d).

(** GET /stats/overview *)
Definition stats_overview (d : db) : response stats_data * db :=
  let totalLocations := count_locations d in
  let premiumLocations := count_premium d in
  (ok_with 200 None
     (Some {| total_locations := totalLocations;
              premium_locations := premiumLocations;
              free_locations := totalLocations - premiumLocations;
              average_rating := toFixed1 (default 0%Q (avg_rating d));
              categories := category_stats d |}), d).

(** *** The route table of the locations router *)

Inductive http_method := GET | POST | PUT | DELETE.

Definition method_eqb (a b : http_method) : bool :=
  match a, b with
  | GET, GET | POST, POST | PUT, PUT | DELETE, DELETE => true
  | _, _ => false
  end.

Inductive handler_id :=
| ListLocations | GetLocation | CreateLocation | UpdateLocation
| DeleteLocation | StatsOverview.

Definition handler_eqb (a b : handler_id) : bool :=
  match a, b with
  | ListLocations, ListLocations | GetLocation, GetLocation
  | CreateLocation, CreateLocation | UpdateLocation, UpdateLocation
  | DeleteLocation, DeleteLocation | StatsOverview, StatsOverview => true
  | _, _ => false
  end.

(** A segment of a route path: fixed text, or a named parameter [:name]. *)
Inductive segment :=
| Lit (s : string)
| Param (name : string).

Record route := {
  route_method : http_method;
  route_path : list segment;
  route_handler : handler_id
}.

(** [router.get('/', ...)], [router.get('/:id', ...)], ... in the order of
    the calls in routes/locations.js. *)
Definition locations_router : list route :=
  [ {| route_method := GET; route_path := [];
       route_handler := ListLocations |};
    {| route_method := GET; route_path := [Param "id"];
       route_handler := GetLocation |};
    {| route_method := POST; route_path := [];
       route_handler := CreateLocation |};
    {| route_method := PUT; route_path := [Param "id"];
       route_handler := UpdateLocation |};
    {| route_method := DELETE; route_path := [Param "id"];
       route_handler := DeleteLocation |};
    {| route_method := GET; route_path := [Lit "stats"; Lit "overview"];
       route_handler := StatsOverview |} ].

(** The pieces of a string between occurrences of [sep], as [split]. *)
Fixpoint split_on (sep : ascii) (s : string) : list string :=
  match s with
  | EmptyString => [EmptyString]
  | String c r =>
      if Ascii.eqb c sep then EmptyString :: split_on sep r
      else match split_on sep r with
           | w :: ws => String c w :: ws
           | [] => [String c EmptyString]
           end
  end.

(** The segments of a request path: the text after each slash, where one
    trailing slash is allowed (routing is not strict). *)
Definition path_segments (p : string) : option (list string) :=
  match split_on "/" p with
  | [EmptyString] => Some []
  | EmptyString :: segs =>
      match rev segs with
      | EmptyString :: front => Some (rev front)
      | _ => Some segs
      end
  | _ => None
  end.

Definition lower (c : ascii) : ascii :=
  let n := N_of_ascii c in
  if ((65 <=? n) && (n <=? 90))%N then ascii_of_N (n + 32) else c.

Fixpoint lowercase (s : string) : string :=
  match s with
  | EmptyString => EmptyString
  | String c r => String (lower c) (lowercase r)
  end.

(** Express compiles a route path segment by segment: a literal matches
    regardless of case; a parameter [:name] matches one segment that is not
    empty, and never a slash. *)
Definition segment_matches (pat : segment) (s : string) : bool :=
  match pat with
  | Lit t => (lowercase t =? lowercase s)%string
  | Param _ => negb (s =? EmptyString)%string
  end.

Fixpoint segments_match (pats : list segment) (segs : list string) : bool :=
  match pats, segs with
  | [], [] => true
  | p :: ps, s :: ss => segment_matches p s && segments_match ps ss
  | _, _ => false
  end.

Definition route_matches (m : http_method) (p : string) (r : route) : bool :=
  method_eqb (route_method r) m
  && match path_segments p with
     | Some segs => segments_match (route_path r) segs
     | None => false
     end.

(** The router tries its routes in the order of their registration and
    hands the request to the first one that matches. *)
Definition dispatch (routes : list route) (m : http_method) (p : string)
  : option handler_id :=
  option_map route_handler (find (route_matches m p) routes).

(** The routes whose pattern is tested for a request: every route up to
    and including the first match. *)
Fixpoint tried (routes : list route) (m : http_method) (p : string)
  : list handler_id :=
  match routes with
  | [] => []
  | r :: rest =>
      route_handler r ::
      (if route_matches m p r then [] else tried rest m p)
  end.

(** The place of a handler in the order of registration. *)
Fixpoint position (h : handler_id) (routes : list route) : option nat :=
  match routes with
  | [] => None
  | r :: rest =>
      if handler_eqb (route_handler r) h then Some O
      else option_map S (position h rest)
  end.

(** ** routes/auth.js and routes/users.js: the account of the caller *)

Module ProfileBody.
Record t := {
  first_name : option string;
  last_name : option string;
  email : option string
}.
End ProfileBody.

Module PasswordBody.
Record t := {
  current_password : option string;
  new_password : option string
}.
End PasswordBody.

(** The body of a subscription update, after JSON parsing: a string and
    a boolean, each possibly absent. *)
Module SubscriptionBody.
Record t := {
  subscription_type : option string;
  is_premium : option bool
}.
End SubscriptionBody.

(** [RETURNING id, email, first_name, last_name, is_premium,
    subscription_type, created_at, updated_at] *)
Module ProfileView.
Record t := {
  id : Z;
  email : string;
  first_name : string;
  last_name : string;
  is_premium : bool;
  subscription_type : string;
  created_at : Z;
  updated_at : Z
}.
End ProfileView.

(** [RETURNING id, email, first_name, last_name, is_premium,
    subscription_type, updated_at] *)
Module SubscriptionView.
Record t := {
  id : Z;
  email : string;
  first_name : string;
  last_name : string;
  is_premium : bool;
  subscription_type : string;
  updated_at : Z
}.
End SubscriptionView.

(** [data: { user: result.rows[0] }]; the user is undefined when the
    statement returned no row. *)
Record user_data (V : Type) := { ud_user : option V }.
Arguments ud_user {V} _.

Definition profile_view (u : User.row) : ProfileView.t :=
  {| ProfileView.id := User.id u; ProfileView.email := User.email u;
     ProfileView.first_name := User.first_name u;
     ProfileView.last_name := User.last_name u;
     ProfileView.is_premium := User.is_premium u;
     ProfileView.subscription_type := User.subscription_type u;
     ProfileView.created_at := User.created_at u;
     ProfileView.updated_at := User.updated_at u |}.

Definition subscription_view (u : User.row) : SubscriptionView.t :=
  {| SubscriptionView.id := User.id u;
     SubscriptionView.email := User.email u;
     SubscriptionView.first_name := User.first_name u;
     SubscriptionView.last_name := User.last_name u;
     SubscriptionView.is_premium := User.is_premium u;
     SubscriptionView.subscription_type := User.subscription_type u;
     SubscriptionView.updated_at := User.updated_at u |}.

(** [SELECT ... FROM users WHERE id = $1] *)
Definition select_user_by_id (d : db) (uid : Z) : list User.row :=
  filter (fun u => User.id u =? uid) (users d).

(** [SELECT id FROM users WHERE email = $1 AND id != $2] *)
Definition select_other_users_by_email (d : db) (e : string) (uid : Z)
  : list User.row :=
  filter (fun u => (User.email u =? e)%string && negb (User.id u =? uid))
         (users d).

Definition with_users (d : db) (us : list User.row) : db :=
  {| users := us; users_id_seq := users_id_seq d;
     locations := locations d; locations_id_seq := locations_id_seq d;
     user_favorites := user_favorites d;
     user_favorites_id_seq := user_favorites_id_seq d;
     user_progress := user_progress d;
     user_progress_id_seq := user_progress_id_seq d |}.

(** [UPDATE users SET ... WHERE id = $n RETURNING ...]: the rows with that
    id are rewritten in place by [upd]; a row whose e-mail changes to one
    that another user holds violates UNIQUE(email).  The result is the
    returned rows and the new store. *)
Definition update_users (d : db) (uid : Z) (upd : User.row -> User.row)
  : pg_result (list User.row * db) :=
  let clash u :=
    negb (User.email (upd u) =? User.email u)%string
    && match select_other_users_by_email d (User.email (upd u)) uid with
       | [] => false
       | _ :: _ => true
       end in
  if existsb clash (select_user_by_id d uid) then
    inl "duplicate key value violates unique constraint users_email_key"
  else
    inr (map upd (select_user_by_id d uid),
         with_users d
           (map (fun u => if User.id u =? uid then upd u else u) (users d))).

(** [SET first_name = .., last_name = .., email = ..,
    updated_at = CURRENT_TIMESTAMP], with only the clauses of the fields
    that were supplied. *)
Definition set_profile (b : ProfileBody.t) (now : Z) (u : User.row)
  : User.row :=
  {| User.id := User.id u;
     User.email := default (User.email u) (ProfileBody.email b);
     User.password_hash := User.password_hash u;
     User.first_name := default (User.first_name u) (ProfileBody.first_name b);
     User.last_name := default (User.last_name u) (ProfileBody.last_name b);
     User.is_premium := User.is_premium u;
     User.subscription_type := User.subscription_type u;
     User.created_at := User.created_at u;
     User.updated_at := now |}.

(** [SET password_hash = $1, updated_at = CURRENT_TIMESTAMP] *)
Definition set_password (h : string) (now : Z) (u : User.row) : User.row :=
  {| User.id := User.id u; User.email := User.email u;
     User.password_hash := h;
     User.first_name := User.first_name u;
     User.last_name := User.last_name u;
     User.is_premium := User.is_premium u;
     User.subscription_type := User.subscription_type u;
     User.created_at := User.created_at u;
     User.updated_at := now |}.

(** [SET subscription_type = $1, is_premium = $2,
    updated_at = CURRENT_TIMESTAMP] *)
Definition set_subscription (kind : string) (premium : bool) (now : Z)
  (u : User.row) : User.row :=
  {| User.id := User.id u; User.email := User.email u;
     User.password_hash := User.password_hash u;
     User.first_name := User.first_name u;
     User.last_name := User.last_name u;
     User.is_premium := premium;
     User.subscription_type := kind;
     User.created_at := User.created_at u;
     User.updated_at := now |}.

(** GET /me, behind [authenticateToken] *)
Definition get_me {B} (d : db) (req : request B)
  : response (user_data ProfileView.t) * db :=
  match req_user_id req with
  | inl e => (fail_with 500 "Failed to fetch user info" (Some e), d)
  | inr uid =>
    match select_user_by_id d uid with
    | [] => (fail_with 404 "User not found" None, d)
    | u :: _ =>
        (ok_with 200 None (Some {| ud_user := Some (profile_view u) |}), d)
    end
  end.

(** [isIn(['free', 'premium', 'pro'])] *)
Definition isIn (s : string) (values : list string) : bool :=
  existsb (String.eqb s) values.

Definition validate_subscription (b : SubscriptionBody.t)
  : list validation_error :=
  check (isIn (toStr (SubscriptionBody.subscription_type b))
              ["free"; "premium"; "pro"])
        "subscription_type" "Invalid subscription type"
  ++ check (match SubscriptionBody.is_premium b with
            | Some v => isBoolean_bool v
            | None => false
            end)
           "is_premium" "is_premium must be a boolean".

(** PUT /subscription, behind [authenticateToken] *)
Definition update_subscription (now : Z) (d : db)
  (req : request SubscriptionBody.t)
  : response (user_data SubscriptionView.t) * db :=
  match validate_subscription (body req) with
  | _ :: _ as errs => (validation_failed errs, d)
  | [] =>
    let subscription_type :=
      toStr (SubscriptionBody.subscription_type (body req)) in
    let is_premium :=
      default false (SubscriptionBody.is_premium (body req)) in
    match req_user_id req with
    | inl e => (fail_with 500 "Failed to update subscription" (Some e), d)
    | inr uid =>
      match update_users d uid
              (set_subscription subscription_type is_premium now) with
      | inl e => (fail_with 500 "Failed to update subscription" (Some e), d)
      | inr (rows, d') =>
          (ok_with 200 (Some "Subscription updated successfully")
             (Some {| ud_user := option_map subscription_view (hd_error rows) |}),
           d')
      end
    end
  end.

(** UNIQUE(email) on [users] *)
Definition users_unique (d : db) : Prop :=
  NoDup (map User.email (users d)).

(** The primary key of [users]: ids are distinct and were drawn from the
    sequence. *)
Definition users_keyed (d : db) : Prop :=
  NoDup (map User.id (users d))
  /\ Forall (fun u => User.id u < users_id_seq d) (users d).

(** ** routes/users.js: the lists and statistics of the caller *)

(** A row of GET /favorites: the columns of the location and
    [uf.created_at as favorited_at]. *)
Record favorite_item := {
  fi_location : Location.row;
  favorited_at : Z
}.

(** A row of GET /progress and of the recent activity: columns of the
    location and of the progress row that is joined to it. *)
Record progress_item := {
  pi_location : Location.row;
  pi_progress : Progress.row
}.

(** [data] of a list answer with the [total] the envelope carries next
    to it. *)
Record listing (A : Type) := { items : list A; total : Z }.
Arguments items {A} _.
Arguments total {A} _.

(** [data] of GET /stats *)
Record user_stats := {
  favorites_count : Z;
  total_started : Z;
  completed_count : Z;
  average_progress : string;
  recent_activity : list progress_item
}.

(** [FROM user_favorites WHERE user_id = $1] *)
Definition favorites_of (d : db) (uid : Z) : list Favorite.row :=
  filter (fun f => Favorite.user_id f =? uid) (user_favorites d).

(** [FROM user_progress WHERE user_id = $1] *)
Definition progress_of (d : db) (uid : Z) : list Progress.row :=
  filter (fun p => Progress.user_id p =? uid) (user_progress d).

(** [FROM user_favorites uf JOIN locations l ON uf.location_id = l.id
    WHERE uf.user_id = $1 ORDER BY uf.created_at DESC] *)
Definition select_favorites (d : db) (uid : Z) : list favorite_item :=
  order_by_desc favorited_at
    (flat_map
       (fun f =>
          map (fun l => {| fi_location := l;
                           favorited_at := Favorite.created_at f |})
              (select_location_by_id d (Favorite.location_id f)))
       (favorites_of d uid)).

(** [FROM user_progress up JOIN locations l ON up.location_id = l.id
    WHERE up.user_id = $1 ORDER BY up.updated_at DESC] *)
Definition select_progress_items (d : db) (uid : Z) : list progress_item :=
  order_by_desc (fun i => Progress.updated_at (pi_progress i))
    (flat_map
       (fun p =>
          map (fun l => {| pi_location := l; pi_progress := p |})
              (select_location_by_id d (Progress.location_id p)))
       (progress_of d uid)).

(** GET /favorites, behind [authenticateToken] *)
Definition get_favorites {B} (d : db) (req : request B)
  : response (listing favorite_item) * db :=
  match req_user_id req with
  | inl e => (fail_with 500 "Failed to fetch favorites" (Some e), d)
  | inr uid =>
      let rows := select_favorites d uid in
      (ok_with 200 None
         (Some {| items := rows; total := Z.of_nat (List.length rows) |}), d)
  end.

(** GET /progress, behind [authenticateToken] *)
Definition get_progress {B} (d : db) (req : request B)
  : response (listing progress_item) * db :=
  match req_user_id req with
  | inl e => (fail_with 500 "Failed to fetch progress" (Some e), d)
  | inr uid =>
      let rows := select_progress_items d uid in
      (ok_with 200 None
         (Some {| items := rows; total := Z.of_nat (List.length rows) |}), d)
  end.

(** GET /stats, behind [authenticateToken]: three queries, the last one
    with LIMIT 5. *)
Definition get_user_stats {B} (d : db) (req : request B)
  : response user_stats * db :=
  match req_user_id req with
  | inl e => (fail_with 500 "Failed to fetch user statistics" (Some e), d)
  | inr uid =>
      let rows := progress_of d uid in
      (ok_with 200 None
         (Some {| favorites_count :=
                    Z.of_nat (List.length (favorites_of d uid));
                  total_started := Z.of_nat (List.length rows);
                  completed_count :=
                    Z.of_nat (List.length (filter Progress.completed rows));
                  average_progress :=
                    toFixed1
                      (default 0%Q
                         (sql_avg
                            (map (fun p =>
                                    inject_Z (Progress.progress_percentage p))
                                 rows)));
                  recent_activity :=
                    limit_offset 5 0 (select_progress_items d uid) |}), d)
  end.

(** UNIQUE(user_id, location_id) on [user_favorites] *)
Definition favorites_unique (d : db) : Prop :=
  NoDup (map (fun f => (Favorite.user_id f, Favorite.location_id f))
             (user_favorites d)).

(** The primary key of [locations]. *)
Definition locations_keyed (d : db) : Prop :=
  NoDup (map Location.id (locations d)).

(** ** routes/locations.js: create, update, delete *)

(** The body of a location write, after JSON parsing: strings, numbers, a
    boolean, each possibly absent. *)
Module LocationBody.
Record t := {
  name : option string;
  description : option string;
  category : option string;
  duration : option string;
  rating : option Q;
  listeners : option Z;
  is_premium : option bool;
  image_url : option string;
  audio_url : option string;
  latitude : option Q;
  longitude : option Q
}.
End LocationBody.

(** [isFloat({ min, max })] on a JSON number *)
Definition isFloat_num (q min max : Q) : bool :=
  Qle_bool min q && Qle_bool q max.

Definition categories_allowed : list string :=
  ["Architecture"; "Religion"; "History"; "Culture"; "Nature"].

Definition validateLocation (b : LocationBody.t) : list validation_error :=
  check (isLength (trim (toStr (LocationBody.name b))) (Some 1) (Some 255))
        "name" "Name is required and must be less than 255 characters"
  ++ optional (LocationBody.description b)
       (fun s => check (isLength s None (Some 2000)) "description"
                       "Description must be less than 2000 characters")
  ++ optional (LocationBody.category b)
       (fun s => check (isIn s categories_allowed) "category"
                       "Invalid category")
  ++ optional (LocationBody.duration b)
       (fun s => check (isLength (trim s) None (Some 50)) "duration"
                       "Duration must be less than 50 characters")
  ++ optional (LocationBody.rating b)
       (fun q => check (isFloat_num q 0 5) "rating"
                       "Rating must be between 0 and 5")
  ++ optional (LocationBody.listeners b)
       (fun z => check (isInt_num z (Some 0) None) "listeners"
                       "Listeners must be a positive integer")
  ++ optional (LocationBody.is_premium b)
       (fun v => check (isBoolean_bool v) "is_premium"
                       "is_premium must be a boolean")
  ++ optional (LocationBody.latitude b)
       (fun q => check (isFloat_num q (-90) 90) "latitude"
                       "Latitude must be between -90 and 90")
  ++ optional (LocationBody.longitude b)
       (fun q => check (isFloat_num q (-180) 180) "longitude"
                       "Longitude must be between -180 and 180").

(** The body after the [trim] sanitizers of [name] and [duration]. *)
Definition sanitizeLocation (b : LocationBody.t) : LocationBody.t :=
  {| LocationBody.name := Some (trim (toStr (LocationBody.name b)));
     LocationBody.description := LocationBody.description b;
     LocationBody.category := LocationBody.category b;
     LocationBody.duration := option_map trim (LocationBody.duration b);
     LocationBody.rating := LocationBody.rating b;
     LocationBody.listeners := LocationBody.listeners b;
     LocationBody.is_premium := LocationBody.is_premium b;
     LocationBody.image_url := LocationBody.image_url b;
     LocationBody.audio_url := LocationBody.audio_url b;
     LocationBody.latitude := LocationBody.latitude b;
     LocationBody.longitude := LocationBody.longitude b |}.

(** A value stored in a DECIMAL(p, scale) column: rounded to [scale]
    decimals, half away from zero.  (The validated ranges fit the
    precision of the three DECIMAL columns.) *)
Definition pg_numeric (scale : nat) (q : Q) : Q :=
  let m := 10 ^ Z.of_nat scale in
  let n := Qfloor (Qabs q * inject_Z m + (1 # 2)) in
  Qred (inject_Z (if Qle_bool 0 q then n else - n) / inject_Z m).

(** [SET name = $1, ..., longitude = $11, updated_at = CURRENT_TIMESTAMP]:
    every column of the body is written, an absent field as NULL. *)
Definition set_location (b : LocationBody.t) (now : Z) (l : Location.row)
  : Location.row :=
  {| Location.id := Location.id l;
     Location.name := toStr (LocationBody.name b);
     Location.description := LocationBody.description b;
     Location.category := LocationBody.category b;
     Location.duration := LocationBody.duration b;
     Location.rating := option_map (pg_numeric 1) (LocationBody.rating b);
     Location.listeners := LocationBody.listeners b;
     Location.is_premium := LocationBody.is_premium b;
     Location.image_url := LocationBody.image_url b;
     Location.audio_url := LocationBody.audio_url b;
     Location.latitude := option_map (pg_numeric 8) (LocationBody.latitude b);
     Location.longitude :=
       option_map (pg_numeric 8) (LocationBody.longitude b);
     Location.created_at := Location.created_at l;
     Location.updated_at := now;
     Location.created_by := Location.created_by l |}.

(** The largest value of an INTEGER column. *)
Definition int4_max : Z := 2147483647.

(** [UPDATE locations SET ... WHERE id = $12 RETURNING ...]: the returned
    rows and the new store.  The statement fails when the value bound to
    [listeners] does not fit the INTEGER column. *)
Definition update_locations (d : db) (lid : Z) (b : LocationBody.t)
  (now : Z) : pg_result (list Location.row * db) :=
  if int4_max <? default 0 (LocationBody.listeners b) then
    inl "value is out of range for type integer"
  else
    inr (map (set_location b now) (select_location_by_id d lid),
         with_locations d
           (map (fun l => if Location.id l =? lid
                          then set_location b now l else l) (locations d))).

(** PUT /:id, behind [authenticateToken] *)
Definition update_location (now : Z) (d : db) (req : request LocationBody.t)
  : response Location.row * db :=
  match validate_id_param "id" "Invalid location ID" req
        ++ validateLocation (body req) with
  | _ :: _ as errs => (validation_failed errs, d)
  | [] =>
    let b := sanitizeLocation (body req) in
    let id := id_param "id" req in
    match select_location_by_id d id with
    | [] => (fail_with 404 "Location not found" None, d)
    | _ :: _ =>
      match update_locations d id b now with
      | inl e => (fail_with 500 "Failed to update location" (Some e), d)
      | inr (rows, d') =>
          (ok_with 200 (Some "Location updated successfully")
                   (hd_error rows), d')
      end
    end
  end.

(** [DELETE FROM locations WHERE id = $1]; the favorites and the progress
    rows of the location go with it (ON DELETE CASCADE). *)
Definition delete_locations (d : db) (lid : Z) : db :=
  {| users := users d; users_id_seq := users_id_seq d;
     locations := filter (fun l => negb (Location.id l =? lid)) (locations d);
     locations_id_seq := locations_id_seq d;
     user_favorites :=
       filter (fun f => negb (Favorite.location_id f =? lid))
              (user_favorites d);
     user_favorites_id_seq := user_favorites_id_seq d;
     user_progress :=
       filter (fun q => negb (Progress.location_id q =? lid))
              (user_progress d);
     user_progress_id_seq := user_progress_id_seq d |}.

(** DELETE /:id, behind [authenticateToken] *)
Definition delete_location {B} (d : db) (req : request B)
  : response unit * db :=
  match validate_id_param "id" "Invalid location ID" req with
  | _ :: _ as errs => (validation_failed errs, d)
  | [] =>
    let id := id_param "id" req in
    match select_location_by_id d id with
    | [] => (fail_with 404 "Location not found" None, d)
    | _ :: _ =>
        (ok_with 200 (Some "Location deleted successfully") None,
         delete_locations d id)
    end
  end.

(** A value bound to a placeholder of a statement. *)
Inductive sql_value :=
| SqlText (v : option string)
| SqlNumeric (v : option Q)
| SqlInteger (v : option Z)
| SqlBoolean (v : option bool).

(** PostgreSQL prepares an INSERT before it runs it: the VALUES list must
    have as many expressions as the column list has names, and the call
    must bind as many values as the statement has placeholders. *)
Definition pg_prepare_insert (columns placeholders : nat)
  (values : list sql_value) : pg_result unit :=
  if (placeholders <? columns)%nat then
    inl "INSERT has more target columns than expressions"
  else if (columns <? placeholders)%nat then
    inl "INSERT has more expressions than target columns"
  else if negb (List.length values =? placeholders)%nat then
    inl "bind message supplies the wrong number of parameters"
  else inr tt.

(** The array that POST / passes to [query]: the eleven fields of the
    body with their destructuring defaults, then [req.user.id]. *)
Definition create_location_values (b : LocationBody.t) (uid : Z)
  : list sql_value :=
  [ SqlText (LocationBody.name b);
    SqlText (Some (default EmptyString (LocationBody.description b)));
    SqlText (Some (default "Architecture" (LocationBody.category b)));
    SqlText (Some (default EmptyString (LocationBody.duration b)));
    SqlNumeric (Some (default 0%Q (LocationBody.rating b)));
    SqlInteger (Some (default 0 (LocationBody.listeners b)));
    SqlBoolean (Some (default false (LocationBody.is_premium b)));
    SqlText (Some (default EmptyString (LocationBody.image_url b)));
    SqlText (Some (default EmptyString (LocationBody.audio_url b)));
    SqlNumeric (LocationBody.latitude b);
    SqlNumeric (LocationBody.longitude b);
    SqlInteger (Some uid) ].

(** The row that the INSERT of POST / is meant to store. *)
Definition created_location (b : LocationBody.t) (uid now : Z) (d : db)
  : Location.row :=
  {| Location.id := locations_id_seq d;
     Location.name := toStr (LocationBody.name b);
     Location.description :=
       Some (default EmptyString (LocationBody.description b));
     Location.category :=
       Some (default "Architecture" (LocationBody.category b));
     Location.duration :=
       Some (default EmptyString (LocationBody.duration b));
     Location.rating :=
       Some (pg_numeric 1 (default 0%Q (LocationBody.rating b)));
     Location.listeners := Some (default 0 (LocationBody.listeners b));
     Location.is_premium := Some (default false (LocationBody.is_premium b));
     Location.image_url :=
       Some (default EmptyString (LocationBody.image_url b));
     Location.audio_url :=
       Some (default EmptyString (LocationBody.audio_url b));
     Location.latitude :=
       option_map (pg_numeric 8) (LocationBody.latitude b);
     Location.longitude :=
       option_map (pg_numeric 8) (LocationBody.longitude b);
     Location.created_at := now; Location.updated_at := now;
     Location.created_by := Some uid |}.

(** POST /, behind [authenticateToken].  The statement names the 12
    columns name .. created_by, has the 11 placeholders $1 .. $11 and is
    called with the 12 values above. *)
Definition create_location (now : Z) (d : db) (req : request LocationBody.t)
  : response Location.row * db :=
  match validateLocation (body req) with
  | _ :: _ as errs => (validation_failed errs, d)
  | [] =>
    let b := sanitizeLocation (body req) in
    let failed e :=
      (fail_with 500 "Failed to create location" (Some e), d) in
    match req_user_id req with
    | inl e => failed e
    | inr uid =>
      match pg_prepare_insert 12 11 (create_location_values b uid) with
      | inl e => failed e
      | inr _ =>
          let l := created_location b uid now d in
          (ok_with 201 (Some "Location created successfully") (Some l),
           {| users := users d; users_id_seq := users_id_seq d;
              locations := locations d ++ [l];
              locations_id_seq := locations_id_seq d + 1;
              user_favorites := user_favorites d;
              user_favorites_id_seq := user_favorites_id_seq d;
              user_progress := user_progress d;
              user_progress_id_seq := user_progress_id_seq d |})
      end
    end
  end.

(** ** database/db.js: initializeDatabase *)

(** An element of [defaultLocations]. *)
Record seed := {
  seed_name : string;
  seed_description : string;
  seed_category : string;
  seed_duration : string;
  seed_rating : Q;
  seed_listeners : Z;
  seed_is_premium : bool;
  seed_image_url : string;
  seed_latitude : Q;
  seed_longitude : Q
}.

Definition defaultLocations : list seed :=
  [ {| seed_name := "Hagia Sophia";
       seed_description :=
         "A masterpiece of Byzantine architecture that has served as both a cathedral and mosque...";
       seed_category := "Architecture"; seed_duration := "8 min";
       seed_rating := 4.9; seed_listeners := 2100; seed_is_premium := false;
       seed_image_url :=
         "https://images.unsplash.com/photo-1541432901042-2d8bd64b4a9b?w=800";
       seed_latitude := 41.0086; seed_longitude := 28.9802 |};
    {| seed_name := "Blue Mosque";
       seed_description :=
         "The Sultan Ahmed Mosque, known as the Blue Mosque for its beautiful blue tiles...";
       seed_category := "Religion"; seed_duration := "6 min";
       seed_rating := 4.8; seed_listeners := 1850; seed_is_premium := false;
       seed_image_url :=
         "https://images.unsplash.com/photo-1524231757912-21f4fe3a7200?w=800";
       seed_latitude := 41.0054; seed_longitude := 28.9768 |};
    {| seed_name := "Topkapi Palace";
       seed_description :=
         "Former residence of Ottoman sultans, now a museum showcasing imperial collections...";
       seed_category := "History"; seed_duration := "12 min";
       seed_rating := 4.7; seed_listeners := 1650; seed_is_premium := true;
       seed_image_url :=
         "https://images.unsplash.com/photo-1570939274717-7eda259b50ed?w=800";
       seed_latitude := 41.0115; seed_longitude := 28.9833 |};
    {| seed_name := "Galata Tower";
       seed_description :=
         "A medieval stone tower offering panoramic views of Istanbul and the Golden Horn...";
       seed_category := "Architecture"; seed_duration := "10 min";
       seed_rating := 4.7; seed_listeners := 1800; seed_is_premium := false;
       seed_image_url :=
         "https://images.unsplash.com/photo-1524231757912-21f4fe3a7200?w=800";
       seed_latitude := 41.0256; seed_longitude := 28.9744 |} ].

(** [INSERT INTO locations (name, description, category, duration, rating,
    listeners, is_premium, image_url, latitude, longitude) VALUES ($1, ...,
    $10)]: ten columns, ten placeholders, ten values; [audio_url] and
    [created_by] stay NULL. *)
Definition insert_seed (now : Z) (d : db) (s : seed) : db :=
  let l := {| Location.id := locations_id_seq d;
              Location.name := seed_name s;
              Location.description := Some (seed_description s);
              Location.category := Some (seed_category s);
              Location.duration := Some (seed_duration s);
              Location.rating := Some (pg_numeric 1 (seed_rating s));
              Location.listeners := Some (seed_listeners s);
              Location.is_premium := Some (seed_is_premium s);
              Location.image_url := Some (seed_image_url s);
              Location.audio_url := None;
              Location.latitude := Some (pg_numeric 8 (seed_latitude s));
              Location.longitude := Some (pg_numeric 8 (seed_longitude s));
              Location.created_at := now; Location.updated_at := now;
              Location.created_by := None |} in
  {| users := users d; users_id_seq := users_id_seq d;
     locations := locations d ++ [l];
     locations_id_seq := locations_id_seq d + 1;
     user_favorites := user_favorites d;
     user_favorites_id_seq := user_favorites_id_seq d;
     user_progress := user_progress d;
     user_progress_id_seq := user_progress_id_seq d |}.

(** [for (const location of defaultLocations) await query(...)]; [clock k]
    is the time of the k-th insert. *)
Fixpoint insert_seeds (clock : nat -> Z) (k : nat) (d : db)
  (seeds : list seed) : db :=
  match seeds with
  | [] => d
  | s :: rest => insert_seeds clock (S k) (insert_seed (clock k) d s) rest
  end.

(** [initializeDatabase], on a database whose four tables exist (CREATE
    TABLE IF NOT EXISTS leaves them as they are): the default locations
    are inserted when the locations table is empty. *)
Definition initializeDatabase (clock : nat -> Z) (d : db) : db :=
  if count_locations d =? 0
  then insert_seeds clock 0 d defaultLocations
  else d.

(** The foreign keys of [user_favorites] and [user_progress]. *)
Definition references_ok (d : db) : Prop :=
  Forall (fun f => user_exists d (Favorite.user_id f) = true
                   /\ select_location_by_id d (Favorite.location_id f) <> [])
         (user_favorites d)
  /\ Forall (fun q => user_exists d (Progress.user_id q) = true
                      /\ select_location_by_id d (Progress.location_id q) <> [])
            (user_progress d).

(** The constraints of the schema that tie the tables together: the
    foreign keys, UNIQUE(user_id, location_id) of [user_favorites] and the
    primary key of [locations]. *)
Definition store_consistent (d : db) : Prop :=
  references_ok d /\ favorites_unique d /\ locations_keyed d.

(** [h1] is registered, and so tested, before [h2]. *)
Definition registered_before (h1 h2 : handler_id) (routes : list route)
  : Prop :=
  exists i j, position h1 routes = Some i /\ position h2 routes = Some j
              /\ (i < j)%nat.

(** ** A small store and small requests, for the examples *)

Definition demo_hmac (secret : string) (p : payload) : string :=
  (secret ++ "." ++ c_email (p_claims p) ++ "." ++ dec (exp p))%string.

Definition demo_bcrypt_hash (rounds : Z) (salt password : string) : string :=
  (dec rounds ++ "$" ++ salt ++ "$" ++ password)%string.

Definition demo_bcrypt_compare (password hash : string) : bool :=
  (hash =? demo_bcrypt_hash 12 "salt" password)%string.

Definition demo_isEmail (s : string) : bool :=
  existsb (Ascii.eqb "@") (list_ascii_of_string s).

Definition demo_env : process_env := {| JWT_SECRET := Some "s3cret" |}.

Definition demo_claims : claims :=
  {| c_id := 1; c_email := "a@x.com"; c_is_premium := false;
     c_subscription_type := "free" |}.

Definition demo_payload : payload :=
  {| p_claims := demo_claims; iat := 0; exp := 604800 |}.

Definition demo_user : User.row :=
  {| User.id := 1; User.email := "a@x.com";
     User.password_hash := demo_bcrypt_hash 12 "salt" "secret1";
     User.first_name := "Ada"; User.last_name := EmptyString;
     User.is_premium := false; User.subscription_type := "free";
     User.created_at := 0; User.updated_at := 0 |}.

Definition demo_location (i : Z) (c : string) (r : Q) (premium : bool)
  : Location.row :=
  {| Location.id := i; Location.name := "Hagia Sophia";
     Location.description := None; Location.category := Some c;
     Location.duration := None; Location.rating := Some r;
     Location.listeners := Some 0; Location.is_premium := Some premium;
     Location.image_url := None; Location.audio_url := None;
     Location.latitude := None; Location.longitude := None;
     Location.created_at := i; Location.updated_at := i;
     Location.created_by := None |}.

Definition demo_progress : Progress.row :=
  {| Progress.id := 1; Progress.user_id := 1; Progress.location_id := 2;
     Progress.progress_percentage := 80; Progress.completed := true;
     Progress.last_position := 120;
     Progress.created_at := 3; Progress.updated_at := 4 |}.

(** One user, four locations rated 0, 0, 4 and 5, one progress row. *)
Definition demo_db : db :=
  {| users := [demo_user]; users_id_seq := 2;
     locations := [demo_location 1 "Architecture" 0 false;
                   demo_location 2 "Religion" 0 true;
                   demo_location 3 "Architecture" 4 false;
                   demo_location 4 "History" 5 true];
     locations_id_seq := 5;
     user_favorites := []; user_favorites_id_seq := 1;
     user_progress := [demo_progress]; user_progress_id_seq := 2 |}.

(** A request of the demo user, past the middleware. *)
Definition demo_request {B} (ps qs : list (string * string)) (b : B)
  : request B :=
  {| headers_authorization := None; params := ps; query := qs; body := b;
     user := Some demo_payload |}.

(** A request that presents [tok] as its bearer token. *)
Definition bearer_request (tok : piece) : request unit :=
  {| headers_authorization := Some [Raw "Bearer"; tok]; params := [];
     query := []; body := tt; user := None |}.

Definition demo_register (email password : string) : request RegisterBody.t :=
  {| headers_authorization := None; params := []; query := [];
     body := {| RegisterBody.email := Some email;
                RegisterBody.password := Some password;
                RegisterBody.first_name := None;
                RegisterBody.last_name := None |};
     user := None |}.

Definition demo_login (email password : string) : request LoginBody.t :=
  {| headers_authorization := None; params := []; query := [];
     body := {| LoginBody.email := Some email;
                LoginBody.password := Some password |};
     user := None |}.

Definition demo_progress_body (pct : Z) : ProgressBody.t :=
  {| ProgressBody.progress_percentage := Some pct;
     ProgressBody.completed := None;
     ProgressBody.last_position := None |}.

Section Backend.

(** HMAC-SHA256 of the signing input under a secret. *)
Variable hmac : string -> payload -> string.

(** *** jsonwebtoken *)

Definition jwt_sign (c : claims) (secret : string) (now_ms : Z) : jwt :=
  let p := {| p_claims := c;
              iat := clock_seconds now_ms;
              exp := clock_seconds now_ms + expiresIn_7d |} in
  {| jwt_payload := p; jwt_signature := hmac secret p |}.

(** The signature of a token is the HMAC of its payload under [secret]. *)
Definition signature_verifies (t : jwt) (secret : string) : bool :=
  (jwt_signature t =? hmac secret (jwt_payload t))%string.

(** [jwt.verify(token, secret, cb)]: the signature is checked first, the
    expiry second. *)
Definition jwt_verify (tok : piece) (secret : string) (now_ms : Z)
  : js_error + payload :=
  match tok with
  | Raw _ =>
      inl {| err_name := "JsonWebTokenError"; err_message := "jwt malformed" |}
  | Compact t =>
      if negb (signature_verifies t secret)
      then inl {| err_name := "JsonWebTokenError";
                  err_message := "invalid signature" |}
      else if exp (jwt_payload t) <=? clock_seconds now_ms
      then inl {| err_name := "TokenExpiredError";
                  err_message := "jwt expired" |}
      else inr (jwt_payload t)
  end.

(** *** routes/auth.js: generateToken *)

Definition generateToken (env : process_env) (c : claims) (now_ms : Z) : jwt :=
  jwt_sign c (secret_of env) now_ms.

(** *** middleware/auth.js: authenticateToken *)

Definition token_required {D} : response D :=
  fail_with 401 "Access token required"
            (Some "Please provide a valid access token").

Definition token_expired {D} : response D :=
  fail_with 401 "Token expired"
            (Some "Your session has expired. Please login again.").

Definition token_invalid {D} : response D :=
  fail_with 403 "Invalid token" (Some "The provided token is invalid").

Definition token_unverifiable {D} : response D :=
  fail_with 403 "Token verification failed"
            (Some "Unable to verify the provided token").

(** The callback handed to [jwt.verify]. *)
Definition verify_callback {B D} (req : request B)
  (res : js_error + payload) : mw B D :=
  match res with
  | inl err =>
      if (err_name err =? "TokenExpiredError")%string then Respond token_expired
      else if (err_name err =? "JsonWebTokenError")%string then Respond token_invalid
      else Respond token_unverifiable
  | inr u => Next (set_user req (Some u))
  end.

(** [authHeader && authHeader.split(' ')[1]] *)
Definition bearer_token {B} (req : request B) : option piece :=
  match headers_authorization req with
  | Some pieces => nth_error pieces 1
  | None => None
  end.

Definition authenticateToken {B D} (env : process_env) (now_ms : Z)
  (req : request B) : mw B D :=
  match bearer_token req with
  | None => Respond token_required
  | Some tok =>
      if negb (piece_truthy tok) then Respond token_required
      else verify_callback req (jwt_verify tok (secret_of env) now_ms)
  end.

(** *** Routes behind the middleware *)

(** [router.METHOD(path, authenticateToken, ..., handler)] *)
Definition with_auth {B D} (env : process_env) (now_ms : Z) (d : db)
  (req : request B) (handler : request B -> response D * db)
  : response D * db :=
  match authenticateToken env now_ms req with
  | Respond r => (r, d)
  | Next req' => handler req'
  end.

Definition post_favorite {B} (env : process_env) (now : Z) (d : db)
  (req : request B) : response unit * db :=
  with_auth env now d req (add_favorite now d).

Definition delete_favorite_route {B} (env : process_env) (now : Z) (d : db)
  (req : request B) : response unit * db :=
  with_auth env now d req (remove_favorite d).

Definition put_progress_route (env : process_env) (now : Z) (d : db)
  (req : request ProgressBody.t) : response ProgressView.t * db :=
  with_auth env now d req (put_progress now d).

(** *** routes/auth.js: register and login *)

(** bcryptjs: [hash(password, rounds)] draws a salt; [compare] checks a
    password against a stored hash. *)
Variable bcrypt_hash : Z -> string -> string -> string.
Variable bcrypt_compare : string -> string -> bool.

(** validator.js: [isEmail] and [normalizeEmail]. *)
Variable isEmail : string -> bool.
Variable normalizeEmail : string -> string.

Definition validate_name (field msg : string) (v : option string)
  : list validation_error :=
  optional v (fun s => check (isLength (trim s) (Some 1) (Some 100)) field msg).

Definition validateRegistration (b : RegisterBody.t) : list validation_error :=
  check (isEmail (toStr (RegisterBody.email b)))
        "email" "Valid email is required"
  ++ check (isLength (toStr (RegisterBody.password b)) (Some 6) None)
           "password" "Password must be at least 6 characters long"
  ++ validate_name "first_name"
       "First name must be between 1 and 100 characters"
       (RegisterBody.first_name b)
  ++ validate_name "last_name"
       "Last name must be between 1 and 100 characters"
       (RegisterBody.last_name b).

(** The body after the sanitizers of the chain have run. *)
Definition sanitizeRegistration (b : RegisterBody.t) : RegisterBody.t :=
  {| RegisterBody.email := Some (normalizeEmail (toStr (RegisterBody.email b)));
     RegisterBody.password := RegisterBody.password b;
     RegisterBody.first_name := option_map trim (RegisterBody.first_name b);
     RegisterBody.last_name := option_map trim (RegisterBody.last_name b) |}.

(** POST /register; [salt] is the salt that [bcrypt.hash] draws. *)
Definition register (env : process_env) (now : Z) (salt : string) (d : db)
  (req : request RegisterBody.t) : response auth_data * db :=
  match validateRegistration (body req) with
  | _ :: _ as errs => (validation_failed errs, d)
  | [] =>
    let b := sanitizeRegistration (body req) in
    let email := toStr (RegisterBody.email b) in
    let password := toStr (RegisterBody.password b) in
    let first_name := default EmptyString (RegisterBody.first_name b) in
    let last_name := default EmptyString (RegisterBody.last_name b) in
    match select_users_by_email d email with
    | _ :: _ =>
        (fail_with 409 "User already exists"
                   (Some "An account with this email already exists"), d)
    | [] =>
      let saltRounds := 12 in
      let password_hash := bcrypt_hash saltRounds salt password in
      match insert_user d email password_hash first_name last_name now with
      | inl e => (fail_with 500 "Failed to register user" (Some e), d)
      | inr (u, d') =>
          let token := generateToken env (claims_of_user u) now in
          (ok_with 201 (Some "User registered successfully")
                   (Some {| ad_user := user_view u; ad_token := token |}), d')
      end
    end
  end.

Definition validateLogin (b : LoginBody.t) : list validation_error :=
  check (isEmail (toStr (LoginBody.email b)))
        "email" "Valid email is required"
  ++ check (negb (toStr (LoginBody.password b) =? EmptyString)%string)
           "password" "Password is required".

Definition invalid_credentials {D} : response D :=
  fail_with 401 "Invalid credentials" (Some "Email or password is incorrect").

(** POST /login *)
Definition login (env : process_env) (now : Z) (d : db)
  (req : request LoginBody.t) : response auth_data * db :=
  match validateLogin (body req) with
  | _ :: _ as errs => (validation_failed errs, d)
  | [] =>
    let email := normalizeEmail (toStr (LoginBody.email (body req))) in
    let password := toStr (LoginBody.password (body req)) in
    match select_users_by_email d email with
    | [] => (invalid_credentials, d)
    | u :: _ =>
      if negb (bcrypt_compare password (User.password_hash u))
      then (invalid_credentials, d)
      else
        let token := generateToken env (claims_of_user u) now in
        (ok_with 200 (Some "Login successful")
                 (Some {| ad_user := user_view u; ad_token := token |}), d)
    end
  end.

(** *** middleware/auth.js: optionalAuth and authenticateAdmin *)


Definition admin_authentication_required {D} : response D :=
  fail_with 401 "Authentication required"
            (Some "Admin access requires authentication").

(** [authenticateAdmin]: [authenticateToken] with a continuation that
    looks at [req.user] before it calls [next()]; the role check is
    commented out in the source. *)
Definition authenticateAdmin {B D} (env : process_env) (now_ms : Z)
  (req : request B) : mw B D :=
  match authenticateToken env now_ms req with
  | Respond r => Respond r
  | Next req' =>
      match user req' with
      | None => Respond admin_authentication_required
      | Some _ => Next req'
      end
  end.

(** *** routes/auth.js: profile and password *)

Definition validateProfile (b : ProfileBody.t) : list validation_error :=
  validate_name "first_name"
    "First name must be between 1 and 100 characters"
    (ProfileBody.first_name b)
  ++ validate_name "last_name"
       "Last name must be between 1 and 100 characters"
       (ProfileBody.last_name b)
  ++ optional (ProfileBody.email b)
       (fun e => check (isEmail e) "email" "Valid email is required").

(** The body after the sanitizers of the chains have run. *)
Definition sanitizeProfile (b : ProfileBody.t) : ProfileBody.t :=
  {| ProfileBody.first_name := option_map trim (ProfileBody.first_name b);
     ProfileBody.last_name := option_map trim (ProfileBody.last_name b);
     ProfileBody.email := option_map normalizeEmail (ProfileBody.email b) |}.

(** [Object.keys(updates).length === 0] *)
Definition no_updates (b : ProfileBody.t) : bool :=
  match ProfileBody.first_name b, ProfileBody.last_name b,
        ProfileBody.email b with
  | None, None, None => true
  | _, _, _ => false
  end.

(** PUT /profile, behind [authenticateToken].  The e-mail is looked up
    before the handler tests whether there is anything to update. *)
Definition update_profile (now : Z) (d : db) (req : request ProfileBody.t)
  : response (user_data ProfileView.t) * db :=
  match validateProfile (body req) with
  | _ :: _ as errs => (validation_failed errs, d)
  | [] =>
    let b := sanitizeProfile (body req) in
    let failed e := (fail_with 500 "Failed to update profile" (Some e), d) in
    let write :=
      if no_updates b then (fail_with 400 "No updates provided" None, d)
      else
        match req_user_id req with
        | inl e => failed e
        | inr uid =>
          match update_users d uid (set_profile b now) with
          | inl e => failed e
          | inr (rows, d') =>
              (ok_with 200 (Some "Profile updated successfully")
                 (Some {| ud_user := option_map profile_view (hd_error rows) |}),
               d')
          end
        end in
    match ProfileBody.email b with
    | None => write
    | Some email =>
      match req_user_id req with
      | inl e => failed e
      | inr uid =>
        match select_other_users_by_email d email uid with
        | _ :: _ =>
            (fail_with 409 "Email already taken"
               (Some "Another account is already using this email"), d)
        | [] => write
        end
      end
    end
  end.

Definition validate_password_change (b : PasswordBody.t)
  : list validation_error :=
  check (negb (toStr (PasswordBody.current_password b) =? EmptyString)%string)
        "current_password" "Current password is required"
  ++ check (isLength (toStr (PasswordBody.new_password b)) (Some 6) None)
           "new_password" "New password must be at least 6 characters long".

(** POST /change-password, behind [authenticateToken]; [salt] is the salt
    that [bcrypt.hash] draws. *)
Definition change_password (now : Z) (salt : string) (d : db)
  (req : request PasswordBody.t) : response unit * db :=
  match validate_password_change (body req) with
  | _ :: _ as errs => (validation_failed errs, d)
  | [] =>
    let current_password := toStr (PasswordBody.current_password (body req)) in
    let new_password := toStr (PasswordBody.new_password (body req)) in
    let failed e := (fail_with 500 "Failed to change password" (Some e), d) in
    match req_user_id req with
    | inl e => failed e
    | inr uid =>
      match select_user_by_id d uid with
      | [] => (fail_with 404 "User not found" None, d)
      | u :: _ =>
        if negb (bcrypt_compare current_password (User.password_hash u))
        then (fail_with 401 "Invalid current password" None, d)
        else
          let saltRounds := 12 in
          let new_password_hash := bcrypt_hash saltRounds salt new_password in
          match update_users d uid (set_password new_password_hash now) with
          | inl e => failed e
          | inr (_, d') =>
              (ok_with 200 (Some "Password changed successfully") None, d')
          end
      end
    end
  end.

(** ** The token service and the identity middleware *)

Lemma signature_verifies_sign (c : claims) (secret : string) (t0 : Z) :
  signature_verifies (jwt_sign c secret t0) secret = true.
Proof. unfold signature_verifies, jwt_sign; cbn. apply String.eqb_refl. Qed.

Lemma jwt_verify_sign (c : claims) (secret : string) (t0 t : Z) :
  clock_seconds t < clock_seconds t0 + expiresIn_7d ->
  jwt_verify (Compact (jwt_sign c secret t0)) secret t
  = inr (jwt_payload (jwt_sign c secret t0)).
Proof.
  intros Hlt. unfold jwt_verify.
  rewrite signature_verifies_sign. cbn [negb jwt_sign jwt_payload exp].
  destruct (Z.leb_spec (clock_seconds t0 + expiresIn_7d) (clock_seconds t)).
  - lia.
  - reflexivity.
Qed.

Lemma jwt_verify_expired (t : jwt) (secret : string) (now : Z) :
  signature_verifies t secret = true ->
  exp (jwt_payload t) <= clock_seconds now ->
  exists e, jwt_verify (Compact t) secret now = inl e
            /\ err_name e = "TokenExpiredError".
Proof.
  intros Hsig Hexp. unfold jwt_verify. rewrite Hsig. cbn [negb].
  destruct (Z.leb_spec (exp (jwt_payload t)) (clock_seconds now)); [|lia].
  eexists; split; reflexivity.
Qed.

Lemma jwt_verify_bad_signature (t : jwt) (secret : string) (now : Z) :
  signature_verifies t secret = false ->
  exists e, jwt_verify (Compact t) secret now = inl e
            /\ err_name e = "JsonWebTokenError".
Proof.
  intros Hsig. unfold jwt_verify. rewrite Hsig. cbn [negb].
  eexists; split; reflexivity.
Qed.

Lemma authenticateToken_verifies {B D} env now (req : request B) tok :
  bearer_token req = Some tok ->
  piece_truthy tok = true ->
  authenticateToken (D := D) env now req
  = verify_callback req (jwt_verify tok (secret_of env) now).
Proof.
  intros Hb Ht. unfold authenticateToken. rewrite Hb, Ht. reflexivity.
Qed.

Lemma with_auth_next {B D} env now d (req : request B) tok u
  (handler : request B -> response D * db) :
  bearer_token req = Some tok ->
  piece_truthy tok = true ->
  jwt_verify tok (secret_of env) now = inr u ->
  with_auth env now d req handler = handler (set_user req (Some u)).
Proof.
  intros Hb Ht Hv. unfold with_auth.
  rewrite (authenticateToken_verifies env now req tok Hb Ht), Hv. reflexivity.
Qed.

Lemma with_auth_rejected {B D} env now d (req : request B) r
  (handler : request B -> response D * db) :
  authenticateToken env now req = Respond r ->
  with_auth env now d req handler = (r, d).
Proof. intros H. unfold with_auth. rewrite H. reflexivity. Qed.


(** C2.  For a request that carries a bearer token: a token whose signature
    verifies but whose expiry has passed is answered 401 "Token expired";
    a token whose signature does not verify, or text that is no token, is
    answered 403 "Invalid token", whether or not it is also past its
    expiry; any verification error of another name is answered 403 "Token
    verification failed".  The three answers are pairwise different. *)
Theorem token_failures_distinguished {B D} (env : process_env) (now : Z)
  (req : request B) (tok : piece) :
  bearer_token req = Some tok ->
  piece_truthy tok = true ->
  (forall t, tok = Compact t ->
     signature_verifies t (secret_of env) = true ->
     exp (jwt_payload t) <= clock_seconds now ->
     authenticateToken (D := D) env now req = Respond token_expired)
  /\ (forall t, tok = Compact t ->
       signature_verifies t (secret_of env) = false ->
       authenticateToken (D := D) env now req = Respond token_invalid)
  /\ (forall s, tok = Raw s ->
       authenticateToken (D := D) env now req = Respond token_invalid)
  /\ (forall e : js_error,
       err_name e <> "TokenExpiredError" ->
       err_name e <> "JsonWebTokenError" ->
       verify_callback (D := D) req (inl e) = Respond token_unverifiable)
  /\ (status (@token_expired D) = 401
      /\ status (@token_invalid D) = 403
      /\ status (@token_unverifiable D) = 403)
  /\ (error (@token_expired D) <> error (@token_invalid D)
      /\ error (@token_unverifiable D) <> error (@token_expired D)
      /\ error (@token_unverifiable D) <> error (@token_invalid D)).
Proof.
  intros Hb Ht.
  pose proof (authenticateToken_verifies (D := D) env now req tok Hb Ht) as Ha.
  repeat split.
  - intros t -> Hsig Hexp. rewrite Ha.
    destruct (jwt_verify_expired t _ now Hsig Hexp) as (e & -> & He).
    unfold verify_callback. rewrite He. reflexivity.
  - intros t -> Hsig. rewrite Ha.
    destruct (jwt_verify_bad_signature t _ now Hsig) as (e & -> & He).
    unfold verify_callback. rewrite He. reflexivity.
  - intros s ->. rewrite Ha. reflexivity.
  - intros e H1 H2. unfold verify_callback.
    apply String.eqb_neq in H1, H2. rewrite H1, H2. reflexivity.
  - discriminate.
  - discriminate.
  - discriminate.
Qed.

(** ** Registration and login *)

Lemma select_users_by_email_app (d : db) (e : string) (us : list User.row) :
  filter (fun u => (User.email u =? e)%string) (users d ++ us)
  = select_users_by_email d e ++ filter (fun u => (User.email u =? e)%string) us.
Proof. unfold select_users_by_email. apply filter_app. Qed.

Lemma insert_user_fresh (d : db) (e h fn ln : string) (now : Z) :
  select_users_by_email d e = [] ->
  exists u d',
    insert_user d e h fn ln now = inr (u, d')
    /\ User.email u = e
    /\ users d' = users d ++ [u]
    /\ select_users_by_email d' e = [u].
Proof.
  intros Hfresh. unfold insert_user. rewrite Hfresh.
  eexists; eexists; split; [reflexivity|].
  split; [reflexivity|]. split; [reflexivity|].
  unfold select_users_by_email at 1; cbn [users].
  rewrite select_users_by_email_app, Hfresh. cbn.
  rewrite String.eqb_refl. reflexivity.
Qed.

Lemma register_fresh env now salt d (req : request RegisterBody.t) :
  validateRegistration (body req) = [] ->
  select_users_by_email d
    (normalizeEmail (toStr (RegisterBody.email (body req)))) = [] ->
  exists u,
    status (fst (register env now salt d req)) = 201
    /\ select_users_by_email (snd (register env now salt d req))
         (normalizeEmail (toStr (RegisterBody.email (body req)))) = [u].
Proof.
  intros Hv Hfresh. unfold register. rewrite Hv. cbn [sanitizeRegistration
    RegisterBody.email RegisterBody.password RegisterBody.first_name
    RegisterBody.last_name toStr].
  rewrite Hfresh.
  match goal with
  | |- context [insert_user d ?e ?h ?fn ?ln now] =>
      destruct (insert_user_fresh d e h fn ln now Hfresh)
        as (u & d' & -> & _ & _ & Hsel)
  end.
  exists u. split; [reflexivity | exact Hsel].
Qed.

Lemma register_taken env now salt d (req : request RegisterBody.t) u rest :
  validateRegistration (body req) = [] ->
  select_users_by_email d
    (normalizeEmail (toStr (RegisterBody.email (body req)))) = u :: rest ->
  register env now salt d req
  = (fail_with 409 "User already exists"
       (Some "An account with this email already exists"), d).
Proof.
  intros Hv Htaken. unfold register. rewrite Hv. cbn [sanitizeRegistration
    RegisterBody.email toStr].
  rewrite Htaken. reflexivity.
Qed.

(** C3.  Two valid registration requests whose e-mails normalize to the
    same address, an address that no user row holds yet, processed one
    after the other in either order: the first is answered 201, the second
    409 without touching the store, and afterwards exactly one user row
    holds that address. *)
Theorem duplicate_registration_exclusion (env : process_env)
  (t1 t2 : Z) (salt1 salt2 : string) (d : db)
  (r1 r2 : request RegisterBody.t) :
  validateRegistration (body r1) = [] ->
  validateRegistration (body r2) = [] ->
  normalizeEmail (toStr (RegisterBody.email (body r1)))
  = normalizeEmail (toStr (RegisterBody.email (body r2))) ->
  select_users_by_email d
    (normalizeEmail (toStr (RegisterBody.email (body r1)))) = [] ->
  forall first second : request RegisterBody.t,
    (first = r1 /\ second = r2) \/ (first = r2 /\ second = r1) ->
    let a1 := register env t1 salt1 d first in
    let a2 := register env t2 salt2 (snd a1) second in
    status (fst a1) = 201
    /\ status (fst a2) = 409
    /\ snd a2 = snd a1
    /\ List.length
         (select_users_by_email (snd a2)
            (normalizeEmail (toStr (RegisterBody.email (body r1))))) = 1%nat.
Proof.
  intros Hv1 Hv2 Hsame Hfresh first second Horder a1 a2.
  assert (Hgen : forall ra rb : request RegisterBody.t,
    validateRegistration (body ra) = [] ->
    validateRegistration (body rb) = [] ->
    normalizeEmail (toStr (RegisterBody.email (body ra)))
    = normalizeEmail (toStr (RegisterBody.email (body rb))) ->
    select_users_by_email d
      (normalizeEmail (toStr (RegisterBody.email (body ra)))) = [] ->
    let b1 := register env t1 salt1 d ra in
    let b2 := register env t2 salt2 (snd b1) rb in
    status (fst b1) = 201 /\ status (fst b2) = 409 /\ snd b2 = snd b1
    /\ List.length
         (select_users_by_email (snd b2)
            (normalizeEmail (toStr (RegisterBody.email (body ra))))) = 1%nat).
  { intros ra rb Ha Hb Hab Hf b1 b2.
    destruct (register_fresh env t1 salt1 d ra Ha Hf) as (u & Hst & Hsel).
    fold b1 in Hst, Hsel.
    assert (Hb2 : b2 = (fail_with 409 "User already exists"
                          (Some "An account with this email already exists"),
                        snd b1)).
    { unfold b2. apply (register_taken env t2 salt2 (snd b1) rb u []); [exact Hb|].
      rewrite <- Hab. exact Hsel. }
    rewrite Hb2. cbn [fst snd]. rewrite Hsel. repeat split; auto. }
  destruct Horder as [[-> ->] | [-> ->]].
  - apply Hgen; assumption.
  - rewrite Hsame in Hfresh |- *. apply Hgen; auto.
Qed.

Lemma login_unknown_email env now d (req : request LoginBody.t) :
  validateLogin (body req) = [] ->
  select_users_by_email d
    (normalizeEmail (toStr (LoginBody.email (body req)))) = [] ->
  login env now d req = (invalid_credentials, d).
Proof. intros Hv Hnone. unfold login. rewrite Hv, Hnone. reflexivity. Qed.

Lemma login_wrong_password env now d (req : request LoginBody.t) u rest :
  validateLogin (body req) = [] ->
  select_users_by_email d
    (normalizeEmail (toStr (LoginBody.email (body req)))) = u :: rest ->
  bcrypt_compare (toStr (LoginBody.password (body req)))
                 (User.password_hash u) = false ->
  login env now d req = (invalid_credentials, d).
Proof.
  intros Hv Hsome Hpw. unfold login. rewrite Hv, Hsome, Hpw. reflexivity.
Qed.

(** C4.  A login for an e-mail that no user row holds and a login whose
    password does not verify against the stored hash receive the same
    answer: status 401, error "Invalid credentials", message "Email or
    password is incorrect", no data; status and body do not tell which
    part was wrong. *)
Theorem login_failures_indistinguishable
  (env1 env2 : process_env) (now1 now2 : Z) (d1 d2 : db)
  (req1 req2 : request LoginBody.t) (u : User.row) (rest : list User.row) :
  validateLogin (body req1) = [] ->
  validateLogin (body req2) = [] ->
  select_users_by_email d1
    (normalizeEmail (toStr (LoginBody.email (body req1)))) = [] ->
  select_users_by_email d2
    (normalizeEmail (toStr (LoginBody.email (body req2)))) = u :: rest ->
  bcrypt_compare (toStr (LoginBody.password (body req2)))
                 (User.password_hash u) = false ->
  fst (login env1 now1 d1 req1) = fst (login env2 now2 d2 req2)
  /\ fst (login env1 now1 d1 req1) = invalid_credentials
  /\ status (fst (login env1 now1 d1 req1)) = 401
  /\ error (fst (login env1 now1 d1 req1)) = Some "Invalid credentials"
  /\ message (fst (login env1 now1 d1 req1))
     = Some "Email or password is incorrect"
  /\ data (fst (login env1 now1 d1 req1)) = None.
Proof.
  intros Hv1 Hv2 Hnone Hsome Hpw.
  rewrite (login_unknown_email env1 now1 d1 req1 Hv1 Hnone).
  rewrite (login_wrong_password env2 now2 d2 req2 u rest Hv2 Hsome Hpw).
  repeat split.
Qed.

(** ** Favorites *)








(** ** Progress *)

Lemma progress_matches_key (uid lid : Z) (p : Progress.row) :
  progress_matches uid lid p = true <-> progress_key p = (uid, lid).
Proof.
  unfold progress_matches, progress_key. rewrite andb_true_iff, !Z.eqb_eq.
  split; [intros [-> ->]; reflexivity | intros [= -> ->]; auto].
Qed.


Lemma excluded_update_key pct done pos now (p : Progress.row) :
  progress_key (excluded_update pct done pos now p) = progress_key p.
Proof. reflexivity. Qed.

(** What a successful upsert leaves behind. *)
Lemma upsert_progress_stored (d d' : db) uid lid pct done pos now row :
  upsert_progress d uid lid pct done pos now = inr (row, d') ->
  users d' = users d /\ users_id_seq d' = users_id_seq d
  /\ locations d' = locations d /\ locations_id_seq d' = locations_id_seq d
  /\ user_favorites d' = user_favorites d
  /\ user_favorites_id_seq d' = user_favorites_id_seq d
  /\ ((select_progress d uid lid = []
       /\ user_progress d' = user_progress d ++ [row]
       /\ user_progress_id_seq d' = user_progress_id_seq d + 1
       /\ Progress.id row = user_progress_id_seq d
       /\ Progress.created_at row = now)
      \/ (select_progress d uid lid <> []
          /\ user_progress d'
             = map (fun p => if progress_matches uid lid p
                             then excluded_update pct done pos now p else p)
                   (user_progress d)
          /\ user_progress_id_seq d' = user_progress_id_seq d))
  /\ progress_matches uid lid row = true
  /\ Progress.progress_percentage row = pct
  /\ Progress.completed row = done
  /\ Progress.last_position row = pos
  /\ Progress.updated_at row = now.
Proof.
  unfold upsert_progress.
  destruct (select_progress d uid lid) as [|old olds] eqn:Hsel.
  - destruct (negb (user_exists d uid)); [discriminate|].
    destruct (select_location_by_id d lid); [discriminate|].
    intros [= <- <-]. cbn.
    repeat (split; [reflexivity|]).
    split; [left; repeat split|].
    unfold progress_matches; cbn. rewrite !Z.eqb_refl. repeat split.
  - intros [= <- <-]. cbn.
    repeat (split; [reflexivity|]).
    split; [right; repeat split; discriminate|].
    assert (Hold : progress_matches uid lid old = true).
    { assert (Hin : In old (select_progress d uid lid))
        by (rewrite Hsel; left; reflexivity).
      apply filter_In in Hin. apply Hin. }
    repeat split. exact Hold.
Qed.

(** After a successful upsert every row of the pair holds the written
    values. *)
Lemma upsert_progress_values (d d' : db) uid lid pct done pos now row :
  upsert_progress d uid lid pct done pos now = inr (row, d') ->
  forall p, In p (user_progress d') -> progress_matches uid lid p = true ->
    Progress.progress_percentage p = pct
    /\ Progress.completed p = done
    /\ Progress.last_position p = pos.
Proof.
  intros Hup p Hin Hm.
  destruct (upsert_progress_stored _ _ _ _ _ _ _ _ _ Hup)
    as (_ & _ & _ & _ & _ & _ & Hcases & Hrm & Hpct & Hdone & Hpos & _).
  destruct Hcases as [(Hnone & Hrows & _) | (_ & Hrows & _)].
  - rewrite Hrows in Hin. apply in_app_or in Hin. destruct Hin as [Hin|Hin].
    + exfalso. assert (Hf : In p (select_progress d uid lid))
        by (apply filter_In; auto).
      rewrite Hnone in Hf. exact Hf.
    + destruct Hin as [<-|[]]. auto.
  - rewrite Hrows in Hin. apply in_map_iff in Hin.
    destruct Hin as (q & Hq & _).
    destruct (progress_matches uid lid q) eqn:Hmq.
    + subst p. cbn. auto.
    + subst p. congruence.
Qed.

Lemma upsert_progress_failure_timeless (d : db) uid lid pct done pos now now' e :
  upsert_progress d uid lid pct done pos now = inl e ->
  upsert_progress d uid lid pct done pos now' = inl e.
Proof.
  unfold upsert_progress.
  destruct (select_progress d uid lid); [|discriminate].
  destruct (negb (user_exists d uid)); [auto|].
  destruct (select_location_by_id d lid); [auto|discriminate].
Qed.



Lemma upsert_progress_present (d d' : db) uid lid pct done pos now row :
  upsert_progress d uid lid pct done pos now = inr (row, d') ->
  In row (user_progress d') /\ select_progress d' uid lid <> [].
Proof.
  intros Hup.
  assert (Hin : In row (user_progress d')).
  { pose proof Hup as Hup'. unfold upsert_progress in Hup'.
    destruct (select_progress d uid lid) as [|old olds] eqn:Hsel.
    - destruct (negb (user_exists d uid)); [discriminate|].
      destruct (select_location_by_id d lid); [discriminate|].
      injection Hup' as <- <-. cbn. apply in_or_app. right. left. reflexivity.
    - injection Hup' as <- <-. cbn.
      assert (Hold : In old (select_progress d uid lid))
        by (rewrite Hsel; left; reflexivity).
      apply filter_In in Hold. destruct Hold as [Hold Hm].
      apply in_map_iff. exists old. rewrite Hm. auto. }
  split; [exact Hin|].
  destruct (upsert_progress_stored _ _ _ _ _ _ _ _ _ Hup)
    as (_ & _ & _ & _ & _ & _ & _ & Hrm & _).
  intros Hnone.
  assert (Hf : In row (select_progress d' uid lid))
    by (apply filter_In; auto).
  rewrite Hnone in Hf. exact Hf.
Qed.

(** A progress write either leaves the store as it is, whatever the time,
    or it is answered 200 with the row that the upsert returned. *)
Lemma put_progress_inv (now : Z) (d : db) (req : request ProgressBody.t) :
  (status (fst (put_progress now d req)) <> 200
   /\ forall now', put_progress now' d req = put_progress now d req
                  /\ snd (put_progress now' d req) = d)
  \/ (exists u row d',
        user req = Some u
        /\ validate_progress req = []
        /\ select_location_by_id d (id_param "locationId" req) <> []
        /\ upsert_progress d (c_id (p_claims u)) (id_param "locationId" req)
             (default 0 (ProgressBody.progress_percentage (body req)))
             (default false (ProgressBody.completed (body req)))
             (default 0 (ProgressBody.last_position (body req))) now
           = inr (row, d')
        /\ put_progress now d req
           = (ok_with 200 (Some "Progress updated successfully")
                      (Some (progress_view row)), d')).
Proof.
  unfold put_progress, req_user_id.
  destruct (validate_progress req) eqn:Hv.
  2:{ left. split; [discriminate|]. intros; split; reflexivity. }
  destruct (select_location_by_id d (id_param "locationId" req)) eqn:Hloc.
  { left. split; [discriminate|]. intros; split; reflexivity. }
  destruct (user req) as [u|] eqn:Hu.
  2:{ left. split; [discriminate|]. intros; split; reflexivity. }
  destruct (upsert_progress d (c_id (p_claims u)) (id_param "locationId" req)
              (default 0 (ProgressBody.progress_percentage (body req)))
              (default false (ProgressBody.completed (body req)))
              (default 0 (ProgressBody.last_position (body req))) now)
    as [e|[row d']] eqn:Hup.
  - left. split; [discriminate|]. intros now'.
    rewrite (upsert_progress_failure_timeless _ _ _ _ _ _ _ now' _ Hup).
    split; reflexivity.
  - right. exists u, row, d'.
    split; [reflexivity|]. split; [reflexivity|]. split; [discriminate|].
    split; [exact Hup | reflexivity].
Qed.






(** ** Ordering and pagination *)

Lemma insert_desc_perm {A} (key : A -> Z) (x : A) (l : list A) :
  Permutation (insert_desc key x l) (x :: l).
Proof.
  induction l as [|y r IH]; cbn; [reflexivity|].
  destruct (key y <? key x); [reflexivity|].
  rewrite IH. apply perm_swap.
Qed.

Lemma fold_insert_desc_perm {A} (key : A -> Z) (l acc : list A) :
  Permutation (fold_left (fun a x => insert_desc key x a) l acc) (l ++ acc).
Proof.
  revert acc. induction l as [|x l IH]; intros acc; cbn; [reflexivity|].
  rewrite IH, insert_desc_perm. symmetry. apply Permutation_middle.
Qed.

Lemma order_by_desc_perm {A} (key : A -> Z) (l : list A) :
  Permutation (order_by_desc key l) l.
Proof.
  unfold order_by_desc. rewrite fold_insert_desc_perm, app_nil_r. reflexivity.
Qed.

Lemma insert_desc_sorted {A} (key : A -> Z) (x : A) (l : list A) :
  StronglySorted (desc key) l -> StronglySorted (desc key) (insert_desc key x l).
Proof.
  induction l as [|y r IH]; intros Hs; cbn.
  - repeat constructor.
  - inversion Hs as [|? ? Hr Hall]; subst.
    destruct (Z.ltb_spec (key y) (key x)) as [Hlt|Hge].
    + constructor; [exact Hs|]. constructor; [unfold desc; lia|].
      eapply Forall_impl; [|exact Hall]. unfold desc. intros z Hz. lia.
    + constructor; [apply IH, Hr|].
      eapply Permutation_Forall; [symmetry; apply insert_desc_perm|].
      constructor; [unfold desc; lia | exact Hall].
Qed.

Lemma order_by_desc_sorted {A} (key : A -> Z) (l : list A) :
  StronglySorted (desc key) (order_by_desc key l).
Proof.
  unfold order_by_desc.
  assert (H : forall acc, StronglySorted (desc key) acc ->
    StronglySorted (desc key)
      (fold_left (fun a x => insert_desc key x a) l acc)).
  { induction l as [|x l IH]; intros acc Hacc; cbn; [exact Hacc|].
    apply IH, insert_desc_sorted, Hacc. }
  apply H. constructor.
Qed.

Lemma order_by_desc_In {A} (key : A -> Z) (l : list A) (x : A) :
  In x (order_by_desc key l) <-> In x l.
Proof.
  split; apply Permutation_in;
    [apply order_by_desc_perm | symmetry; apply order_by_desc_perm].
Qed.

Lemma limit_offset_In {A} (n m : Z) (l : list A) (x : A) :
  In x (limit_offset n m l) -> In x l.
Proof.
  unfold limit_offset. intros H.
  rewrite <- (firstn_skipn (Z.to_nat m) l). apply in_or_app. right.
  rewrite <- (firstn_skipn (Z.to_nat n) (skipn (Z.to_nat m) l)).
  apply in_or_app. left. exact H.
Qed.

(** ** The location list *)



(** ** The statistics overview *)













(** ** Dispatch in the locations router *)

Lemma two_segments_not_by_id (m : http_method) (p s1 s2 : string) :
  path_segments p = Some [s1; s2] ->
  dispatch locations_router m p <> Some GetLocation.
Proof.
  intros Hp. unfold dispatch, locations_router, find, route_matches.
  rewrite Hp. cbn [route_method route_path segments_match].
  rewrite !andb_false_r.
  destruct (method_eqb GET m && (segment_matches (Lit "stats") s1
             && (segment_matches (Lit "overview") s2 && true)));
    cbn; discriminate.
Qed.

(** C8 (amended).  A GET request whose path is the two segments
    stats and overview (in any letter case, with or without a trailing
    slash) is handed to the statistics handler, and no request with a
    two-segment path is ever handed to the by-id handler: the pattern of
    the by-id route takes exactly one segment.  The by-id route is
    registered second and the statistics route last, so the by-id pattern
    is tested, and fails, before the statistics route is reached. *)
Theorem stats_overview_dispatch :
  (forall p s1 s2,
     path_segments p = Some [s1; s2] ->
     lowercase s1 = "stats" -> lowercase s2 = "overview" ->
     dispatch locations_router GET p = Some StatsOverview)
  /\ dispatch locations_router GET "/stats/overview" = Some StatsOverview
  /\ (forall m p s1 s2,
        path_segments p = Some [s1; s2] ->
        dispatch locations_router m p <> Some GetLocation)
  /\ registered_before GetLocation StatsOverview locations_router
  /\ position GetLocation locations_router = Some 1%nat
  /\ position StatsOverview locations_router = Some 5%nat
  /\ tried locations_router GET "/stats/overview"
     = [ListLocations; GetLocation; CreateLocation; UpdateLocation;
        DeleteLocation; StatsOverview].
Proof.
  split; [|split; [reflexivity|split; [|split; [|repeat split]]]].
  - intros p s1 s2 Hp H1 H2.
    unfold dispatch, locations_router, find, route_matches.
    rewrite Hp. cbn [route_method route_path segments_match segment_matches
                     method_eqb andb].
    rewrite H1, H2, andb_false_r. reflexivity.
  - intros m p s1 s2. apply two_segments_not_by_id.
  - exists 1%nat, 5%nat. repeat split. lia.
Qed.

(** ** More on the identity middleware *)

Lemma verify_callback_not_required {B D} (req : request B)
  (res : js_error + payload) :
  verify_callback (D := D) req res <> Respond token_required.
Proof.
  unfold verify_callback. destruct res as [e|u]; [|discriminate].
  destruct (err_name e =? "TokenExpiredError")%string; [discriminate|].
  destruct (err_name e =? "JsonWebTokenError")%string; discriminate.
Qed.

Lemma nth_error_1_none {A} (l : list A) :
  nth_error l 1 = None <-> (List.length l <= 1)%nat.
Proof.
  destruct l as [|a [|b l]]; cbn; split; intros H; try reflexivity;
    try discriminate; try lia.
Qed.

(** X1.  The middleware answers 401 "Access token required", without
    verifying anything, exactly when the request has no Authorization
    header, when the header has no second space-separated piece, or when
    that piece is empty. *)
Theorem token_required_iff_no_token {B D} (env : process_env) (now : Z)
  (req : request B) :
  authenticateToken (D := D) env now req = Respond token_required
  <-> (headers_authorization req = None
       \/ (exists pieces, headers_authorization req = Some pieces
                          /\ (List.length pieces <= 1)%nat)
       \/ (exists scheme rest,
             headers_authorization req
             = Some (scheme :: Raw EmptyString :: rest))).
Proof.
  unfold authenticateToken, bearer_token. split.
  - destruct (headers_authorization req) as [pieces|]; [|auto].
    destruct (nth_error pieces 1) as [tok|] eqn:Hn.
    + destruct pieces as [|scheme [|tok' rest]]; try discriminate.
      cbn in Hn. injection Hn as ->.
      destruct tok as [s|t]; cbn [piece_truthy negb].
      * destruct (String.eqb_spec s EmptyString) as [->|Hne]; cbn [negb].
        { intros _. right. right. eauto. }
        { intros H. exfalso. exact (verify_callback_not_required _ _ H). }
      * intros H. exfalso. exact (verify_callback_not_required _ _ H).
    + intros _. right. left. exists pieces. split; [reflexivity|].
      apply nth_error_1_none, Hn.
  - intros [-> | [(pieces & -> & Hlen) | (scheme & rest & ->)]].
    + reflexivity.
    + apply nth_error_1_none in Hlen. rewrite Hlen. reflexivity.
    + reflexivity.
Qed.


Lemma authenticateToken_next_user {B D} env now (req req' : request B) :
  authenticateToken (D := D) env now req = Next req' ->
  exists u, req' = set_user req (Some u).
Proof.
  unfold authenticateToken, verify_callback.
  destruct (bearer_token req) as [tok|]; [|discriminate].
  destruct (negb (piece_truthy tok)); [discriminate|].
  destruct (jwt_verify tok (secret_of env) now) as [e|u].
  - destruct (err_name e =? "TokenExpiredError")%string; [discriminate|].
    destruct (err_name e =? "JsonWebTokenError")%string; discriminate.
  - intros [= <-]. eauto.
Qed.

(** X3.  The admin middleware lets through exactly the requests that the
    token middleware lets through, with the same identity, and rejects the
    others with the same answer: it adds no privilege check, and its own
    401 "Authentication required" answer is never given. *)
Theorem authenticateAdmin_is_authenticateToken {B D} (env : process_env)
  (now : Z) (req : request B) :
  authenticateAdmin (D := D) env now req = authenticateToken env now req
  /\ authenticateAdmin (D := D) env now req
     <> Respond admin_authentication_required.
Proof.
  unfold authenticateAdmin.
  destruct (authenticateToken (D := D) env now req) as [r|req'] eqn:Ha.
  - split; [reflexivity|]. intros [= ->].
    revert Ha. unfold authenticateToken, verify_callback.
    destruct (bearer_token req) as [tok|]; [|discriminate].
    destruct (negb (piece_truthy tok)); [discriminate|].
    destruct (jwt_verify tok (secret_of env) now) as [e|u]; [|discriminate].
    destruct (err_name e =? "TokenExpiredError")%string; [discriminate|].
    destruct (err_name e =? "JsonWebTokenError")%string; discriminate.
  - destruct (authenticateToken_next_user env now req req' Ha) as (u & ->).
    cbn. split; [reflexivity | discriminate].
Qed.

(** ** Accounts: registration, login, profile, password, subscription *)

Lemma register_inv env now salt d (req : request RegisterBody.t) :
  (status (fst (register env now salt d req)) <> 201
   /\ snd (register env now salt d req) = d
   /\ data (fst (register env now salt d req)) = None)
  \/ (exists u,
        validateRegistration (body req) = []
        /\ select_users_by_email d
             (normalizeEmail (toStr (RegisterBody.email (body req)))) = []
        /\ u = {| User.id := users_id_seq d;
                  User.email :=
                    normalizeEmail (toStr (RegisterBody.email (body req)));
                  User.password_hash :=
                    bcrypt_hash 12 salt
                      (toStr (RegisterBody.password (body req)));
                  User.first_name :=
                    default EmptyString
                      (option_map trim (RegisterBody.first_name (body req)));
                  User.last_name :=
                    default EmptyString
                      (option_map trim (RegisterBody.last_name (body req)));
                  User.is_premium := false;
                  User.subscription_type := "free";
                  User.created_at := now; User.updated_at := now |}
        /\ register env now salt d req
           = (ok_with 201 (Some "User registered successfully")
                (Some {| ad_user := user_view u;
                         ad_token := generateToken env (claims_of_user u) now |}),
              {| users := users d ++ [u]; users_id_seq := users_id_seq d + 1;
                 locations := locations d;
                 locations_id_seq := locations_id_seq d;
                 user_favorites := user_favorites d;
                 user_favorites_id_seq := user_favorites_id_seq d;
                 user_progress := user_progress d;
                 user_progress_id_seq := user_progress_id_seq d |})).
Proof.
  unfold register.
  destruct (validateRegistration (body req)) eqn:Hv.
  2:{ left. repeat split. discriminate. }
  cbn [sanitizeRegistration RegisterBody.email RegisterBody.password
       RegisterBody.first_name RegisterBody.last_name toStr].
  destruct (select_users_by_email d
              (normalizeEmail (toStr (RegisterBody.email (body req)))))
    eqn:Hsel.
  2:{ left. repeat split. discriminate. }
  unfold insert_user. rewrite Hsel.
  right. eexists. split; [reflexivity|]. split; [reflexivity|].
  split; reflexivity.
Qed.


Lemma existsb_false {A} (f : A -> bool) (l : list A) :
  existsb f l = false <-> forall x, In x l -> f x = false.
Proof.
  induction l as [|a l IH]; cbn.
  - split; [intros _ x [] | reflexivity].
  - rewrite orb_false_iff, IH. split.
    + intros [Ha Hl] x [<-|Hx]; auto.
    + intros H. split; [apply H; auto | intros x Hx; apply H; auto].
Qed.

Lemma select_user_by_id_In (d : db) (uid : Z) (u : User.row) :
  In u (select_user_by_id d uid) <-> In u (users d) /\ User.id u = uid.
Proof.
  unfold select_user_by_id. rewrite filter_In, Z.eqb_eq. reflexivity.
Qed.

(** What a successful update of the caller's row leaves behind. *)
Lemma update_users_stored (d d' : db) (uid : Z) (upd : User.row -> User.row)
  (rows : list User.row) :
  update_users d uid upd = inr (rows, d') ->
  rows = map upd (select_user_by_id d uid)
  /\ users d'
     = map (fun u => if User.id u =? uid then upd u else u) (users d)
  /\ users_id_seq d' = users_id_seq d
  /\ locations d' = locations d
  /\ locations_id_seq d' = locations_id_seq d
  /\ user_favorites d' = user_favorites d
  /\ user_favorites_id_seq d' = user_favorites_id_seq d
  /\ user_progress d' = user_progress d
  /\ user_progress_id_seq d' = user_progress_id_seq d
  /\ (forall u, In u (users d) -> User.id u = uid ->
        User.email (upd u) = User.email u
        \/ select_other_users_by_email d (User.email (upd u)) uid = []).
Proof.
  unfold update_users.
  destruct (existsb _ (select_user_by_id d uid)) eqn:Hclash; [discriminate|].
  intros [= <- <-]. cbn. repeat split.
  intros u Hin Hid.
  assert (Hsel : In u (select_user_by_id d uid))
    by (apply select_user_by_id_In; auto).
  pose proof (proj1 (existsb_false _ _) Hclash u Hsel) as Hu.
  cbn beta in Hu. apply andb_false_iff in Hu. destruct Hu as [Hu|Hu].
  - left. apply negb_false_iff, String.eqb_eq in Hu. exact Hu.
  - right. destruct (select_other_users_by_email d (User.email (upd u)) uid);
      [reflexivity | discriminate].
Qed.

Lemma update_users_same_email (d : db) (uid : Z) (upd : User.row -> User.row) :
  (forall u, User.email (upd u) = User.email u) ->
  update_users d uid upd
  = inr (map upd (select_user_by_id d uid),
         with_users d
           (map (fun u => if User.id u =? uid then upd u else u) (users d))).
Proof.
  intros Hsame. unfold update_users.
  replace (existsb _ (select_user_by_id d uid)) with false; [reflexivity|].
  symmetry. apply existsb_false. intros u _. cbn beta.
  rewrite Hsame, String.eqb_refl. reflexivity.
Qed.

Lemma map_update_ids (uid : Z) (upd : User.row -> User.row)
  (l : list User.row) :
  (forall u, User.id (upd u) = User.id u) ->
  map User.id (map (fun u => if User.id u =? uid then upd u else u) l)
  = map User.id l.
Proof.
  intros Hid. rewrite map_map. apply map_ext. intros u.
  destruct (User.id u =? uid); auto.
Qed.

Lemma map_update_emails_nodup (uid : Z) (upd : User.row -> User.row)
  (l : list User.row) :
  NoDup (map User.id l) ->
  NoDup (map User.email l) ->
  (forall u, In u l -> User.id u = uid ->
     User.email (upd u) = User.email u
     \/ forall v, In v l -> User.id v <> uid ->
                  User.email v <> User.email (upd u)) ->
  NoDup (map User.email
           (map (fun u => if User.id u =? uid then upd u else u) l)).
Proof.
  induction l as [|a l IH]; intros Hids Hemails Hok; cbn; [constructor|].
  cbn in Hids, Hemails.
  apply NoDup_cons_iff in Hids. destruct Hids as [Hida Hids].
  apply NoDup_cons_iff in Hemails. destruct Hemails as [Hema Hemails].
  destruct (Z.eqb_spec (User.id a) uid) as [Ha|Ha].
  - (* the updated row; no later row has this id *)
    assert (Hrest : map (fun u => if User.id u =? uid then upd u else u) l = l).
    { rewrite <- (map_id l) at 2. apply map_ext_in. intros v Hv.
      destruct (Z.eqb_spec (User.id v) uid) as [Hv'|]; [|reflexivity].
      exfalso. apply Hida. rewrite Ha, <- Hv'. apply in_map, Hv. }
    rewrite Hrest. constructor; [|exact Hemails].
    destruct (Hok a (or_introl eq_refl) Ha) as [Hsame|Hfree].
    + rewrite Hsame. exact Hema.
    + intros Hin. apply in_map_iff in Hin. destruct Hin as (v & Hv & Hvin).
      apply (Hfree v (or_intror Hvin)); [|exact Hv].
      intros Hv'. apply Hida. rewrite Ha, <- Hv'. apply in_map, Hvin.
  - constructor.
    + intros Hin. rewrite map_map in Hin. apply in_map_iff in Hin.
      destruct Hin as (v & Hv & Hvin).
      destruct (Z.eqb_spec (User.id v) uid) as [Hv'|Hv'].
      * destruct (Hok v (or_intror Hvin) Hv') as [Hsame|Hfree].
        { apply Hema. rewrite <- Hv, Hsame. apply in_map, Hvin. }
        { apply (Hfree a (or_introl eq_refl) Ha). symmetry. exact Hv. }
      * apply Hema. rewrite <- Hv. apply in_map, Hvin.
    + apply IH; [exact Hids | exact Hemails |].
      intros u Hu Hid. destruct (Hok u (or_intror Hu) Hid) as [Hsame|Hfree];
        [left; exact Hsame | right].
      intros v Hv. apply Hfree. right. exact Hv.
Qed.

Lemma update_users_consistent (d d' : db) (uid : Z)
  (upd : User.row -> User.row) (rows : list User.row) :
  (forall u, User.id (upd u) = User.id u) ->
  users_unique d -> users_keyed d ->
  update_users d uid upd = inr (rows, d') ->
  users_unique d' /\ users_keyed d'.
Proof.
  intros Hid Hu [Hk Hseq] Hup.
  destruct (update_users_stored _ _ _ _ _ Hup)
    as (_ & Hus & Hs & _ & _ & _ & _ & _ & _ & Hfree).
  unfold users_unique, users_keyed. rewrite Hus, Hs.
  split; [|split].
  - apply map_update_emails_nodup; [exact Hk | exact Hu |].
    intros u Hin Hiu. destruct (Hfree u Hin Hiu) as [Hsame|Hnone];
      [left; exact Hsame | right].
    intros v Hv Hvid Heq.
    assert (Hsel : In v (select_other_users_by_email d
                           (User.email (upd u)) uid)).
    { unfold select_other_users_by_email. apply filter_In.
      split; [exact Hv|]. rewrite Heq, String.eqb_refl. cbn.
      apply negb_true_iff, Z.eqb_neq, Hvid. }
    rewrite Hnone in Hsel. exact Hsel.
  - rewrite (map_update_ids uid upd (users d) Hid). exact Hk.
  - apply Forall_map. eapply Forall_impl; [|exact Hseq].
    intros u Hlt. cbn beta. destruct (User.id u =? uid);
      [rewrite Hid|]; exact Hlt.
Qed.

Lemma select_users_by_email_none (d : db) (e : string) :
  select_users_by_email d e = [] -> ~ In e (map User.email (users d)).
Proof.
  unfold select_users_by_email. intros Hnone Hin.
  apply in_map_iff in Hin. destruct Hin as (u & He & Hu).
  assert (Hf : In u (filter (fun u => (User.email u =? e)%string) (users d))).
  { apply filter_In. split; [exact Hu|]. apply String.eqb_eq, He. }
  rewrite Hnone in Hf. exact Hf.
Qed.

Lemma NoDup_snoc {A} (l : list A) (a : A) :
  NoDup l -> ~ In a l -> NoDup (l ++ [a]).
Proof.
  intros Hl Ha. apply NoDup_app; [exact Hl | repeat constructor; intros [] |].
  intros x Hx [<-|[]]. exact (Ha Hx).
Qed.

Lemma register_consistent env now salt d (req : request RegisterBody.t) :
  users_unique d -> users_keyed d ->
  users_unique (snd (register env now salt d req))
  /\ users_keyed (snd (register env now salt d req)).
Proof.
  intros Hu [Hk Hseq].
  destruct (register_inv env now salt d req)
    as [(_ & -> & _) | (u & _ & Hfresh & Hrow & ->)].
  - split; [exact Hu | split; [exact Hk | exact Hseq]].
  - cbn [snd]. unfold users_unique, users_keyed; cbn [users users_id_seq].
    rewrite !map_app. cbn [map]. split; [|split].
    + apply NoDup_snoc; [exact Hu|]. rewrite Hrow. cbn [User.email].
      apply select_users_by_email_none, Hfresh.
    + apply NoDup_snoc; [exact Hk|]. rewrite Hrow. cbn [User.id].
      intros Hin. apply in_map_iff in Hin. destruct Hin as (v & Hv & Hvin).
      rewrite Forall_forall in Hseq. specialize (Hseq v Hvin). lia.
    + apply Forall_app. split.
      * eapply Forall_impl; [|exact Hseq].
        intros v Hlt. cbn beta in Hlt |- *. lia.
      * constructor; [|constructor]. rewrite Hrow. cbn [User.id]. lia.
Qed.

Lemma update_profile_inv now d (req : request ProfileBody.t) :
  snd (update_profile now d req) = d
  \/ exists uid rows,
       update_users d uid (set_profile (sanitizeProfile (body req)) now)
       = inr (rows, snd (update_profile now d req)).
Proof.
  unfold update_profile.
  destruct (validateProfile (body req)); [|left; reflexivity].
  set (b := sanitizeProfile (body req)).
  match goal with
  | |- context [if no_updates b then ?x else ?y] =>
      set (w := if no_updates b then x else y)
  end.
  assert (Hw : snd w = d
               \/ exists uid rows, update_users d uid (set_profile b now)
                                   = inr (rows, snd w)).
  { subst w. destruct (no_updates b); [left; reflexivity|].
    destruct (req_user_id req) as [e|uid]; [left; reflexivity|].
    destruct (update_users d uid (set_profile b now)) as [e|[rows d']] eqn:Hup;
      [left; reflexivity|].
    right. exists uid, rows. exact Hup. }
  clearbody w.
  destruct (ProfileBody.email b) as [email|]; [|exact Hw].
  destruct (req_user_id req) as [e|uid]; [left; reflexivity|].
  destruct (select_other_users_by_email d email uid);
    [exact Hw | left; reflexivity].
Qed.

Lemma change_password_inv now salt d (req : request PasswordBody.t) :
  snd (change_password now salt d req) = d
  \/ exists uid h rows,
       update_users d uid (set_password h now)
       = inr (rows, snd (change_password now salt d req)).
Proof.
  unfold change_password.
  destruct (validate_password_change (body req)); [|left; reflexivity].
  destruct (req_user_id req) as [e|uid]; [left; reflexivity|].
  destruct (select_user_by_id d uid) as [|u us]; [left; reflexivity|].
  destruct (negb (bcrypt_compare _ _)); [left; reflexivity|].
  match goal with
  | |- context [update_users d uid (set_password ?h now)] =>
      destruct (update_users d uid (set_password h now))
        as [e|[rows d']] eqn:Hup; [left; reflexivity|];
      right; exists uid, h, rows; exact Hup
  end.
Qed.

Lemma update_subscription_inv now d (req : request SubscriptionBody.t) :
  snd (update_subscription now d req) = d
  \/ exists uid kind premium rows,
       update_users d uid (set_subscription kind premium now)
       = inr (rows, snd (update_subscription now d req)).
Proof.
  unfold update_subscription.
  destruct (validate_subscription (body req)); [|left; reflexivity].
  destruct (req_user_id req) as [e|uid]; [left; reflexivity|].
  match goal with
  | |- context [update_users d uid (set_subscription ?k ?p now)] =>
      destruct (update_users d uid (set_subscription k p now))
        as [e|[rows d']] eqn:Hup; [left; reflexivity|];
      right; exists uid, k, p, rows; exact Hup
  end.
Qed.

(** X5.  The handlers that write the [users] table keep it consistent:
    from a store whose e-mails are pairwise different and whose ids are
    pairwise different and below the sequence, registration, profile
    update, password change and subscription update each lead to a store
    with the same properties, whatever the request and its answer. *)
Theorem account_writes_keep_users_consistent (env : process_env)
  (now : Z) (salt : string) (d : db) :
  users_unique d -> users_keyed d ->
  (forall req, users_unique (snd (register env now salt d req))
               /\ users_keyed (snd (register env now salt d req)))
  /\ (forall req, users_unique (snd (update_profile now d req))
                  /\ users_keyed (snd (update_profile now d req)))
  /\ (forall req, users_unique (snd (change_password now salt d req))
                  /\ users_keyed (snd (change_password now salt d req)))
  /\ (forall req, users_unique (snd (update_subscription now d req))
                  /\ users_keyed (snd (update_subscription now d req))).
Proof.
  intros Hu Hk. split; [|split; [|split]]; intros req.
  - apply register_consistent; assumption.
  - destruct (update_profile_inv now d req) as [->|(uid & rows & Hup)];
      [auto|].
    refine (update_users_consistent d _ uid _ rows _ Hu Hk Hup); reflexivity.
  - destruct (change_password_inv now salt d req)
      as [->|(uid & h & rows & Hup)]; [auto|].
    refine (update_users_consistent d _ uid _ rows _ Hu Hk Hup); reflexivity.
  - destruct (update_subscription_inv now d req)
      as [->|(uid & k & p & rows & Hup)]; [auto|].
    refine (update_users_consistent d _ uid _ rows _ Hu Hk Hup); reflexivity.
Qed.

Lemma check_nil (ok : bool) (path msg : string) :
  check ok path msg = [] <-> ok = true.
Proof. unfold check. destruct ok; split; congruence. Qed.

Lemma select_user_by_id_fresh (d : db) :
  users_keyed d -> select_user_by_id d (users_id_seq d) = [].
Proof.
  intros [_ Hseq]. unfold select_user_by_id.
  induction (users d) as [|u us IH]; cbn; [reflexivity|].
  apply Forall_cons_iff in Hseq. destruct Hseq as [Hu Hus].
  destruct (Z.eqb_spec (User.id u) (users_id_seq d)); [lia|]. auto.
Qed.

(** X6.  The token handed out by a successful registration, presented
    within seven days, opens GET /me on the store that the registration
    left: the answer is 200 with the profile of the new user, whose id and
    e-mail are those of the registration answer, the e-mail being the
    normalized one, with is_premium false and subscription type free. *)
Theorem registered_token_reads_own_profile {B} (env : process_env)
  (now t : Z) (salt : string) (d : db) (reg : request RegisterBody.t)
  (ad : auth_data) (req : request B) :
  users_keyed d ->
  data (fst (register env now salt d reg)) = Some ad ->
  bearer_token req = Some (Compact (ad_token ad)) ->
  clock_seconds t < clock_seconds now + 604800 ->
  let d' := snd (register env now salt d reg) in
  exists p,
    with_auth env t d' req (get_me d')
    = (ok_with 200 None (Some {| ud_user := Some p |}), d')
    /\ ProfileView.id p = UserView.id (ad_user ad)
    /\ ProfileView.email p = UserView.email (ad_user ad)
    /\ ProfileView.email p
       = normalizeEmail (toStr (RegisterBody.email (body reg)))
    /\ ProfileView.is_premium p = false
    /\ ProfileView.subscription_type p = "free".
Proof.
  intros Hk Hdata Hb Ht d'. subst d'.
  destruct (register_inv env now salt d reg)
    as [(_ & _ & Hnone) | (u & _ & _ & Hu & Heq)].
  { rewrite Hnone in Hdata. discriminate. }
  rewrite Heq in Hdata |- *. cbn [fst snd data ok_with] in Hdata |- *.
  injection Hdata as <-. cbn [ad_token ad_user] in Hb |- *.
  rewrite (with_auth_next env t _ req _ _ _ Hb eq_refl
             (jwt_verify_sign _ _ _ _ Ht)).
  unfold get_me, req_user_id. cbn [user set_user generateToken jwt_sign
    jwt_payload p_claims claims_of_user c_id].
  unfold select_user_by_id. cbn [users]. rewrite filter_app.
  pose proof (select_user_by_id_fresh d Hk) as Hfresh.
  unfold select_user_by_id in Hfresh.
  replace (User.id u) with (users_id_seq d) by (rewrite Hu; reflexivity).
  rewrite Hfresh. cbn [app filter].
  replace (User.id u =? users_id_seq d) with true
    by (rewrite Hu; cbn; symmetry; apply Z.eqb_refl).
  exists (profile_view u). split; [reflexivity|].
  rewrite Hu. cbn. repeat split.
Qed.

(** X7.  After a registration answered 201, a login with the same e-mail
    and password, on the store that the registration left, is answered 200
    for the same user, provided bcrypt accepts the password against the
    hash it made of it; the login leaves the store as it is. *)
Theorem registered_user_can_login (env : process_env) (now t : Z)
  (salt : string) (d : db) (reg : request RegisterBody.t)
  (lr : request LoginBody.t) :
  status (fst (register env now salt d reg)) = 201 ->
  LoginBody.email (body lr) = RegisterBody.email (body reg) ->
  LoginBody.password (body lr) = RegisterBody.password (body reg) ->
  bcrypt_compare (toStr (RegisterBody.password (body reg)))
    (bcrypt_hash 12 salt (toStr (RegisterBody.password (body reg)))) = true ->
  let d' := snd (register env now salt d reg) in
  exists u,
    data (fst (register env now salt d reg))
    = Some {| ad_user := user_view u;
              ad_token := generateToken env (claims_of_user u) now |}
    /\ login env t d' lr
       = (ok_with 200 (Some "Login successful")
            (Some {| ad_user := user_view u;
                     ad_token := generateToken env (claims_of_user u) t |}),
          d').
Proof.
  intros Hst Hemail Hpw Hbcrypt d'. subst d'.
  destruct (register_inv env now salt d reg)
    as [(Hbad & _) | (u & Hv & Hfresh & Hu & Heq)]; [contradiction|].
  rewrite Heq. cbn [fst snd data ok_with]. exists u. split; [reflexivity|].
  unfold validateRegistration in Hv.
  apply app_eq_nil in Hv. destruct Hv as [Hmail Hv].
  apply app_eq_nil in Hv. destruct Hv as [Hlen _].
  apply check_nil in Hmail, Hlen.
  unfold login, validateLogin. rewrite Hemail, Hpw, Hmail. cbn [check app].
  assert (Hne : negb (toStr (RegisterBody.password (body reg)) =? EmptyString)%string
                = true).
  { destruct (toStr (RegisterBody.password (body reg))) eqn:E;
      [|reflexivity].
    unfold isLength, str_length in Hlen. cbn in Hlen. discriminate. }
  rewrite Hne. cbn [check].
  unfold select_users_by_email. cbn [users]. rewrite filter_app.
  unfold select_users_by_email in Hfresh. rewrite Hfresh. cbn [app filter].
  replace (User.email u =? _)%string with true
    by (rewrite Hu; cbn; symmetry; apply String.eqb_refl).
  replace (User.password_hash u)
    with (bcrypt_hash 12 salt (toStr (RegisterBody.password (body reg))))
    by (rewrite Hu; reflexivity).
  rewrite Hbcrypt. reflexivity.
Qed.

(** X8.  A login never writes to the store, and it is answered 200 only
    for a stored user whose e-mail is the normalized submitted one and
    whose stored hash bcrypt accepts for the submitted password; the
    answer then carries that user's public fields and a token for that
    user's claims.  Every other answer is 400 or 401 and carries no data. *)
Theorem login_only_with_verified_password (env : process_env) (now : Z)
  (d : db) (req : request LoginBody.t) :
  let r := fst (login env now d req) in
  snd (login env now d req) = d
  /\ (status r = 200 \/ ((status r = 400 \/ status r = 401) /\ data r = None))
  /\ (status r = 200 ->
      exists u,
        In u (users d)
        /\ User.email u
           = normalizeEmail (toStr (LoginBody.email (body req)))
        /\ bcrypt_compare (toStr (LoginBody.password (body req)))
                          (User.password_hash u) = true
        /\ data r = Some {| ad_user := user_view u;
                            ad_token :=
                              generateToken env (claims_of_user u) now |}).
Proof.
  intros r. subst r. unfold login.
  destruct (validateLogin (body req)).
  2:{ cbn. split; [reflexivity|]. split; [auto | discriminate]. }
  destruct (select_users_by_email d _) as [|u us] eqn:Hsel.
  { cbn. split; [reflexivity|]. split; [auto | discriminate]. }
  destruct (bcrypt_compare _ (User.password_hash u)) eqn:Hpw; cbn [negb].
  2:{ cbn. split; [reflexivity|]. split; [auto | discriminate]. }
  cbn [fst snd status data ok_with]. split; [reflexivity|].
  split; [auto|]. intros _. exists u.
  assert (Hin : In u (select_users_by_email d
            (normalizeEmail (toStr (LoginBody.email (body req))))))
    by (rewrite Hsel; left; reflexivity).
  apply filter_In in Hin. destruct Hin as [Hin He].
  apply String.eqb_eq in He. auto.
Qed.

Lemma select_user_by_id_updated (d : db) (uid : Z)
  (upd : User.row -> User.row) :
  (forall u, User.id (upd u) = User.id u) ->
  filter (fun u => User.id u =? uid)
         (map (fun u => if User.id u =? uid then upd u else u) (users d))
  = map upd (select_user_by_id d uid).
Proof.
  intros Hid. unfold select_user_by_id.
  induction (users d) as [|u us IH]; cbn; [reflexivity|].
  destruct (User.id u =? uid) eqn:E; cbn.
  - rewrite Hid, E. cbn. f_equal. exact IH.
  - rewrite E. exact IH.
Qed.

Lemma updated_others_kept (uid : Z) (upd : User.row -> User.row)
  (l : list User.row) (v : User.row) :
  (forall u, User.id (upd u) = User.id u) ->
  User.id v <> uid ->
  (In v (map (fun u => if User.id u =? uid then upd u else u) l) <-> In v l).
Proof.
  intros Hid Hv. rewrite in_map_iff. split.
  - intros (u & Hu & Hin). destruct (Z.eqb_spec (User.id u) uid) as [E|E].
    + exfalso. apply Hv. rewrite <- Hu, Hid. exact E.
    + subst v. exact Hin.
  - intros Hin. exists v. split; [|exact Hin].
    destruct (Z.eqb_spec (User.id v) uid); [contradiction | reflexivity].
Qed.

Lemma with_users_same (d : db) : with_users d (users d) = d.
Proof. destruct d; reflexivity. Qed.

Lemma map_update_absent (uid : Z) (upd : User.row -> User.row)
  (l : list User.row) :
  filter (fun u => User.id u =? uid) l = [] ->
  map (fun u => if User.id u =? uid then upd u else u) l = l.
Proof.
  induction l as [|u us IH]; cbn; [reflexivity|].
  destruct (User.id u =? uid); [discriminate|].
  intros H. f_equal. auto.
Qed.

(** X9.  A subscription update with a listed subscription type and a
    boolean is answered 200 and stores both values as they were sent,
    whatever their combination: afterwards every row of the caller has
    that subscription type, that is_premium and the time of the update,
    the rows of other users are the same as before, the other tables are
    untouched, and GET /me for the caller shows both values. *)
Theorem subscription_stored_verbatim (now : Z) (d : db)
  (req : request SubscriptionBody.t) (p : payload) (kind : string)
  (premium : bool) :
  user req = Some p ->
  SubscriptionBody.subscription_type (body req) = Some kind ->
  SubscriptionBody.is_premium (body req) = Some premium ->
  In kind ["free"; "premium"; "pro"] ->
  let uid := c_id (p_claims p) in
  let r := fst (update_subscription now d req) in
  let d' := snd (update_subscription now d req) in
  status r = 200
  /\ data r = Some {| ud_user :=
                       option_map subscription_view
                         (hd_error (map (set_subscription kind premium now)
                                        (select_user_by_id d uid))) |}
  /\ (forall u, In u (select_user_by_id d' uid) ->
        User.subscription_type u = kind /\ User.is_premium u = premium
        /\ User.updated_at u = now)
  /\ (forall v, User.id v <> uid -> (In v (users d') <-> In v (users d)))
  /\ locations d' = locations d
  /\ user_favorites d' = user_favorites d
  /\ user_progress d' = user_progress d
  /\ (select_user_by_id d uid <> [] ->
      exists view,
        fst (get_me d' req) = ok_with 200 None (Some {| ud_user := Some view |})
        /\ ProfileView.subscription_type view = kind
        /\ ProfileView.is_premium view = premium).
Proof.
  intros Hu Hkind Hprem Hin uid r d'. subst r d'.
  unfold update_subscription, validate_subscription, req_user_id.
  rewrite Hkind, Hprem, Hu. cbn [toStr default].
  replace (isIn kind ["free"; "premium"; "pro"]) with true.
  2:{ symmetry. unfold isIn. apply existsb_exists. exists kind.
      split; [exact Hin | apply String.eqb_refl]. }
  replace (isBoolean_bool premium) with true by (destruct premium; reflexivity).
  cbn [check app]. fold uid.
  rewrite (update_users_same_email d uid (set_subscription kind premium now))
    by reflexivity.
  cbn [fst snd status data ok_with with_users users locations user_favorites
       user_progress].
  split; [reflexivity|]. split; [reflexivity|].
  assert (Hsel : select_user_by_id
                   (with_users d
                      (map (fun u => if User.id u =? uid
                                     then set_subscription kind premium now u
                                     else u) (users d))) uid
                 = map (set_subscription kind premium now)
                       (select_user_by_id d uid)).
  { unfold select_user_by_id at 1. cbn [with_users users].
    apply select_user_by_id_updated. reflexivity. }
  split.
  { intros u Hui. rewrite Hsel in Hui.
    apply in_map_iff in Hui. destruct Hui as (u0 & <- & _). cbn. auto. }
  split; [intros v Hv; apply updated_others_kept; [reflexivity | exact Hv]|].
  split; [reflexivity|]. split; [reflexivity|]. split; [reflexivity|].
  intros Hsome. unfold get_me, req_user_id. rewrite Hu. fold uid.
  rewrite Hsel.
  destruct (select_user_by_id d uid) as [|u0 us]; [contradiction|].
  cbn [map fst]. eexists. split; [reflexivity|]. cbn. auto.
Qed.

(** X10.  A subscription update whose subscription type is absent or not
    one of free, premium and pro, or whose is_premium is absent, is
    answered 400 and changes nothing.  A valid update by a caller who has
    no user row is still answered 200, with an undefined user, and changes
    nothing. *)
Theorem subscription_update_edges (now : Z) (d : db)
  (req : request SubscriptionBody.t) :
  ((isIn (toStr (SubscriptionBody.subscription_type (body req)))
         ["free"; "premium"; "pro"] = false
    \/ SubscriptionBody.is_premium (body req) = None) ->
   status (fst (update_subscription now d req)) = 400
   /\ error (fst (update_subscription now d req)) = Some "Validation failed"
   /\ snd (update_subscription now d req) = d)
  /\ (forall p,
        user req = Some p ->
        validate_subscription (body req) = [] ->
        select_user_by_id d (c_id (p_claims p)) = [] ->
        update_subscription now d req
        = (ok_with 200 (Some "Subscription updated successfully")
             (Some {| ud_user := None |}), d)).
Proof.
  split.
  - intros Hbad. unfold update_subscription.
    destruct (validate_subscription (body req)) eqn:Hv.
    + exfalso. unfold validate_subscription in Hv.
      apply app_eq_nil in Hv. destruct Hv as [Hk Hp].
      apply check_nil in Hk, Hp. destruct Hbad as [Hbad|Hbad].
      * congruence.
      * rewrite Hbad in Hp. discriminate.
    + repeat split.
  - intros p Hu Hv Hnone. unfold update_subscription, req_user_id.
    rewrite Hv, Hu.
    rewrite update_users_same_email by reflexivity.
    rewrite Hnone. cbn [map hd_error option_map].
    unfold select_user_by_id in Hnone.
    rewrite (map_update_absent _ _ _ Hnone), with_users_same. reflexivity.
Qed.

Lemma no_updates_sanitize (b : ProfileBody.t) :
  no_updates (sanitizeProfile b) = no_updates b.
Proof.
  unfold no_updates, sanitizeProfile; cbn.
  destruct (ProfileBody.first_name b), (ProfileBody.last_name b),
    (ProfileBody.email b); reflexivity.
Qed.

(** X11.  A profile update that supplies none of first_name, last_name
    and email is answered 400 "No updates provided".  A valid profile
    update whose normalized e-mail is held by a user with another id is
    answered 409 "Email already taken", also when names are supplied with
    it.  Neither changes the store. *)
Theorem profile_update_rejections (now : Z) (d : db)
  (req : request ProfileBody.t) :
  (no_updates (body req) = true ->
   update_profile now d req = (fail_with 400 "No updates provided" None, d))
  /\ (forall p e,
        user req = Some p ->
        validateProfile (body req) = [] ->
        ProfileBody.email (body req) = Some e ->
        select_other_users_by_email d (normalizeEmail e) (c_id (p_claims p))
        <> [] ->
        update_profile now d req
        = (fail_with 409 "Email already taken"
             (Some "Another account is already using this email"), d)).
Proof.
  split.
  - intros Hnone. unfold update_profile.
    assert (Hb : ProfileBody.first_name (body req) = None
                 /\ ProfileBody.last_name (body req) = None
                 /\ ProfileBody.email (body req) = None).
    { unfold no_updates in Hnone.
      destruct (ProfileBody.first_name (body req)),
        (ProfileBody.last_name (body req)), (ProfileBody.email (body req));
        try discriminate; auto. }
    destruct Hb as (Hf & Hl & He).
    unfold validateProfile, validate_name. rewrite Hf, Hl, He. cbn [optional app].
    rewrite no_updates_sanitize, Hnone.
    unfold sanitizeProfile. rewrite He. reflexivity.
  - intros p e Hu Hv He Htaken. unfold update_profile, req_user_id.
    rewrite Hv, Hu. cbn [sanitizeProfile ProfileBody.email].
    rewrite He. cbn [option_map].
    destruct (select_other_users_by_email d (normalizeEmail e)
                (c_id (p_claims p))); [contradiction | reflexivity].
Qed.

(** X12.  A valid profile update that supplies at least one field, by a
    caller whose normalized new e-mail (if any) no other user holds, is
    answered 200.  Each row of the caller keeps its id, password hash,
    subscription fields and creation time, takes the trimmed names and the
    normalized e-mail that were supplied and keeps the ones that were not,
    and gets the time of the update; the rows of other users and the other
    tables are as before. *)
Theorem profile_update_changes_supplied_fields (now : Z) (d : db)
  (req : request ProfileBody.t) (p : payload) :
  user req = Some p ->
  validateProfile (body req) = [] ->
  no_updates (body req) = false ->
  let uid := c_id (p_claims p) in
  (forall e, ProfileBody.email (body req) = Some e ->
             select_other_users_by_email d (normalizeEmail e) uid = []) ->
  let b := sanitizeProfile (body req) in
  let r := fst (update_profile now d req) in
  let d' := snd (update_profile now d req) in
  r = ok_with 200 (Some "Profile updated successfully")
        (Some {| ud_user :=
                   option_map profile_view
                     (hd_error (map (set_profile b now)
                                    (select_user_by_id d uid))) |})
  /\ select_user_by_id d' uid
     = map (set_profile b now) (select_user_by_id d uid)
  /\ (forall u, User.id (set_profile b now u) = User.id u
        /\ User.password_hash (set_profile b now u) = User.password_hash u
        /\ User.is_premium (set_profile b now u) = User.is_premium u
        /\ User.subscription_type (set_profile b now u)
           = User.subscription_type u
        /\ User.created_at (set_profile b now u) = User.created_at u
        /\ User.updated_at (set_profile b now u) = now
        /\ User.first_name (set_profile b now u)
           = default (User.first_name u)
               (option_map trim (ProfileBody.first_name (body req)))
        /\ User.last_name (set_profile b now u)
           = default (User.last_name u)
               (option_map trim (ProfileBody.last_name (body req)))
        /\ User.email (set_profile b now u)
           = default (User.email u)
               (option_map normalizeEmail (ProfileBody.email (body req))))
  /\ (forall v, User.id v <> uid -> (In v (users d') <-> In v (users d)))
  /\ locations d' = locations d
  /\ user_favorites d' = user_favorites d
  /\ user_progress d' = user_progress d.
Proof.
  intros Hu Hv Hsome uid Hfree b r d'. subst r d'.
  assert (Hup : update_users d uid (set_profile b now)
                = inr (map (set_profile b now) (select_user_by_id d uid),
                       with_users d
                         (map (fun u => if User.id u =? uid
                                        then set_profile b now u else u)
                              (users d)))).
  { unfold update_users.
    match goal with
    | |- (if existsb ?f ?l then _ else _) = _ =>
        replace (existsb f l) with false; [reflexivity|]
    end.
    symmetry. apply existsb_false. intros u _. cbn beta.
    unfold set_profile. cbn [User.email]. subst b.
    cbn [sanitizeProfile ProfileBody.email].
    destruct (ProfileBody.email (body req)) as [e|] eqn:He;
      cbn [option_map default].
    - rewrite (Hfree e eq_refl). apply andb_false_r.
    - rewrite String.eqb_refl. reflexivity. }
  assert (Heq : update_profile now d req
    = (ok_with 200 (Some "Profile updated successfully")
         (Some {| ud_user :=
                    option_map profile_view
                      (hd_error (map (set_profile b now)
                                     (select_user_by_id d uid))) |}),
       with_users d
         (map (fun u => if User.id u =? uid then set_profile b now u else u)
              (users d)))).
  { unfold update_profile, req_user_id. rewrite Hv, Hu. cbv zeta.
    rewrite no_updates_sanitize, Hsome. fold b. fold uid. rewrite Hup.
    subst b. cbn [sanitizeProfile ProfileBody.email].
    destruct (ProfileBody.email (body req)) as [e|] eqn:He;
      cbn [option_map]; [|reflexivity].
    rewrite (Hfree e eq_refl). reflexivity. }
  rewrite Heq. cbn [fst snd]. split; [reflexivity|].
  split.
  { unfold select_user_by_id at 1. cbn [with_users users].
    apply select_user_by_id_updated. reflexivity. }
  split; [intros u; subst b; cbn; repeat split|].
  split; [intros v Hvid; cbn [with_users users];
          apply updated_others_kept; [reflexivity | exact Hvid]|].
  repeat split.
Qed.

(** X13.  A password change by a caller without a user row is answered
    404, and one whose current password bcrypt does not accept for the
    stored hash is answered 401 "Invalid current password"; neither
    changes the store.  Otherwise a valid change is answered 200, and
    afterwards every row of the caller holds the bcrypt hash of the new
    password at 12 rounds and the time of the change, while the rows of
    other users and the other tables are as before. *)
Theorem password_change_contract (now : Z) (salt : string) (d : db)
  (req : request PasswordBody.t) (p : payload) :
  user req = Some p ->
  validate_password_change (body req) = [] ->
  let uid := c_id (p_claims p) in
  let current := toStr (PasswordBody.current_password (body req)) in
  let h := bcrypt_hash 12 salt (toStr (PasswordBody.new_password (body req))) in
  (select_user_by_id d uid = [] ->
   change_password now salt d req = (fail_with 404 "User not found" None, d))
  /\ (forall u us,
        select_user_by_id d uid = u :: us ->
        bcrypt_compare current (User.password_hash u) = false ->
        change_password now salt d req
        = (fail_with 401 "Invalid current password" None, d))
  /\ (forall u us,
        select_user_by_id d uid = u :: us ->
        bcrypt_compare current (User.password_hash u) = true ->
        let d' := snd (change_password now salt d req) in
        fst (change_password now salt d req)
        = ok_with 200 (Some "Password changed successfully") None
        /\ select_user_by_id d' uid
           = map (set_password h now) (select_user_by_id d uid)
        /\ (forall v, In v (select_user_by_id d' uid) ->
              User.password_hash v = h /\ User.updated_at v = now)
        /\ (forall v, User.id v <> uid -> (In v (users d') <-> In v (users d)))
        /\ locations d' = locations d
        /\ user_favorites d' = user_favorites d
        /\ user_progress d' = user_progress d).
Proof.
  intros Hu Hv uid current h.
  split; [|split].
  - intros Hnone. unfold change_password, req_user_id. rewrite Hv, Hu.
    fold uid. rewrite Hnone. reflexivity.
  - intros u us Hsel Hpw. unfold change_password, req_user_id.
    rewrite Hv, Hu. fold uid. rewrite Hsel. fold current. rewrite Hpw.
    reflexivity.
  - intros u us Hsel Hpw d'. subst d'.
    unfold change_password, req_user_id.
    rewrite Hv, Hu. fold uid. rewrite Hsel. fold current. rewrite Hpw.
    cbn [negb]. fold h.
    rewrite (update_users_same_email d uid (set_password h now))
      by reflexivity.
    cbn [fst snd]. split; [reflexivity|].
    assert (Hnew : select_user_by_id
                     (with_users d
                        (map (fun u0 => if User.id u0 =? uid
                                        then set_password h now u0 else u0)
                             (users d))) uid
                   = map (set_password h now) (select_user_by_id d uid)).
    { unfold select_user_by_id at 1. cbn [with_users users].
      apply select_user_by_id_updated. reflexivity. }
    split; [rewrite Hnew, Hsel; reflexivity|].
    split.
    { intros v Hin. rewrite Hnew in Hin. apply in_map_iff in Hin.
      destruct Hin as (v0 & <- & _). cbn. auto. }
    split; [intros v Hvid; cbn [with_users users];
            apply updated_others_kept; [reflexivity | exact Hvid]|].
    repeat split.
Qed.

Lemma filter_all_false {A} (f : A -> bool) (l : list A) :
  (forall x, In x l -> f x = false) -> filter f l = [].
Proof.
  induction l as [|a l IH]; intros H; cbn; [reflexivity|].
  rewrite (H a (or_introl eq_refl)). apply IH.
  intros x Hx. apply H. right. exact Hx.
Qed.

Lemma filter_email_unique (l : list User.row) (u : User.row) :
  NoDup (map User.email l) -> In u l ->
  filter (fun v => (User.email v =? User.email u)%string) l = [u].
Proof.
  induction l as [|a l IH]; intros Hnd Hin; [contradiction|].
  cbn in Hnd. apply NoDup_cons_iff in Hnd. destruct Hnd as [Ha Hnd].
  cbn [filter]. destruct Hin as [->|Hin].
  - rewrite String.eqb_refl. f_equal.
    apply filter_all_false.
    intros v Hv. apply String.eqb_neq. intros E. apply Ha.
    rewrite <- E. apply in_map, Hv.
  - destruct (String.eqb_spec (User.email a) (User.email u)) as [E|E].
    + exfalso. apply Ha. rewrite E. apply in_map, Hin.
    + auto.
Qed.

Lemma filter_email_map (e : string) (g : User.row -> User.row)
  (l : list User.row) :
  (forall u, User.email (g u) = User.email u) ->
  filter (fun v => (User.email v =? e)%string) (map g l)
  = map g (filter (fun v => (User.email v =? e)%string) l).
Proof.
  intros Hg. induction l as [|a l IH]; cbn; [reflexivity|].
  rewrite Hg. destruct (User.email a =? e)%string; cbn; rewrite IH; reflexivity.
Qed.

(** X14.  After a password change answered 200, the caller can log in
    with the new password: in a store with pairwise different e-mails, a
    login that submits an e-mail normalizing to the caller's and the new
    password is answered 200 for the caller's row as the change left it,
    provided bcrypt accepts the new password against the hash it made of
    it. *)
Theorem changed_password_logs_in (env : process_env) (now t : Z)
  (salt : string) (d : db) (req : request PasswordBody.t)
  (lr : request LoginBody.t) (p : payload) (u : User.row) :
  users_unique d ->
  user req = Some p ->
  In u (users d) ->
  User.id u = c_id (p_claims p) ->
  status (fst (change_password now salt d req)) = 200 ->
  isEmail (toStr (LoginBody.email (body lr))) = true ->
  normalizeEmail (toStr (LoginBody.email (body lr))) = User.email u ->
  LoginBody.password (body lr) = PasswordBody.new_password (body req) ->
  bcrypt_compare (toStr (PasswordBody.new_password (body req)))
    (bcrypt_hash 12 salt (toStr (PasswordBody.new_password (body req))))
  = true ->
  let d' := snd (change_password now salt d req) in
  let u' :=
    set_password
      (bcrypt_hash 12 salt (toStr (PasswordBody.new_password (body req))))
      now u in
  login env t d' lr
  = (ok_with 200 (Some "Login successful")
       (Some {| ad_user := user_view u';
                ad_token := generateToken env (claims_of_user u') t |}), d').
Proof.
  intros Huniq Hu Hin Hid Hst Hmail Hnorm Hpw Hlaw d' u'. subst d'.
  revert Hst. unfold change_password, req_user_id. rewrite Hu.
  destruct (validate_password_change (body req)) eqn:Hv; [|discriminate].
  destruct (select_user_by_id d (c_id (p_claims p))); [discriminate|].
  destruct (negb (bcrypt_compare _ _)); [discriminate|].
  rewrite update_users_same_email by reflexivity.
  cbn [fst snd]. intros _.
  unfold validate_password_change in Hv.
  apply app_eq_nil in Hv. destruct Hv as [_ Hlen]. apply check_nil in Hlen.
  unfold login, validateLogin. rewrite Hmail, Hpw. cbn [check app].
  replace (negb (toStr (PasswordBody.new_password (body req)) =? EmptyString)%string)
    with true.
  2:{ destruct (toStr (PasswordBody.new_password (body req)));
        [|reflexivity].
      unfold isLength, str_length in Hlen. cbn in Hlen. discriminate. }
  cbn [check]. rewrite Hnorm.
  unfold select_users_by_email. cbn [with_users users].
  rewrite filter_email_map
    by (intros v; destruct (User.id v =? c_id (p_claims p)); reflexivity).
  rewrite (filter_email_unique (users d) u Huniq Hin). cbn [map].
  rewrite <- Hid, Z.eqb_refl. fold u'.
  cbn [set_password User.password_hash] in *.
  unfold u' at 1. cbn [set_password User.password_hash].
  rewrite Hlaw. reflexivity.
Qed.

(** ** The lists and statistics of the caller *)

Lemma select_location_by_id_In (d : db) (lid : Z) (l : Location.row) :
  In l (select_location_by_id d lid) <-> In l (locations d) /\ Location.id l = lid.
Proof.
  unfold select_location_by_id. rewrite filter_In, Z.eqb_eq. reflexivity.
Qed.

Lemma select_favorites_In (d : db) (uid : Z) (it : favorite_item) :
  In it (select_favorites d uid)
  <-> exists f,
        In f (user_favorites d)
        /\ Favorite.user_id f = uid
        /\ In (fi_location it) (locations d)
        /\ Location.id (fi_location it) = Favorite.location_id f
        /\ favorited_at it = Favorite.created_at f.
Proof.
  unfold select_favorites, favorites_of.
  rewrite order_by_desc_In, in_flat_map. split.
  - intros (f & Hf & Hit). apply filter_In in Hf. destruct Hf as [Hf Hu].
    apply Z.eqb_eq in Hu. apply in_map_iff in Hit.
    destruct Hit as (l & <- & Hl). apply select_location_by_id_In in Hl.
    exists f. cbn. destruct Hl as [Hl1 Hl2].
    repeat split; first [assumption | reflexivity].
  - intros (f & Hf & Hu & Hl & Hid & Ht). exists f. split.
    + apply filter_In. split; [exact Hf | apply Z.eqb_eq, Hu].
    + apply in_map_iff. exists (fi_location it). split.
      * destruct it as [l t]. cbn in *. subst t. reflexivity.
      * apply select_location_by_id_In. auto.
Qed.

(** X15.  GET /favorites is answered 200 with exactly the caller's
    favorites: an item is listed if and only if some favorite row of the
    caller points to that location, which exists, the item's favorited_at
    being the creation time of that row.  The items are in descending
    order of favorited_at, total is their number, and the store is left
    alone. *)
Theorem favorites_list_is_own {B} (d : db) (req : request B) (p : payload) :
  user req = Some p ->
  exists l,
    get_favorites d req = (ok_with 200 None (Some l), d)
    /\ total l = Z.of_nat (List.length (items l))
    /\ StronglySorted (fun a b => favorited_at b <= favorited_at a) (items l)
    /\ (forall it,
          In it (items l)
          <-> exists f,
                In f (user_favorites d)
                /\ Favorite.user_id f = c_id (p_claims p)
                /\ In (fi_location it) (locations d)
                /\ Location.id (fi_location it) = Favorite.location_id f
                /\ favorited_at it = Favorite.created_at f).
Proof.
  intros Hu. unfold get_favorites, req_user_id. rewrite Hu.
  eexists. split; [reflexivity|]. cbn [items total].
  split; [reflexivity|].
  split; [exact (order_by_desc_sorted favorited_at _)|].
  intros it. apply select_favorites_In.
Qed.

(** What an add leaves behind: nothing, or one more favorite row. *)
Lemma add_favorite_inv {B} (now : Z) (d : db) (req : request B) :
  (status (fst (add_favorite now d req)) <> 201
   /\ snd (add_favorite now d req) = d)
  \/ (exists p f,
        user req = Some p
        /\ status (fst (add_favorite now d req)) = 201
        /\ select_location_by_id d (id_param "locationId" req) <> []
        /\ select_favorite d (c_id (p_claims p)) (id_param "locationId" req)
           = []
        /\ user_exists d (c_id (p_claims p)) = true
        /\ f = {| Favorite.id := user_favorites_id_seq d;
                  Favorite.user_id := c_id (p_claims p);
                  Favorite.location_id := id_param "locationId" req;
                  Favorite.created_at := now |}
        /\ snd (add_favorite now d req)
           = with_favorites d (user_favorites d ++ [f])
               (user_favorites_id_seq d + 1)).
Proof.
  unfold add_favorite, req_user_id.
  destruct (validate_id_param "locationId" "Invalid location ID" req);
    [|left; split; [discriminate | reflexivity]].
  destruct (select_location_by_id d (id_param "locationId" req)) eqn:Hloc;
    [left; split; [discriminate | reflexivity]|].
  destruct (user req) as [p|] eqn:Hu;
    [|left; split; [discriminate | reflexivity]].
  destruct (select_favorite d (c_id (p_claims p)) (id_param "locationId" req))
    eqn:Hfav; [|left; split; [discriminate | reflexivity]].
  unfold insert_favorite. rewrite Hloc, Hfav.
  destruct (user_exists d (c_id (p_claims p))) eqn:Hex; cbn [negb];
    [|left; split; [discriminate | reflexivity]].
  right. exists p. eexists.
  split; [first [exact Hu | reflexivity]|]. split; [reflexivity|].
  split; [first [rewrite Hloc; discriminate | discriminate]|].
  split; [first [exact Hfav | reflexivity]|].
  split; [first [exact Hex | reflexivity]|]. split; reflexivity.
Qed.

(** What a remove leaves behind. *)
Lemma remove_favorite_inv {B} (d : db) (req : request B) :
  snd (remove_favorite d req) = d
  \/ (exists p,
        user req = Some p
        /\ snd (remove_favorite d req)
           = with_favorites d
               (filter (fun f => negb (favorite_matches (c_id (p_claims p))
                                         (id_param "locationId" req) f))
                       (user_favorites d))
               (user_favorites_id_seq d)).
Proof.
  unfold remove_favorite, req_user_id, delete_favorite.
  destruct (validate_id_param "locationId" "Invalid location ID" req);
    [|left; reflexivity].
  destruct (user req) as [p|]; [|left; reflexivity].
  right. exists p. split; [reflexivity|].
  destruct (Z.of_nat _ =? 0); reflexivity.
Qed.

Lemma select_favorites_ext (d d' : db) (uid : Z) :
  locations d' = locations d ->
  favorites_of d' uid = favorites_of d uid ->
  select_favorites d' uid = select_favorites d uid.
Proof.
  intros Hl Hf. unfold select_favorites, select_location_by_id.
  rewrite Hl, Hf. reflexivity.
Qed.

Lemma filter_other_favorites (uid lid other : Z) (fs : list Favorite.row) :
  other <> uid ->
  filter (fun f => Favorite.user_id f =? other)
         (filter (fun f => negb (favorite_matches uid lid f)) fs)
  = filter (fun f => Favorite.user_id f =? other) fs.
Proof.
  intros Hother. induction fs as [|f fs IH]; cbn [filter]; [reflexivity|].
  unfold favorite_matches at 1.
  destruct (Z.eqb_spec (Favorite.user_id f) uid) as [E|E]; cbn [andb negb].
  - destruct (Favorite.location_id f =? lid); cbn [negb filter].
    + rewrite IH. destruct (Z.eqb_spec (Favorite.user_id f) other);
        [congruence | reflexivity].
    + rewrite IH. reflexivity.
  - cbn [filter]. rewrite IH. reflexivity.
Qed.

(** X16.  The list of favorites follows the writes of its owner and only
    those.  After an add answered 201 the caller's list has an item for
    that location with the time of the add; after a remove, whatever its
    answer, the caller's list has no item for that location; and neither
    an add nor a remove by the caller changes the list of any other
    user. *)
Theorem favorites_follow_add_and_remove {B} (now : Z) (d : db)
  (req : request B) (p : payload) :
  user req = Some p ->
  let uid := c_id (p_claims p) in
  let lid := id_param "locationId" req in
  (status (fst (add_favorite now d req)) = 201 ->
   exists it,
     In it (select_favorites (snd (add_favorite now d req)) uid)
     /\ Location.id (fi_location it) = lid
     /\ favorited_at it = now)
  /\ (validate_id_param "locationId" "Invalid location ID" req = [] ->
      forall it,
        In it (select_favorites (snd (remove_favorite d req)) uid) ->
        Location.id (fi_location it) <> lid)
  /\ (forall other,
        other <> uid ->
        select_favorites (snd (add_favorite now d req)) other
        = select_favorites d other
        /\ select_favorites (snd (remove_favorite d req)) other
           = select_favorites d other).
Proof.
  intros Hu uid lid. split; [|split].
  - intros Hok.
    destruct (add_favorite_inv now d req)
      as [(Hbad & _) | (p' & f & Hu' & _ & Hloc & _ & _ & Hf & ->)];
      [contradiction|].
    rewrite Hu in Hu'. injection Hu' as <-. fold uid lid in Hf, Hloc.
    destruct (select_location_by_id d lid) as [|l ls] eqn:Hsel;
      [contradiction|].
    assert (Hl : In l (select_location_by_id d lid))
      by (rewrite Hsel; left; reflexivity).
    apply select_location_by_id_In in Hl. destruct Hl as [Hl Hid].
    exists {| fi_location := l; favorited_at := now |}.
    split; [|cbn; auto]. apply select_favorites_In. exists f.
    cbn [with_favorites user_favorites locations fi_location favorited_at].
    rewrite Hf. cbn [Favorite.user_id Favorite.location_id Favorite.created_at].
    split; [apply in_or_app; right; left; reflexivity|].
    repeat split; auto.
  - intros Hv it Hit Hid.
    destruct (remove_favorite_inv d req) as [Hsame | (p' & Hu' & Hd')].
    + (* the store did not change: then there was nothing to remove *)
      revert Hsame Hit. unfold remove_favorite, req_user_id, delete_favorite.
      rewrite Hv, Hu. fold uid lid.
      destruct (Z.of_nat (List.length (select_favorite d uid lid)) =? 0);
        cbn [snd]; intros _ Hit;
        apply select_favorites_In in Hit;
        destruct Hit as (f & Hf & Hfu & _ & Hfl & _);
        cbn [with_favorites user_favorites] in Hf;
        apply filter_In in Hf; destruct Hf as [_ Hm];
        unfold favorite_matches in Hm;
        rewrite Hfu, <- Hfl, Hid, !Z.eqb_refl in Hm; discriminate.
    + rewrite Hu in Hu'. injection Hu' as <-. rewrite Hd' in Hit.
      apply select_favorites_In in Hit.
      destruct Hit as (f & Hf & Hfu & _ & Hfl & _).
      cbn [with_favorites user_favorites] in Hf.
      apply filter_In in Hf. destruct Hf as [_ Hm].
      unfold favorite_matches in Hm. fold uid lid in Hm.
      rewrite Hfu, <- Hfl, Hid, !Z.eqb_refl in Hm. discriminate.
  - intros other Hother. split.
    + destruct (add_favorite_inv now d req)
        as [(_ & ->) | (p' & f & Hu' & _ & _ & _ & _ & Hf & ->)];
        [reflexivity|].
      rewrite Hu in Hu'. injection Hu' as <-.
      apply select_favorites_ext; [reflexivity|].
      unfold favorites_of. cbn [with_favorites user_favorites].
      rewrite filter_app. cbn [filter]. rewrite Hf. cbn [Favorite.user_id].
      fold uid. destruct (Z.eqb_spec uid other); [congruence|].
      apply app_nil_r.
    + destruct (remove_favorite_inv d req) as [-> | (p' & Hu' & ->)];
        [reflexivity|].
      rewrite Hu in Hu'. injection Hu' as <-.
      apply select_favorites_ext; [reflexivity|].
      unfold favorites_of. cbn [with_favorites user_favorites].
      apply filter_other_favorites. exact Hother.
Qed.

Lemma select_progress_items_In (d : db) (uid : Z) (it : progress_item) :
  In it (select_progress_items d uid)
  <-> In (pi_progress it) (user_progress d)
      /\ Progress.user_id (pi_progress it) = uid
      /\ In (pi_location it) (locations d)
      /\ Location.id (pi_location it) = Progress.location_id (pi_progress it).
Proof.
  unfold select_progress_items, progress_of.
  rewrite order_by_desc_In, in_flat_map. split.
  - intros (q & Hq & Hit). apply filter_In in Hq. destruct Hq as [Hq Hu].
    apply Z.eqb_eq in Hu. apply in_map_iff in Hit.
    destruct Hit as (l & <- & Hl). apply select_location_by_id_In in Hl.
    cbn. destruct Hl as [Hl1 Hl2]. repeat split; assumption.
  - intros (Hq & Hu & Hl & Hid). exists (pi_progress it). split.
    + apply filter_In. split; [exact Hq | apply Z.eqb_eq, Hu].
    + apply in_map_iff. exists (pi_location it). split.
      * destruct it; reflexivity.
      * apply select_location_by_id_In. auto.
Qed.

Lemma progress_of_other (uid lid other pct pos now : Z) (done : bool)
  (l : list Progress.row) :
  other <> uid ->
  filter (fun q => Progress.user_id q =? other)
         (map (fun q => if progress_matches uid lid q
                        then excluded_update pct done pos now q else q) l)
  = filter (fun q => Progress.user_id q =? other) l.
Proof.
  intros Hother. induction l as [|q l IH]; cbn [map filter]; [reflexivity|].
  rewrite IH. unfold progress_matches.
  destruct (Z.eqb_spec (Progress.user_id q) uid) as [E|E]; cbn [andb];
    [|reflexivity].
  destruct (Progress.location_id q =? lid); [|reflexivity].
  cbn [excluded_update Progress.user_id].
  destruct (Z.eqb_spec (Progress.user_id q) other); [congruence|reflexivity].
Qed.

(** X17.  The progress list follows the writes of its owner and only
    those.  After a progress write answered 200, the caller's list has an
    item for that location; every item of the caller for that location
    shows the percentage that was sent, the completed flag and the last
    position that were sent or their defaults false and 0, and the time
    of the write; and the list of any other user is as it was. *)
Theorem progress_list_follows_write (now : Z) (d : db)
  (req : request ProgressBody.t) (p : payload) :
  user req = Some p ->
  status (fst (put_progress now d req)) = 200 ->
  let uid := c_id (p_claims p) in
  let lid := id_param "locationId" req in
  let d' := snd (put_progress now d req) in
  (exists it, In it (select_progress_items d' uid)
              /\ Location.id (pi_location it) = lid)
  /\ (forall it,
        In it (select_progress_items d' uid) ->
        Location.id (pi_location it) = lid ->
        Some (Progress.progress_percentage (pi_progress it))
        = ProgressBody.progress_percentage (body req)
        /\ Progress.completed (pi_progress it)
           = default false (ProgressBody.completed (body req))
        /\ Progress.last_position (pi_progress it)
           = default 0 (ProgressBody.last_position (body req))
        /\ Progress.updated_at (pi_progress it) = now)
  /\ (forall other, other <> uid ->
        select_progress_items d' other = select_progress_items d other).
Proof.
  intros Hu Hok uid lid d'. subst d'.
  destruct (put_progress_inv now d req)
    as [(Hbad & _) | (p' & row & d' & Hu' & Hv & Hloc & Hup & Heq)];
    [contradiction|].
  rewrite Hu in Hu'. injection Hu' as <-. fold uid lid in Hup, Hloc.
  rewrite Heq. cbn [snd].
  destruct (upsert_progress_stored _ _ _ _ _ _ _ _ _ Hup)
    as (_ & _ & Hlocs & _ & _ & _ & Hcases & Hrm & Hpct & Hdone & Hpos & Hat).
  destruct (upsert_progress_present _ _ _ _ _ _ _ _ _ Hup) as (Hin & _).
  apply progress_matches_key in Hrm. unfold progress_key in Hrm.
  injection Hrm as Hru Hrl.
  assert (Hpresent : ProgressBody.progress_percentage (body req)
                     = Some (default 0 (ProgressBody.progress_percentage
                                          (body req)))).
  { unfold validate_progress in Hv.
    apply app_eq_nil in Hv. destruct Hv as [_ Hv].
    apply app_eq_nil in Hv. destruct Hv as [Hv _].
    apply check_nil in Hv.
    destruct (ProgressBody.progress_percentage (body req));
      [reflexivity | discriminate]. }
  split; [|split].
  - destruct (select_location_by_id d lid) as [|l ls] eqn:Hsel;
      [contradiction|].
    assert (Hl : In l (select_location_by_id d lid))
      by (rewrite Hsel; left; reflexivity).
    apply select_location_by_id_In in Hl. destruct Hl as [Hl Hid].
    exists {| pi_location := l; pi_progress := row |}.
    split; [|exact Hid]. apply select_progress_items_In.
    cbn [pi_progress pi_location]. rewrite Hlocs, Hrl. auto.
  - intros it Hit Hid. apply select_progress_items_In in Hit.
    destruct Hit as (Hq & Hqu & _ & Hql).
    assert (Hm : progress_matches uid lid (pi_progress it) = true).
    { apply progress_matches_key. unfold progress_key.
      rewrite Hqu, <- Hql, Hid. reflexivity. }
    destruct (upsert_progress_values _ _ _ _ _ _ _ _ _ Hup _ Hq Hm)
      as (Hp1 & Hp2 & Hp3).
    split; [rewrite Hp1; symmetry; exact Hpresent|].
    split; [exact Hp2|]. split; [exact Hp3|].
    (* the time: the row is either the appended one or an updated one *)
    destruct Hcases as [(Hnone & Hrows & _) | (_ & Hrows & _)].
    + rewrite Hrows in Hq. apply in_app_or in Hq. destruct Hq as [Hq|Hq].
      * exfalso. assert (Hf : In (pi_progress it) (select_progress d uid lid))
          by (apply filter_In; auto).
        rewrite Hnone in Hf. exact Hf.
      * destruct Hq as [<-|[]]. exact Hat.
    + rewrite Hrows in Hq. apply in_map_iff in Hq.
      destruct Hq as (q & Hq & _).
      destruct (progress_matches uid lid q) eqn:Hmq.
      * rewrite <- Hq. reflexivity.
      * rewrite Hq in Hmq. congruence.
  - intros other Hother. unfold select_progress_items, select_location_by_id.
    rewrite Hlocs. f_equal. f_equal. unfold progress_of.
    destruct Hcases as [(_ & -> & _) | (_ & -> & _)].
    + rewrite filter_app. cbn [filter]. rewrite Hru.
      destruct (Z.eqb_spec uid other); [congruence|]. apply app_nil_r.
    + apply progress_of_other. exact Hother.
Qed.

(** X18.  GET /stats is answered 200 and leaves the store alone.  The
    completed count is at most the started count, which is the number of
    progress rows of the caller; the favorites count is the number of
    favorite rows of the caller; the recent activity has at most five
    items, all of the caller, in descending order of update time.  A
    caller without favorites and progress gets the counts 0, 0 and 0, the
    average "0.0" and no activity. *)
Theorem user_stats_counts {B} (d : db) (req : request B) (p : payload) :
  user req = Some p ->
  let uid := c_id (p_claims p) in
  exists s,
    get_user_stats d req = (ok_with 200 None (Some s), d)
    /\ favorites_count s = Z.of_nat (List.length (favorites_of d uid))
    /\ total_started s = Z.of_nat (List.length (progress_of d uid))
    /\ 0 <= completed_count s <= total_started s
    /\ (List.length (recent_activity s) <= 5)%nat
    /\ (forall it, In it (recent_activity s) ->
          In (pi_progress it) (user_progress d)
          /\ Progress.user_id (pi_progress it) = uid)
    /\ StronglySorted
         (fun a b => Progress.updated_at (pi_progress b)
                     <= Progress.updated_at (pi_progress a))
         (recent_activity s)
    /\ (favorites_of d uid = [] -> progress_of d uid = [] ->
        s = {| favorites_count := 0; total_started := 0;
               completed_count := 0; average_progress := "0.0";
               recent_activity := [] |}).
Proof.
  intros Hu uid. unfold get_user_stats, req_user_id. rewrite Hu. fold uid.
  eexists. split; [reflexivity|].
  cbn [favorites_count total_started completed_count recent_activity].
  split; [reflexivity|]. split; [reflexivity|].
  split.
  { split; [lia|]. apply inj_le, filter_length_le. }
  split.
  { unfold limit_offset. cbn [Z.to_nat skipn].
    apply firstn_le_length. }
  split.
  { intros it Hit. apply limit_offset_In, select_progress_items_In in Hit.
    destruct Hit as (H1 & H2 & _). split; assumption. }
  split.
  { unfold limit_offset. cbn [Z.to_nat skipn].
    pose proof (order_by_desc_sorted
                  (fun i => Progress.updated_at (pi_progress i))
                  (flat_map
                     (fun q =>
                        map (fun l => {| pi_location := l; pi_progress := q |})
                            (select_location_by_id d (Progress.location_id q)))
                     (progress_of d uid))) as Hs.
    fold (select_progress_items d uid) in Hs.
    revert Hs. generalize (select_progress_items d uid) as l.
    generalize (Pos.to_nat 5) as n.
    induction n as [|n IH]; intros l Hs; cbn [firstn]; [constructor|].
    destruct l as [|a l]; [constructor|].
    inversion Hs as [|? ? Hs' Hall]; subst.
    constructor; [apply IH, Hs'|].
    apply Forall_forall. intros x Hx.
    rewrite Forall_forall in Hall. apply Hall.
    rewrite <- (firstn_skipn n l). apply in_or_app. left. exact Hx. }
  intros Hf Hp. unfold select_progress_items. rewrite Hf, Hp. reflexivity.
Qed.

(** ** The locations router: reads and writes *)

Lemma validate_id_param_nil {B} (name msg : string) (req : request B) :
  validate_id_param name msg req = []
  <-> isInt (toStr (lookup name (params req))) (Some 1) None = true.
Proof. apply check_nil. Qed.


Lemma select_location_by_id_none (d : db) (lid : Z) :
  select_location_by_id d lid = []
  <-> forall l, In l (locations d) -> Location.id l <> lid.
Proof.
  split.
  - intros Hs l Hin Hid.
    assert (H : In l (select_location_by_id d lid))
      by (apply select_location_by_id_In; auto).
    rewrite Hs in H. exact H.
  - intros H. apply filter_all_false. intros l Hin.
    apply Z.eqb_neq. auto.
Qed.

Lemma select_location_by_id_some (d : db) (lid : Z) :
  select_location_by_id d lid <> []
  <-> In lid (map Location.id (locations d)).
Proof.
  rewrite in_map_iff. split.
  - destruct (select_location_by_id d lid) as [|l r] eqn:Hs; [congruence|].
    intros _. exists l.
    assert (H : In l (select_location_by_id d lid))
      by (rewrite Hs; left; reflexivity).
    apply select_location_by_id_In in H. destruct H; split; assumption.
  - intros [l [Hid Hin]] Hs.
    rewrite select_location_by_id_none in Hs. exact (Hs l Hin Hid).
Qed.

Lemma StronglySorted_skipn {A} (R : A -> A -> Prop) (n : nat) (l : list A) :
  StronglySorted R l -> StronglySorted R (skipn n l).
Proof.
  revert l. induction n as [|n IH]; intros l Hl; [exact Hl|].
  destruct l as [|a l]; [exact Hl|].
  cbn. apply IH. inversion Hl; assumption.
Qed.

Lemma StronglySorted_firstn {A} (R : A -> A -> Prop) (n : nat) (l : list A) :
  StronglySorted R l -> StronglySorted R (firstn n l).
Proof.
  revert l. induction n as [|n IH]; intros l Hl; [constructor|].
  destruct l as [|a l]; [constructor|].
  cbn. inversion Hl as [|? ? Hs Hf]; subst. constructor; [apply IH; exact Hs|].
  rewrite Forall_forall in *. intros x Hx. apply Hf.
  rewrite <- (firstn_skipn n l). apply in_or_app. left. exact Hx.
Qed.


(** X20.  GET / never writes and answers 200 or 500.  On 200 the page is
    cut out of the matching rows in descending order of creation: [limit]
    rows at most, after skipping [offset] rows; the defaults are 50 and 0,
    neither number is negative, and [total] counts the rows of the page,
    not the rows that match, so it never exceeds the limit. *)
Theorem list_locations_page {B} (d : db) (req : request B) :
  let r := fst (list_locations d req) in
  let q := query req in
  snd (list_locations d req) = d
  /\ (status r = 200 \/ status r = 500)
  /\ (status r = 200 <-> exists ld, data r = Some ld)
  /\ (forall ld, data r = Some ld ->
        (lookup "limit" q = None -> ld_limit ld = 50)
        /\ (lookup "offset" q = None -> ld_offset ld = 0)
        /\ 0 <= ld_limit ld /\ 0 <= ld_offset ld
        /\ ld_total ld = Z.of_nat (List.length (ld_rows ld))
        /\ ld_total ld <= ld_limit ld
        /\ exists matching,
             Permutation matching
               (filter (list_where (lookup "category" q)
                                   (lookup "is_premium" q)) (locations d))
             /\ StronglySorted (desc Location.created_at) matching
             /\ ld_rows ld
                = firstn (Z.to_nat (ld_limit ld))
                         (skipn (Z.to_nat (ld_offset ld)) matching)).
Proof.
  intros r q. subst r q. unfold list_locations.
  set (limit := match lookup "limit" (query req) with
                | Some s => parseInt s | None => Some 50 end).
  set (offset := match lookup "offset" (query req) with
                 | Some s => parseInt s | None => Some 0 end).
  assert (Hlim : lookup "limit" (query req) = None -> limit = Some 50)
    by (intros H; subst limit; rewrite H; reflexivity).
  assert (Hoff : lookup "offset" (query req) = None -> offset = Some 0)
    by (intros H; subst offset; rewrite H; reflexivity).
  clearbody limit offset.
  assert (Hfail : forall msg,
            let w := (@fail_with list_data 500 "Failed to fetch locations"
                        (Some msg), d) in
            snd w = d
            /\ (status (fst w) = 200 \/ status (fst w) = 500)
            /\ (status (fst w) = 200 <-> exists ld, data (fst w) = Some ld)
            /\ (forall ld, data (fst w) = Some ld -> False)).
  { intros msg w. subst w. cbn. split; [reflexivity|]. split; [right; reflexivity|].
    split; [split; [discriminate | intros [? ?]; discriminate]|].
    intros ? ?; discriminate. }
  assert (Hweak : forall w : response list_data * db,
            (snd w = d
             /\ (status (fst w) = 200 \/ status (fst w) = 500)
             /\ (status (fst w) = 200 <-> exists ld, data (fst w) = Some ld)
             /\ (forall ld, data (fst w) = Some ld -> False)) ->
            forall P : list_data -> Prop,
            snd w = d
            /\ (status (fst w) = 200 \/ status (fst w) = 500)
            /\ (status (fst w) = 200 <-> exists ld, data (fst w) = Some ld)
            /\ (forall ld, data (fst w) = Some ld -> P ld)).
  { intros w (H1 & H2 & H3 & H4) P. split; [exact H1|]. split; [exact H2|].
    split; [exact H3|]. intros ld Hld. destruct (H4 ld Hld). }
  destruct limit as [n|]; [|apply Hweak, Hfail].
  destruct offset as [m|]; [|apply Hweak, Hfail].
  destruct (m <? 0) eqn:Hm; [apply Hweak, Hfail|].
  destruct (n <? 0) eqn:Hn; [apply Hweak, Hfail|].
  apply Z.ltb_ge in Hm, Hn.
  cbn [fst snd status data ok_with].
  split; [reflexivity|]. split; [left; reflexivity|].
  split; [split; [intros _; eexists; reflexivity | reflexivity]|].
  intros ld Hld. injection Hld as <-. cbn [ld_limit ld_offset ld_total ld_rows].
  split; [intros H; specialize (Hlim H); congruence|].
  split; [intros H; specialize (Hoff H); congruence|].
  split; [exact Hn|]. split; [exact Hm|]. split; [reflexivity|].
  split.
  { unfold limit_offset.
    pose proof (firstn_le_length (Z.to_nat n)
      (skipn (Z.to_nat m)
         (order_by_desc Location.created_at
            (filter (list_where (lookup "category" (query req))
                                (lookup "is_premium" (query req)))
                    (locations d))))) as Hle.
    lia. }
  eexists. split; [apply order_by_desc_perm|].
  split; [apply order_by_desc_sorted | reflexivity].
Qed.

(** X21.  POST / never creates a location.  Its INSERT names twelve
    columns and gives eleven expressions, so PostgreSQL rejects the
    statement whatever the values: a request that passes the validation is
    answered 500 'Failed to create location', one that does not is answered
    400, and the store is the same afterwards. *)
Theorem create_location_never_creates (now : Z) (d : db)
  (req : request LocationBody.t) :
  let r := fst (create_location now d req) in
  snd (create_location now d req) = d
  /\ data r = None
  /\ (validateLocation (body req) <> [] -> status r = 400)
  /\ (validateLocation (body req) = [] ->
        status r = 500 /\ error r = Some "Failed to create location").
Proof.
  intros r. subst r. unfold create_location.
  destruct (validateLocation (body req)) as [|e errs].
  - destruct (req_user_id req) as [msg|uid]; cbn;
      (split; [reflexivity|]; split; [reflexivity|];
       split; [congruence | intros _; split; reflexivity]).
  - cbn. split; [reflexivity|]. split; [reflexivity|].
    split; [reflexivity | discriminate].
Qed.

Lemma select_location_updated (lid : Z) (g : Location.row -> Location.row)
  (ls : list Location.row) :
  (forall l, Location.id (g l) = Location.id l) ->
  filter (fun l => Location.id l =? lid)
         (map (fun l => if Location.id l =? lid then g l else l) ls)
  = map g (filter (fun l => Location.id l =? lid) ls).
Proof.
  intros Hg. induction ls as [|a ls IH]; [reflexivity|].
  cbn. destruct (Location.id a =? lid) eqn:Ha.
  - rewrite Hg, Ha. cbn. rewrite IH. reflexivity.
  - rewrite Ha. exact IH.
Qed.

Lemma map_update_location_ids (lid : Z) (g : Location.row -> Location.row)
  (ls : list Location.row) :
  (forall l, Location.id (g l) = Location.id l) ->
  map Location.id (map (fun l => if Location.id l =? lid then g l else l) ls)
  = map Location.id ls.
Proof.
  intros Hg. rewrite map_map. apply map_ext. intros l.
  destruct (Location.id l =? lid); [apply Hg | reflexivity].
Qed.

Lemma update_location_inv (now : Z) (d : db) (req : request LocationBody.t) :
  (status (fst (update_location now d req)) <> 200
   /\ snd (update_location now d req) = d
   /\ data (fst (update_location now d req)) = None)
  \/ (exists old rest,
        isInt (toStr (lookup "id" (params req))) (Some 1) None = true
        /\ validateLocation (body req) = []
        /\ select_location_by_id d (id_param "id" req) = old :: rest
        /\ default 0 (LocationBody.listeners (body req)) <= int4_max
        /\ update_location now d req
           = (ok_with 200 (Some "Location updated successfully")
                (Some (set_location (sanitizeLocation (body req)) now old)),
              with_locations d
                (map (fun l => if Location.id l =? id_param "id" req
                               then set_location (sanitizeLocation (body req))
                                                 now l
                               else l) (locations d)))).
Proof.
  unfold update_location, update_locations.
  destruct (validate_id_param "id" "Invalid location ID" req
            ++ validateLocation (body req)) as [|e errs] eqn:Hv.
  2:{ left. cbn. split; [discriminate|]. split; reflexivity. }
  apply app_eq_nil in Hv. destruct Hv as [Hid Hb].
  apply validate_id_param_nil in Hid.
  destruct (select_location_by_id d (id_param "id" req)) as [|old rest] eqn:Hs.
  { left. cbn. split; [discriminate|]. split; reflexivity. }
  cbn [sanitizeLocation LocationBody.listeners].
  destruct (int4_max <? default 0 (LocationBody.listeners (body req))) eqn:Hl.
  { left. cbn. split; [discriminate|]. split; reflexivity. }
  right. exists old, rest. apply Z.ltb_ge in Hl.
  split; [exact Hid|]. split; [exact Hb|]. split; [reflexivity|].
  split; [exact Hl|]. reflexivity.
Qed.

(** X22.  PUT /:id replaces the location, it does not patch it.  Unless
    the answer is 200 nothing is stored.  On 200 the row with the id of
    the path keeps its id, its creation time and its creator, gets the
    time of the update, and every other column is taken from the body: the
    name and the duration trimmed, the decimals rounded to the scale of
    their column, and a field that the body leaves out stored as NULL.
    Rows with another id, and the other tables, stay as they were, and
    GET /:id then returns the row that was answered. *)
Theorem update_location_replaces_every_column (now : Z) (d : db)
  (req : request LocationBody.t) :
  let r := fst (update_location now d req) in
  let d' := snd (update_location now d req) in
  let b := body req in
  let lid := id_param "id" req in
  (status r <> 200 -> d' = d /\ data r = None)
  /\ (status r = 200 ->
      exists old l,
        hd_error (select_location_by_id d lid) = Some old
        /\ data r = Some l
        /\ Location.id l = lid
        /\ Location.created_at l = Location.created_at old
        /\ Location.created_by l = Location.created_by old
        /\ Location.updated_at l = now
        /\ Location.name l = trim (toStr (LocationBody.name b))
        /\ Location.description l = LocationBody.description b
        /\ Location.category l = LocationBody.category b
        /\ Location.duration l = option_map trim (LocationBody.duration b)
        /\ Location.rating l
           = option_map (pg_numeric 1) (LocationBody.rating b)
        /\ Location.listeners l = LocationBody.listeners b
        /\ Location.is_premium l = LocationBody.is_premium b
        /\ Location.image_url l = LocationBody.image_url b
        /\ Location.audio_url l = LocationBody.audio_url b
        /\ Location.latitude l
           = option_map (pg_numeric 8) (LocationBody.latitude b)
        /\ Location.longitude l
           = option_map (pg_numeric 8) (LocationBody.longitude b)
        /\ (forall x, In x (locations d) -> Location.id x <> lid ->
              In x (locations d'))
        /\ map Location.id (locations d') = map Location.id (locations d)
        /\ users d' = users d
        /\ user_favorites d' = user_favorites d
        /\ user_progress d' = user_progress d
        /\ fst (get_location d' req) = ok_with 200 None (Some l)).
Proof.
  intros r d' b lid. subst r d' b lid.
  destruct (update_location_inv now d req)
    as [(Hst & Hd & Hdata) | (old & rest & Hid & Hb & Hs & Hl & Heq)].
  { split; [intros _; split; assumption | intros H; contradiction]. }
  rewrite Heq. cbn [fst snd status data ok_with].
  split; [intros H; exfalso; apply H; reflexivity|]. intros _.
  assert (Hold : In old (locations d) /\ Location.id old = id_param "id" req).
  { apply select_location_by_id_In. rewrite Hs. left. reflexivity. }
  destruct Hold as [Hin Hoid].
  exists old, (set_location (sanitizeLocation (body req)) now old).
  rewrite Hs. cbn [hd_error].
  split; [reflexivity|]. split; [reflexivity|]. split; [exact Hoid|].
  do 14 (split; [reflexivity|]).
  split.
  { intros x Hx Hne. cbn [locations with_locations]. apply in_map_iff.
    exists x. split; [|exact Hx].
    apply Z.eqb_neq in Hne. rewrite Hne. reflexivity. }
  split.
  { cbn [locations with_locations]. apply map_update_location_ids.
    intros l. reflexivity. }
  do 3 (split; [reflexivity|]).
  unfold get_location.
  rewrite (proj2 (validate_id_param_nil "id" "Invalid location ID" req) Hid).
  unfold select_location_by_id. cbn [locations with_locations].
  rewrite select_location_updated by (intros l; reflexivity).
  fold (select_location_by_id d (id_param "id" req)). rewrite Hs.
  reflexivity.
Qed.

Lemma delete_location_inv {B} (d : db) (req : request B) :
  (status (fst (delete_location d req)) <> 200
   /\ snd (delete_location d req) = d)
  \/ (isInt (toStr (lookup "id" (params req))) (Some 1) None = true
      /\ select_location_by_id d (id_param "id" req) <> []
      /\ delete_location d req
         = (ok_with 200 (Some "Location deleted successfully") None,
            delete_locations d (id_param "id" req))).
Proof.
  unfold delete_location.
  destruct (validate_id_param "id" "Invalid location ID" req) eqn:Hv.
  2:{ left. cbn. split; [discriminate | reflexivity]. }
  apply validate_id_param_nil in Hv.
  destruct (select_location_by_id d (id_param "id" req)) eqn:Hs.
  { left. cbn. split; [discriminate | reflexivity]. }
  right. split; [exact Hv|]. split; [discriminate | reflexivity].
Qed.

(** X23.  DELETE /:id removes a location together with every favorite and
    every progress row that refers to it, and nothing else.  Unless the
    answer is 200 the store is unchanged.  On 200 the locations, favorites
    and progress rows that remain are exactly those of another location,
    the users are untouched, and the same id then gives 404 both to
    GET /:id and to a second DELETE. *)
Theorem delete_location_cascades {B} (d : db) (req : request B) :
  let r := fst (delete_location d req) in
  let d' := snd (delete_location d req) in
  let lid := id_param "id" req in
  (status r <> 200 -> d' = d)
  /\ (status r = 200 ->
      select_location_by_id d lid <> []
      /\ (forall l, In l (locations d')
                    <-> In l (locations d) /\ Location.id l <> lid)
      /\ (forall f, In f (user_favorites d')
                    <-> In f (user_favorites d)
                        /\ Favorite.location_id f <> lid)
      /\ (forall q, In q (user_progress d')
                    <-> In q (user_progress d)
                        /\ Progress.location_id q <> lid)
      /\ users d' = users d
      /\ status (fst (get_location d' req)) = 404
      /\ status (fst (delete_location d' req)) = 404).
Proof.
  intros r d' lid. subst r d' lid.
  destruct (delete_location_inv d req) as [(Hst & Hd) | (Hid & Hs & Heq)].
  { split; [intros _; exact Hd | intros H; contradiction]. }
  rewrite Heq. cbn [fst snd status ok_with].
  split; [intros H; exfalso; apply H; reflexivity|]. intros _.
  split; [exact Hs|].
  assert (Hneg : forall a b : Z, negb (a =? b) = true <-> a <> b).
  { intros a b. rewrite negb_true_iff. apply Z.eqb_neq. }
  split.
  { intros l. cbn [locations delete_locations]. rewrite filter_In, Hneg.
    reflexivity. }
  split.
  { intros f. cbn [user_favorites delete_locations]. rewrite filter_In, Hneg.
    reflexivity. }
  split.
  { intros q. cbn [user_progress delete_locations]. rewrite filter_In, Hneg.
    reflexivity. }
  split; [reflexivity|].
  assert (Hgone : select_location_by_id
                    (delete_locations d (id_param "id" req))
                    (id_param "id" req) = []).
  { apply select_location_by_id_none. intros l.
    cbn [locations delete_locations]. rewrite filter_In, Hneg.
    intros [_ H]. exact H. }
  unfold get_location, delete_location.
  rewrite (proj2 (validate_id_param_nil "id" "Invalid location ID" req) Hid).
  rewrite Hgone.
  split; reflexivity.
Qed.

(** ** The constraints of the schema under the writes of the API *)

Lemma user_exists_In (d : db) (uid : Z) :
  user_exists d uid = true <-> In uid (map User.id (users d)).
Proof.
  unfold user_exists. rewrite existsb_exists, in_map_iff.
  split; intros [u [H1 H2]]; exists u.
  - apply Z.eqb_eq in H2. split; assumption.
  - split; [exact H2 | apply Z.eqb_eq; exact H1].
Qed.

Lemma NoDup_map_filter {A K} (key : A -> K) (p : A -> bool) (l : list A) :
  NoDup (map key l) -> NoDup (map key (filter p l)).
Proof.
  induction l as [|a l IH]; cbn; intros H; [exact H|].
  inversion H as [|? ? Hn Hl]; subst.
  destruct (p a); cbn; [constructor|]; auto.
  intros Hin. apply Hn. apply in_map_iff in Hin.
  destruct Hin as [x [Hx Hin]].
  apply in_map_iff. exists x. split; [exact Hx|].
  apply filter_In in Hin. exact (proj1 Hin).
Qed.

Lemma references_ok_iff (d : db) :
  references_ok d
  <-> (forall f, In f (user_favorites d) ->
         In (Favorite.user_id f) (map User.id (users d))
         /\ In (Favorite.location_id f) (map Location.id (locations d)))
      /\ (forall q, In q (user_progress d) ->
            In (Progress.user_id q) (map User.id (users d))
            /\ In (Progress.location_id q) (map Location.id (locations d))).
Proof.
  unfold references_ok. rewrite !Forall_forall.
  split; intros [H1 H2]; split; intros x Hx.
  - destruct (H1 x Hx) as [Ha Hb].
    apply user_exists_In in Ha. apply select_location_by_id_some in Hb.
    split; assumption.
  - destruct (H2 x Hx) as [Ha Hb].
    apply user_exists_In in Ha. apply select_location_by_id_some in Hb.
    split; assumption.
  - destruct (H1 x Hx) as [Ha Hb].
    apply user_exists_In in Ha. apply select_location_by_id_some in Hb.
    split; assumption.
  - destruct (H2 x Hx) as [Ha Hb].
    apply user_exists_In in Ha. apply select_location_by_id_some in Hb.
    split; assumption.
Qed.

(** A write that only adds users, or changes users and keeps their ids. *)
Lemma store_consistent_users (d d' : db) :
  incl (map User.id (users d)) (map User.id (users d')) ->
  locations d' = locations d ->
  user_favorites d' = user_favorites d ->
  user_progress d' = user_progress d ->
  store_consistent d -> store_consistent d'.
Proof.
  intros Hu Hl Hf Hp (Hr & Hfu & Hk).
  unfold store_consistent, favorites_unique, locations_keyed.
  rewrite references_ok_iff in *. rewrite Hl, Hf, Hp.
  destruct Hr as [H1 H2].
  split; [|split; assumption].
  split; intros x Hx.
  - destruct (H1 x Hx). split; [apply Hu|]; assumption.
  - destruct (H2 x Hx). split; [apply Hu|]; assumption.
Qed.

Lemma update_users_keeps_consistent (d d' : db) (uid : Z)
  (upd : User.row -> User.row) (rows : list User.row) :
  (forall u, User.id (upd u) = User.id u) ->
  update_users d uid upd = inr (rows, d') ->
  store_consistent d -> store_consistent d'.
Proof.
  intros Hid Hup.
  destruct (update_users_stored d d' uid upd rows Hup)
    as (_ & Hu & _ & Hl & _ & Hf & _ & Hp & _).
  apply store_consistent_users; try assumption.
  rewrite Hu, map_update_ids by exact Hid. apply incl_refl.
Qed.

Lemma upsert_progress_inserted (d d' : db) uid lid pct done pos now row :
  upsert_progress d uid lid pct done pos now = inr (row, d') ->
  select_progress d uid lid = [] ->
  user_exists d uid = true /\ select_location_by_id d lid <> [].
Proof.
  unfold upsert_progress. intros H Hsel. rewrite Hsel in H.
  destruct (user_exists d uid); [|discriminate].
  cbn in H. destruct (select_location_by_id d lid); [discriminate|].
  split; [reflexivity | discriminate].
Qed.

Lemma create_location_store (now : Z) (d : db) (req : request LocationBody.t) :
  snd (create_location now d req) = d.
Proof.
  unfold create_location.
  destruct (validateLocation (body req)); [|reflexivity].
  destruct (req_user_id req); reflexivity.
Qed.

Lemma add_favorite_consistent {B} (now : Z) (d : db) (req : request B) :
  store_consistent d -> store_consistent (snd (add_favorite now d req)).
Proof.
  intros H.
  destruct (add_favorite_inv now d req)
    as [[_ ->] | (p & f & Hu & Hst & Hloc & Hsel & Hex & Hf & ->)];
    [exact H|].
  destruct H as (Hr & Hfu & Hk).
  unfold store_consistent, favorites_unique, locations_keyed.
  rewrite references_ok_iff in *.
  cbn [users locations user_favorites user_progress with_favorites].
  destruct Hr as [H1 H2].
  split; [split; [|exact H2] | split; [|exact Hk]].
  - intros x Hx. apply in_app_or in Hx. destruct Hx as [Hx | [<- | []]].
    + exact (H1 x Hx).
    + subst f. cbn. split.
      * apply user_exists_In. exact Hex.
      * apply select_location_by_id_some. exact Hloc.
  - rewrite map_app. apply NoDup_snoc; [exact Hfu|].
    intros Hin. apply in_map_iff in Hin. destruct Hin as [x [Hkey Hx]].
    assert (Hm : In x (select_favorite d (c_id (p_claims p))
                         (id_param "locationId" req))).
    { apply filter_In. split; [exact Hx|].
      subst f. cbn in Hkey. injection Hkey as Ha Hb.
      unfold favorite_matches. rewrite Ha, Hb, !Z.eqb_refl. reflexivity. }
    rewrite Hsel in Hm. exact Hm.
Qed.

Lemma remove_favorite_consistent {B} (d : db) (req : request B) :
  store_consistent d -> store_consistent (snd (remove_favorite d req)).
Proof.
  intros H.
  destruct (remove_favorite_inv d req) as [-> | (p & Hu & ->)]; [exact H|].
  destruct H as (Hr & Hfu & Hk).
  unfold store_consistent, favorites_unique, locations_keyed.
  rewrite references_ok_iff in *.
  cbn [users locations user_favorites user_progress with_favorites].
  destruct Hr as [H1 H2].
  split; [split; [|exact H2] | split; [|exact Hk]].
  - intros x Hx. apply filter_In in Hx. apply H1. exact (proj1 Hx).
  - apply NoDup_map_filter. exact Hfu.
Qed.

Lemma put_progress_consistent (now : Z) (d : db)
  (req : request ProgressBody.t) :
  store_consistent d -> store_consistent (snd (put_progress now d req)).
Proof.
  intros H.
  destruct (put_progress_inv now d req)
    as [[_ Hsame] | (u & row & d' & Hu & Hv & Hloc & Hup & ->)].
  { destruct (Hsame now) as [_ ->]. exact H. }
  cbn [snd].
  destruct (upsert_progress_stored _ _ _ _ _ _ _ _ _ Hup)
    as (Husers & _ & Hlocs & _ & Hfavs & _ & Hcases & Hrow & _).
  destruct H as (Hr & Hfu & Hk).
  unfold store_consistent, favorites_unique, locations_keyed.
  rewrite references_ok_iff in *. rewrite Husers, Hlocs, Hfavs.
  destruct Hr as [H1 H2].
  split; [split; [exact H1|] | split; assumption].
  intros q Hq.
  destruct Hcases as [(Hsel & Hp & _) | (Hsel & Hp & _)]; rewrite Hp in Hq.
  - apply in_app_or in Hq. destruct Hq as [Hq | [<- | []]]; [exact (H2 q Hq)|].
    destruct (upsert_progress_inserted _ _ _ _ _ _ _ _ _ Hup Hsel)
      as [Hex Hl].
    apply progress_matches_key in Hrow. unfold progress_key in Hrow.
    injection Hrow as -> ->. split.
    + apply user_exists_In. exact Hex.
    + apply select_location_by_id_some. exact Hl.
  - apply in_map_iff in Hq. destruct Hq as [q0 [<- Hq0]].
    destruct (progress_matches _ _ q0); [|exact (H2 q0 Hq0)].
    exact (H2 q0 Hq0).
Qed.

Lemma update_location_consistent (now : Z) (d : db)
  (req : request LocationBody.t) :
  store_consistent d -> store_consistent (snd (update_location now d req)).
Proof.
  intros H.
  destruct (update_location_inv now d req)
    as [(_ & -> & _) | (old & rest & _ & _ & _ & _ & ->)]; [exact H|].
  destruct H as (Hr & Hfu & Hk).
  unfold store_consistent, favorites_unique, locations_keyed.
  rewrite references_ok_iff in *.
  cbn [snd users locations user_favorites user_progress with_locations].
  rewrite map_update_location_ids by (intros l; reflexivity).
  split; [exact Hr | split; assumption].
Qed.

Lemma delete_location_consistent {B} (d : db) (req : request B) :
  store_consistent d -> store_consistent (snd (delete_location d req)).
Proof.
  intros H.
  destruct (delete_location_inv d req) as [[_ ->] | (_ & _ & ->)];
    [exact H|].
  destruct H as (Hr & Hfu & Hk).
  unfold store_consistent, favorites_unique, locations_keyed.
  rewrite references_ok_iff in *.
  cbn [snd users locations user_favorites user_progress delete_locations].
  destruct Hr as [H1 H2].
  assert (Hkeep : forall lid,
            In lid (map Location.id (locations d)) ->
            lid <> id_param "id" req ->
            In lid (map Location.id
                      (filter (fun l => negb (Location.id l
                                              =? id_param "id" req))
                              (locations d)))).
  { intros lid Hin Hne. apply in_map_iff in Hin.
    destruct Hin as [l [Hid Hl]]. apply in_map_iff. exists l.
    split; [exact Hid|]. apply filter_In. split; [exact Hl|].
    apply negb_true_iff, Z.eqb_neq. congruence. }
  split; [split | split; apply NoDup_map_filter; assumption].
  - intros f Hf. apply filter_In in Hf. destruct Hf as [Hf Hne].
    apply negb_true_iff, Z.eqb_neq in Hne.
    destruct (H1 f Hf). split; [assumption | apply Hkeep; assumption].
  - intros q Hq. apply filter_In in Hq. destruct Hq as [Hq Hne].
    apply negb_true_iff, Z.eqb_neq in Hne.
    destruct (H2 q Hq). split; [assumption | apply Hkeep; assumption].
Qed.

(** X24.  No write of the API breaks the constraints that tie the tables
    together.  From a store in which every favorite and every progress row
    refers to a stored user and a stored location, no user has the same
    favorite twice and location ids are pairwise different, each handler
    that writes (favorites, progress, locations, accounts) leads to a store
    with the same properties, whatever the request and its answer. *)
Theorem writes_keep_store_consistent (env : process_env) (now : Z)
  (salt : string) (d : db) :
  store_consistent d ->
  (forall req : request unit,
     store_consistent (snd (add_favorite now d req)))
  /\ (forall req : request unit,
        store_consistent (snd (remove_favorite d req)))
  /\ (forall req, store_consistent (snd (put_progress now d req)))
  /\ (forall req, store_consistent (snd (create_location now d req)))
  /\ (forall req, store_consistent (snd (update_location now d req)))
  /\ (forall req : request unit,
        store_consistent (snd (delete_location d req)))
  /\ (forall req, store_consistent (snd (register env now salt d req)))
  /\ (forall req, store_consistent (snd (update_profile now d req)))
  /\ (forall req, store_consistent (snd (change_password now salt d req)))
  /\ (forall req, store_consistent (snd (update_subscription now d req))).
Proof.
  intros H.
  split; [intros req; apply add_favorite_consistent; exact H|].
  split; [intros req; apply remove_favorite_consistent; exact H|].
  split; [intros req; apply put_progress_consistent; exact H|].
  split; [intros req; rewrite create_location_store; exact H|].
  split; [intros req; apply update_location_consistent; exact H|].
  split; [intros req; apply delete_location_consistent; exact H|].
  split.
  { intros req.
    destruct (register_inv env now salt d req)
      as [(_ & -> & _) | (u & _ & _ & _ & ->)]; [exact H|].
    cbn [snd]. revert H. apply store_consistent_users; try reflexivity.
    cbn [users]. rewrite map_app. apply incl_appl, incl_refl. }
  split.
  { intros req.
    destruct (update_profile_inv now d req) as [-> | (uid & rows & Hup)];
      [exact H|].
    revert H. refine (update_users_keeps_consistent _ _ _ _ _ _ Hup).
    intros u. reflexivity. }
  split.
  { intros req.
    destruct (change_password_inv now salt d req)
      as [-> | (uid & h & rows & Hup)]; [exact H|].
    revert H. refine (update_users_keeps_consistent _ _ _ _ _ _ Hup).
    intros u. reflexivity. }
  intros req.
  destruct (update_subscription_inv now d req)
    as [-> | (uid & kind & premium & rows & Hup)]; [exact H|].
  revert H. refine (update_users_keeps_consistent _ _ _ _ _ _ Hup).
    intros u. reflexivity.
Qed.

(** ** database/db.js: the default locations *)

Lemma initializeDatabase_nonempty (clock : nat -> Z) (d : db) :
  locations d <> [] -> initializeDatabase clock d = d.
Proof.
  unfold initializeDatabase, count_locations.
  destruct (locations d); [congruence|]. reflexivity.
Qed.

Lemma initializeDatabase_empty (clock : nat -> Z) (d : db) :
  locations d = [] ->
  exists r0 r1 r2 r3,
    locations (initializeDatabase clock d) = [r0; r1; r2; r3]
    /\ map Location.name [r0; r1; r2; r3]
       = ["Hagia Sophia"; "Blue Mosque"; "Topkapi Palace"; "Galata Tower"]
    /\ map Location.id [r0; r1; r2; r3]
       = [locations_id_seq d; locations_id_seq d + 1;
          locations_id_seq d + 2; locations_id_seq d + 3]
    /\ map Location.created_at [r0; r1; r2; r3]
       = [clock 0%nat; clock 1%nat; clock 2%nat; clock 3%nat]
    /\ map Location.category [r0; r1; r2; r3]
       = [Some "Architecture"; Some "Religion"; Some "History";
          Some "Architecture"]
    /\ map Location.is_premium [r0; r1; r2; r3]
       = [Some false; Some false; Some true; Some false]
    /\ map Location.rating [r0; r1; r2; r3]
       = [Some (49 # 10)%Q; Some (24 # 5)%Q; Some (47 # 10)%Q;
          Some (47 # 10)%Q]
    /\ map Location.audio_url [r0; r1; r2; r3] = [None; None; None; None]
    /\ map Location.created_by [r0; r1; r2; r3] = [None; None; None; None]
    /\ locations_id_seq (initializeDatabase clock d) = locations_id_seq d + 4
    /\ users (initializeDatabase clock d) = users d
    /\ users_id_seq (initializeDatabase clock d) = users_id_seq d
    /\ user_favorites (initializeDatabase clock d) = user_favorites d
    /\ user_favorites_id_seq (initializeDatabase clock d)
       = user_favorites_id_seq d
    /\ user_progress (initializeDatabase clock d) = user_progress d
    /\ user_progress_id_seq (initializeDatabase clock d)
       = user_progress_id_seq d.
Proof.
  intros Hl. unfold initializeDatabase, count_locations. rewrite Hl.
  cbn [List.length Z.of_nat Z.eqb].
  unfold defaultLocations.
  cbn [insert_seeds insert_seed locations locations_id_seq users users_id_seq
       user_favorites user_favorites_id_seq user_progress
       user_progress_id_seq seed_name seed_description seed_category
       seed_duration seed_rating seed_listeners seed_is_premium
       seed_image_url seed_latitude seed_longitude].
  rewrite Hl. cbn [app].
  do 4 eexists. split; [reflexivity|].
  cbn [map Location.name Location.id Location.created_at Location.category
       Location.is_premium Location.rating Location.audio_url
       Location.created_by].
  split; [reflexivity|].
  split; [repeat (apply f_equal2; [lia|]); reflexivity|].
  split; [reflexivity|]. split; [reflexivity|]. split; [reflexivity|].
  split; [vm_compute; reflexivity|].
  split; [reflexivity|]. split; [reflexivity|].
  split; [lia|].
  repeat split; reflexivity.
Qed.

(** X25.  [initializeDatabase] seeds the catalogue once.  A store that has
    a location is left as it is.  A store without locations gets the four
    default locations, in the order of the source, with the next four ids
    of the sequence, each stamped with the time of its own insert and with
    no audio and no creator; users, favorites and progress are untouched.
    Either way the store has a location afterwards, so a second start does
    nothing, and the constraints that tie the tables together still
    hold. *)
Theorem initializeDatabase_seeds_once (clock clock' : nat -> Z) (d : db) :
  let d' := initializeDatabase clock d in
  (locations d <> [] -> d' = d)
  /\ (locations d = [] ->
      map Location.name (locations d')
      = ["Hagia Sophia"; "Blue Mosque"; "Topkapi Palace"; "Galata Tower"]
      /\ map Location.id (locations d')
         = [locations_id_seq d; locations_id_seq d + 1;
            locations_id_seq d + 2; locations_id_seq d + 3]
      /\ locations_id_seq d' = locations_id_seq d + 4
      /\ map Location.created_at (locations d')
         = [clock 0%nat; clock 1%nat; clock 2%nat; clock 3%nat]
      /\ Forall (fun l => Location.audio_url l = None
                          /\ Location.created_by l = None) (locations d'))
  /\ users d' = users d
  /\ user_favorites d' = user_favorites d
  /\ user_progress d' = user_progress d
  /\ locations d' <> []
  /\ initializeDatabase clock' d' = d'
  /\ (store_consistent d -> store_consistent d').
Proof.
  intros d'. subst d'.
  destruct (locations d) as [|l0 ls] eqn:Hl.
  - destruct (initializeDatabase_empty clock d Hl)
      as (r0 & r1 & r2 & r3 & Hrows & Hn & Hi & Hc & _ & _ & _ & Ha & Hb
          & Hseq & Hu & _ & Hf & _ & Hp & _).
    split; [congruence|].
    split.
    { intros _. rewrite Hrows.
      split; [exact Hn|]. split; [exact Hi|]. split; [exact Hseq|].
      split; [exact Hc|].
      cbn in Ha, Hb. injection Ha as Ha0 Ha1 Ha2 Ha3.
      injection Hb as Hb0 Hb1 Hb2 Hb3.
      repeat (apply Forall_cons; [split; assumption|]). apply Forall_nil. }
    split; [exact Hu|]. split; [exact Hf|]. split; [exact Hp|].
    split; [rewrite Hrows; discriminate|].
    split; [apply initializeDatabase_nonempty; rewrite Hrows; discriminate|].
    intros (Hr & Hfu & Hk).
    unfold store_consistent, favorites_unique, locations_keyed.
    rewrite references_ok_iff in *. rewrite Hu, Hf, Hp, Hrows, Hi.
    rewrite Hl in Hr. destruct Hr as [H1 H2].
    split; [|split].
    + split; intros x Hx; [destruct (H1 x Hx) as [_ []]
                          | destruct (H2 x Hx) as [_ []]].
    + exact Hfu.
    + repeat (apply NoDup_cons; [cbn; lia|]). apply NoDup_nil.
  - assert (Hne : locations d <> []) by (rewrite Hl; discriminate).
    rewrite (initializeDatabase_nonempty clock d Hne).
    split; [reflexivity|].
    split; [intros H; discriminate H|].
    split; [reflexivity|]. split; [reflexivity|]. split; [reflexivity|].
    split; [exact Hne|].
    split; [apply initializeDatabase_nonempty; exact Hne|].
    intros H. exact H.
Qed.

(** X26.  The statistics of a freshly seeded catalogue.  After
    [initializeDatabase] on a store without locations, GET /stats/overview
    reports four locations, one of them premium and three free, the
    average rating '4.8' (the mean 4.775 of 4.9, 4.8, 4.7 and 4.7 with one
    decimal), and the three categories with Architecture, the only one
    with two locations, first. *)
Theorem seeded_catalogue_overview (clock : nat -> Z) (d : db) :
  locations d = [] ->
  exists sd,
    data (fst (stats_overview (initializeDatabase clock d))) = Some sd
    /\ total_locations sd = 4
    /\ premium_locations sd = 1
    /\ free_locations sd = 3
    /\ average_rating sd = "4.8"
    /\ hd_error (categories sd) = Some (Some "Architecture", 2)
    /\ Permutation (categories sd)
         [(Some "Architecture", 2); (Some "Religion", 1);
          (Some "History", 1)].
Proof.
  intros Hl.
  destruct (initializeDatabase_empty clock d Hl)
    as (r0 & r1 & r2 & r3 & Hrows & _ & _ & _ & Hcat & Hprem & Hrat & _).
  eexists. split; [reflexivity|].
  cbn [total_locations premium_locations free_locations average_rating
       categories].
  unfold count_locations, count_premium, avg_rating, positive_ratings,
    category_stats.
  rewrite Hrows.
  cbn in Hcat, Hprem, Hrat.
  injection Hcat as Hc0 Hc1 Hc2 Hc3.
  injection Hprem as Hp0 Hp1 Hp2 Hp3.
  injection Hrat as Hr0 Hr1 Hr2 Hr3.
  cbn [map filter flat_map List.length app].
  rewrite Hc0, Hc1, Hc2, Hc3, Hp0, Hp1, Hp2, Hp3, Hr0, Hr1, Hr2, Hr3.
  split; [reflexivity|]. split; [reflexivity|]. split; [reflexivity|].
  split; [vm_compute; reflexivity|].
  split; [vm_compute; reflexivity|].
  vm_compute. apply Permutation_refl.
Qed.

End Backend.

(** ** The theorems at work on the demo store *)


(** The same token eight days later, and a token signed with another
    secret. *)
Lemma token_failures_distinguished_witness :
  let tok := generateToken demo_hmac demo_env demo_claims 0 in
  let forged := jwt_sign demo_hmac demo_claims "guess" 0 in
  authenticateToken (D := unit) demo_hmac demo_env 691200000
    (bearer_request (Compact tok)) = Respond token_expired
  /\ authenticateToken (D := unit) demo_hmac demo_env 691200000
       (bearer_request (Compact forged)) = Respond token_invalid.
Proof.
  intros tok forged. split.
  - destruct (token_failures_distinguished demo_hmac (D := unit) demo_env
                691200000 (bearer_request (Compact tok)) (Compact tok)
                eq_refl eq_refl) as (Hexpired & _).
    apply (Hexpired tok eq_refl); [reflexivity | vm_compute; discriminate].
  - destruct (token_failures_distinguished demo_hmac (D := unit) demo_env
                691200000 (bearer_request (Compact forged)) (Compact forged)
                eq_refl eq_refl) as (_ & Hinvalid & _).
    apply (Hinvalid forged eq_refl). reflexivity.
Defined.

(** Two registrations of the same address in different letter case. *)
Lemma duplicate_registration_exclusion_witness :
  let reg := register demo_hmac demo_bcrypt_hash demo_isEmail lowercase
                      demo_env in
  let r1 := demo_register "B@x.com" "secret1" in
  let r2 := demo_register "b@X.com" "secret2" in
  let a1 := reg 10 "salt" demo_db r2 in
  let a2 := reg 20 "salt" (snd a1) r1 in
  status (fst a1) = 201 /\ status (fst a2) = 409 /\ snd a2 = snd a1
  /\ List.length (select_users_by_email (snd a2) "b@x.com") = 1%nat.
Proof.
  intros reg r1 r2.
  apply (duplicate_registration_exclusion demo_hmac demo_bcrypt_hash
           demo_isEmail lowercase demo_env 10 20 "salt" "salt" demo_db r1 r2
           eq_refl eq_refl eq_refl eq_refl r2 r1).
  right. split; reflexivity.
Defined.

(** An unknown address against the empty store, a wrong password against
    the demo store. *)
Lemma login_failures_indistinguishable_witness :
  let log := login demo_hmac demo_bcrypt_compare demo_isEmail lowercase in
  fst (log demo_env 10 empty_db (demo_login "a@x.com" "secret1"))
  = fst (log demo_env 20 demo_db (demo_login "a@x.com" "secret2")).
Proof.
  intros log.
  apply (login_failures_indistinguishable demo_hmac demo_bcrypt_compare
           demo_isEmail lowercase demo_env demo_env 10 20 empty_db demo_db
           (demo_login "a@x.com" "secret1") (demo_login "a@x.com" "secret2")
           demo_user [] eq_refl eq_refl eq_refl eq_refl eq_refl).
Defined.




(** The path in another letter case and with a trailing slash. *)
Lemma stats_overview_dispatch_witness :
  dispatch locations_router GET "/Stats/Overview/" = Some StatsOverview
  /\ dispatch locations_router GET "/stats/overview" <> Some GetLocation.
Proof.
  destruct stats_overview_dispatch as (Hstats & _ & Hnot & _).
  split.
  - apply (Hstats "/Stats/Overview/" "Stats" "Overview"); reflexivity.
  - apply (Hnot GET "/stats/overview" "stats" "overview"). reflexivity.
Defined.

(** C8 as stated fails on the route table: the statistics route is not
    registered before the by-id route. *)
Lemma stats_route_not_registered_first :
  ~ registered_before StatsOverview GetLocation locations_router.
Proof.
  intros (i & j & Hi & Hj & Hlt).
  cbn in Hi, Hj. injection Hi as <-. injection Hj as <-. lia.
Defined.




(** ** The further properties at work on the demo store *)

(** A request without Authorization header is told that a token is required. *)
Lemma token_required_iff_no_token_witness :
  authenticateToken (D := unit) demo_hmac demo_env 0 (demo_request [] [] tt)
  = Respond token_required.
Proof.
  apply (token_required_iff_no_token demo_hmac (D := unit) demo_env 0
           (demo_request [] [] tt)).
  left. reflexivity.
Defined.


Lemma authenticateAdmin_is_authenticateToken_witness :
  authenticateAdmin (D := unit) demo_hmac demo_env 0 (demo_request [] [] tt)
  = Respond token_required.
Proof.
  rewrite (proj1 (authenticateAdmin_is_authenticateToken demo_hmac (D := unit)
                    demo_env 0 (demo_request [] [] tt))).
  reflexivity.
Defined.


Lemma demo_users_unique : users_unique demo_db.
Proof.
  unfold users_unique. cbn. constructor; [intros [] | constructor].
Qed.

Lemma demo_users_keyed : users_keyed demo_db.
Proof.
  unfold users_keyed. cbn. split.
  - constructor; [intros [] | constructor].
  - constructor; [reflexivity | constructor].
Qed.

Lemma account_writes_keep_users_consistent_witness :
  let a := register demo_hmac demo_bcrypt_hash demo_isEmail lowercase
             demo_env 10000 "salt" demo_db (demo_register "B@x.com" "secret1") in
  users_unique (snd a) /\ users_keyed (snd a).
Proof.
  intros a.
  destruct (account_writes_keep_users_consistent demo_hmac demo_bcrypt_hash
              demo_bcrypt_compare demo_isEmail lowercase demo_env 10000 "salt"
              demo_db demo_users_unique demo_users_keyed) as (H & _).
  exact (H (demo_register "B@x.com" "secret1")).
Defined.

(** The token of the registration opens GET /me ten seconds later. *)
Lemma registered_token_reads_own_profile_witness :
  let a := register demo_hmac demo_bcrypt_hash demo_isEmail lowercase
             demo_env 10000 "salt" demo_db (demo_register "B@x.com" "secret1") in
  exists ad p,
    data (fst a) = Some ad
    /\ with_auth demo_hmac demo_env 20000 (snd a)
         (bearer_request (Compact (ad_token ad))) (get_me (snd a))
       = (ok_with 200 None (Some {| ud_user := Some p |}), snd a)
    /\ ProfileView.email p = "b@x.com".
Proof.
  intros a.
  destruct (data (fst a)) as [ad|] eqn:E; [|discriminate E].
  exists ad.
  destruct (registered_token_reads_own_profile demo_hmac demo_bcrypt_hash
              demo_isEmail lowercase demo_env 10000 20000 "salt" demo_db
              (demo_register "B@x.com" "secret1") ad
              (bearer_request (Compact (ad_token ad)))
              demo_users_keyed E eq_refl eq_refl)
    as (p & Hme & _ & _ & He & _).
  exists p. split; [reflexivity|]. split; [exact Hme | exact He].
Defined.

Lemma registered_user_can_login_witness :
  let a := register demo_hmac demo_bcrypt_hash demo_isEmail lowercase
             demo_env 10000 "salt" demo_db (demo_register "B@x.com" "secret1") in
  status (fst (login demo_hmac demo_bcrypt_compare demo_isEmail lowercase
                 demo_env 20000 (snd a) (demo_login "B@x.com" "secret1")))
  = 200.
Proof.
  intros a.
  destruct (registered_user_can_login demo_hmac demo_bcrypt_hash
              demo_bcrypt_compare demo_isEmail lowercase demo_env 10000 20000
              "salt" demo_db (demo_register "B@x.com" "secret1")
              (demo_login "B@x.com" "secret1")
              eq_refl eq_refl eq_refl eq_refl) as (u & _ & Hlogin).
  subst a. rewrite Hlogin. reflexivity.
Defined.

Lemma login_only_with_verified_password_witness :
  snd (login demo_hmac demo_bcrypt_compare demo_isEmail lowercase demo_env
         20000 demo_db (demo_login "a@x.com" "secret2")) = demo_db.
Proof.
  exact (proj1 (login_only_with_verified_password demo_hmac
                  demo_bcrypt_compare demo_isEmail lowercase demo_env 20000
                  demo_db (demo_login "a@x.com" "secret2"))).
Defined.

(** The demo user sends the combination pro and not premium. *)
Lemma subscription_stored_verbatim_witness :
  let req := demo_request [] []
               {| SubscriptionBody.subscription_type := Some "pro";
                  SubscriptionBody.is_premium := Some false |} in
  status (fst (update_subscription 10 demo_db req)) = 200
  /\ forall u, In u (select_user_by_id (snd (update_subscription 10 demo_db req)) 1) ->
       User.subscription_type u = "pro" /\ User.is_premium u = false
       /\ User.updated_at u = 10.
Proof.
  intros req.
  destruct (subscription_stored_verbatim 10 demo_db req demo_payload "pro"
              false eq_refl eq_refl eq_refl
              (or_intror (or_intror (or_introl eq_refl))))
    as (Hst & _ & Hrows & _).
  split; [exact Hst | exact Hrows].
Defined.

Lemma subscription_update_edges_witness :
  let req := demo_request [] []
               {| SubscriptionBody.subscription_type := Some "gold";
                  SubscriptionBody.is_premium := Some true |} in
  status (fst (update_subscription 10 demo_db req)) = 400
  /\ snd (update_subscription 10 demo_db req) = demo_db.
Proof.
  intros req.
  destruct (subscription_update_edges 10 demo_db req) as [H _].
  destruct (H (or_introl eq_refl)) as (Hst & _ & Hdb).
  split; [exact Hst | exact Hdb].
Defined.

Lemma profile_update_rejections_witness :
  let req := demo_request [] []
               {| ProfileBody.first_name := None;
                  ProfileBody.last_name := None;
                  ProfileBody.email := None |} in
  update_profile demo_isEmail lowercase 10 demo_db req
  = (fail_with 400 "No updates provided" None, demo_db).
Proof.
  intros req.
  apply (proj1 (profile_update_rejections demo_isEmail lowercase 10 demo_db
                  req)).
  reflexivity.
Defined.

Lemma profile_update_changes_supplied_fields_witness :
  let req := demo_request [] []
               {| ProfileBody.first_name := Some " Grace ";
                  ProfileBody.last_name := None;
                  ProfileBody.email := None |} in
  status (fst (update_profile demo_isEmail lowercase 10 demo_db req)) = 200
  /\ map User.first_name
       (select_user_by_id
          (snd (update_profile demo_isEmail lowercase 10 demo_db req)) 1)
     = ["Grace"].
Proof.
  intros req.
  pose proof (profile_update_changes_supplied_fields demo_isEmail lowercase
                10 demo_db req demo_payload eq_refl eq_refl eq_refl) as H.
  cbv zeta in H.
  destruct H as (Hr & Hsel & _); [intros e He; discriminate He|].
  split; [rewrite Hr; reflexivity | exact (f_equal (map User.first_name) Hsel)].
Defined.

(** The demo user changes the password secret1 to secret2. *)
Lemma password_change_contract_witness :
  let req := demo_request [] []
               {| PasswordBody.current_password := Some "secret1";
                  PasswordBody.new_password := Some "secret2" |} in
  fst (change_password demo_bcrypt_hash demo_bcrypt_compare 10 "salt"
         demo_db req)
  = ok_with 200 (Some "Password changed successfully") None.
Proof.
  intros req.
  pose proof (password_change_contract demo_bcrypt_hash demo_bcrypt_compare
                10 "salt" demo_db req demo_payload eq_refl eq_refl) as H.
  cbv zeta in H. destruct H as (_ & _ & H).
  exact (proj1 (H demo_user [] eq_refl eq_refl)).
Defined.

Lemma changed_password_logs_in_witness :
  let req := demo_request [] []
               {| PasswordBody.current_password := Some "secret1";
                  PasswordBody.new_password := Some "secret2" |} in
  let d' := snd (change_password demo_bcrypt_hash demo_bcrypt_compare 10
                   "salt" demo_db req) in
  status (fst (login demo_hmac demo_bcrypt_compare demo_isEmail lowercase
                 demo_env 20000 d' (demo_login "A@x.com" "secret2"))) = 200.
Proof.
  intros req d'. subst d'.
  rewrite (changed_password_logs_in demo_hmac demo_bcrypt_hash
             demo_bcrypt_compare demo_isEmail lowercase demo_env 10 20000
             "salt" demo_db req (demo_login "A@x.com" "secret2") demo_payload
             demo_user demo_users_unique eq_refl (or_introl eq_refl) eq_refl
             eq_refl eq_refl eq_refl eq_refl eq_refl).
  reflexivity.
Defined.

Lemma favorites_list_is_own_witness :
  exists l,
    get_favorites demo_db (demo_request [] [] tt)
    = (ok_with 200 None (Some l), demo_db)
    /\ total l = Z.of_nat (List.length (items l)).
Proof.
  destruct (favorites_list_is_own demo_db (demo_request [] [] tt)
              demo_payload eq_refl) as (l & Heq & Htotal & _).
  exists l. split; [exact Heq | exact Htotal].
Defined.

(** The demo user adds location 3 to the favorites at time 10. *)
Lemma favorites_follow_add_and_remove_witness :
  let req := demo_request [("locationId", "3")] [] tt in
  exists it,
    In it (select_favorites (snd (add_favorite 10 demo_db req)) 1)
    /\ Location.id (fi_location it) = 3 /\ favorited_at it = 10.
Proof.
  intros req.
  pose proof (favorites_follow_add_and_remove 10 demo_db req demo_payload
                eq_refl) as H.
  cbv zeta in H. destruct H as (H & _).
  exact (H eq_refl).
Defined.

(** The demo user writes 50 per cent on location 1 at time 10. *)
Lemma progress_list_follows_write_witness :
  let req := demo_request [("locationId", "1")] [] (demo_progress_body 50) in
  exists it,
    In it (select_progress_items (snd (put_progress 10 demo_db req)) 1)
    /\ Location.id (pi_location it) = 1.
Proof.
  intros req.
  pose proof (progress_list_follows_write 10 demo_db req demo_payload
                eq_refl eq_refl) as H.
  cbv zeta in H. destruct H as (H & _).
  exact H.
Defined.

Lemma user_stats_counts_witness :
  exists s,
    get_user_stats demo_db (demo_request [] [] tt)
    = (ok_with 200 None (Some s), demo_db)
    /\ favorites_count s = 0 /\ total_started s = 1.
Proof.
  pose proof (user_stats_counts demo_db (demo_request [] [] tt) demo_payload
                eq_refl) as H.
  cbv zeta in H. destruct H as (s & Heq & Hf & Ht & _).
  exists s. split; [exact Heq|]. split; [exact Hf | exact Ht].
Defined.


(** The second page of one row. *)
Lemma list_locations_page_witness :
  let req := demo_request [] [("limit", "1"); ("offset", "1")] tt in
  exists ld,
    data (fst (list_locations demo_db req)) = Some ld
    /\ ld_total ld <= 1 /\ map Location.id (ld_rows ld) = [3].
Proof.
  intros req.
  pose proof (list_locations_page demo_db req) as H.
  cbv zeta in H. destruct H as (_ & _ & [Hex _] & Hall).
  destruct (Hex eq_refl) as [ld Hld].
  exists ld. split; [exact Hld|].
  destruct (Hall ld Hld) as (_ & _ & _ & _ & _ & Hle & _).
  vm_compute in Hld. injection Hld as <-.
  split; [exact Hle | reflexivity].
Defined.

Lemma create_location_never_creates_witness :
  let req := demo_request [] []
               {| LocationBody.name := Some "Galata Tower";
                  LocationBody.description := None;
                  LocationBody.category := Some "Architecture";
                  LocationBody.duration := None;
                  LocationBody.rating := None;
                  LocationBody.listeners := Some 1800;
                  LocationBody.is_premium := Some false;
                  LocationBody.image_url := None;
                  LocationBody.audio_url := None;
                  LocationBody.latitude := None;
                  LocationBody.longitude := None |} in
  status (fst (create_location 10 demo_db req)) = 500
  /\ snd (create_location 10 demo_db req) = demo_db.
Proof.
  intros req.
  pose proof (create_location_never_creates 10 demo_db req) as H.
  cbv zeta in H. destruct H as (Hdb & _ & _ & H).
  split; [exact (proj1 (H eq_refl)) | exact Hdb].
Defined.

(** Location 3 is replaced by a body that has a name only. *)
Lemma update_location_replaces_every_column_witness :
  let req := demo_request [("id", "3")] []
               {| LocationBody.name := Some " Galata ";
                  LocationBody.description := None;
                  LocationBody.category := None;
                  LocationBody.duration := None;
                  LocationBody.rating := None;
                  LocationBody.listeners := None;
                  LocationBody.is_premium := None;
                  LocationBody.image_url := None;
                  LocationBody.audio_url := None;
                  LocationBody.latitude := None;
                  LocationBody.longitude := None |} in
  exists l,
    data (fst (update_location 10 demo_db req)) = Some l
    /\ Location.id l = 3 /\ Location.name l = "Galata"
    /\ Location.category l = None /\ Location.rating l = None.
Proof.
  intros req.
  pose proof (update_location_replaces_every_column 10 demo_db req) as H.
  cbv zeta in H. destruct H as [_ H].
  destruct (H eq_refl)
    as (old & l & _ & Hd & Hid & _ & _ & _ & Hn & _ & Hc & _ & Hr & _).
  exists l. split; [exact Hd|]. split; [exact Hid|]. split; [exact Hn|].
  split; [exact Hc | exact Hr].
Defined.

(** Location 2, on which the demo user has progress, is deleted. *)
Lemma delete_location_cascades_witness :
  let req := demo_request [("id", "2")] [] tt in
  let d' := snd (delete_location demo_db req) in
  ~ In demo_progress (user_progress d')
  /\ status (fst (get_location d' req)) = 404.
Proof.
  intros req d'. subst d'.
  pose proof (delete_location_cascades demo_db req) as H.
  cbv zeta in H. destruct H as [_ H].
  destruct (H eq_refl) as (_ & _ & _ & Hp & _ & Hget & _).
  split; [|exact Hget].
  intros Hin. apply Hp in Hin. destruct Hin as [_ Hne].
  apply Hne. reflexivity.
Defined.

Lemma demo_store_consistent : store_consistent demo_db.
Proof.
  unfold store_consistent, references_ok, favorites_unique, locations_keyed.
  cbn [user_favorites user_progress demo_db locations map].
  split; [split|split].
  - constructor.
  - constructor; [|constructor]. split; [reflexivity | discriminate].
  - constructor.
  - repeat (constructor; [cbn; lia|]). constructor.
Qed.

Lemma writes_keep_store_consistent_witness :
  store_consistent
    (snd (delete_location demo_db (demo_request [("id", "2")] [] tt))).
Proof.
  destruct (writes_keep_store_consistent demo_hmac demo_bcrypt_hash
              demo_bcrypt_compare demo_isEmail lowercase demo_env 10 "salt"
              demo_db demo_store_consistent) as (_ & _ & _ & _ & _ & H & _).
  exact (H (demo_request [("id", "2")] [] tt)).
Defined.

(** The first start on an empty store. *)
Lemma initializeDatabase_seeds_once_witness :
  map Location.name (locations (initializeDatabase Z.of_nat empty_db))
  = ["Hagia Sophia"; "Blue Mosque"; "Topkapi Palace"; "Galata Tower"]
  /\ initializeDatabase (fun _ => 0) (initializeDatabase Z.of_nat empty_db)
     = initializeDatabase Z.of_nat empty_db.
Proof.
  pose proof (initializeDatabase_seeds_once Z.of_nat (fun _ => 0) empty_db)
    as H.
  cbv zeta in H. destruct H as (_ & H & _ & _ & _ & _ & Hagain & _).
  split; [exact (proj1 (H eq_refl)) | exact Hagain].
Defined.

Lemma seeded_catalogue_overview_witness :
  exists sd,
    data (fst (stats_overview (initializeDatabase Z.of_nat empty_db)))
    = Some sd
    /\ total_locations sd = 4 /\ average_rating sd = "4.8".
Proof.
  destruct (seeded_catalogue_overview Z.of_nat empty_db eq_refl)
    as (sd & Hd & Ht & _ & _ & Ha & _).
  exists sd. split; [exact Hd|]. split; [exact Ht | exact Ha].
Defined.
